(** * Server-side rendering and static-site generation of the vanilla storefront

    A shallow embedding of
    - the SSR entry point ([findRoute], [initializeStores],
      [prefetchProducts], [prefetchProductDetail], [render]),
    - the SSR HTTP server ([findAssetFiles], [createHtmlTemplate],
      [ssrMiddleware]),
    - the static-site generator ([createHtmlTemplate], [getAllProductIds],
      [generateStaticSite]) and
    - the deploy script ([deploy], [copyDirectory], [countFiles]),
    together with the properties of the specification that concern them.

    JavaScript strings are modelled as [string] (sequences of bytes, the
    UTF-8 view of the source strings).  Every needle the code searches for
    is ASCII, so searching bytes and searching UTF-16 code units agree. *)

From Stdlib Require Import ZArith Ascii.
From stdpp Require Import base option list gmap strings pretty.


(** ** JavaScript string primitives used by the sources *)

Module JsString.

(** [dropPrefix p s] is [Some r] exactly when [s = p ++ r]. *)
Fixpoint dropPrefix (p s : string) : option string :=
  match p, s with
  | EmptyString, _ => Some s
  | String _ _, EmptyString => None
  | String a p', String b s' =>
      if Ascii.eqb a b then dropPrefix p' s' else None
  end.

(** [splitFirst pat s] cuts [s] around the first (leftmost) occurrence of
    [pat]: the text before it and the text after it. *)
Fixpoint splitFirst (pat s : string) : option (string * string) :=
  match dropPrefix pat s with
  | Some r => Some (EmptyString, r)
  | None =>
      match s with
      | EmptyString => None
      | String c s' =>
          match splitFirst pat s' with
          | Some (b, a) => Some (String c b, a)
          | None => None
          end
      end
  end.

(** [includes s pat] is [s.includes(pat)]. *)
Definition includes (s pat : string) : bool :=
  match splitFirst pat s with Some _ => true | None => false end.

(** The replacement patterns of [String.prototype.replace] when the
    pattern is a string (no capture groups): [$$], [$&], [$`] and [$']. *)
Fixpoint getSubstitution (matched before after repl : string) : string :=
  match repl with
  | EmptyString => EmptyString
  | String a rest =>
      if Ascii.eqb a "$" then
        match rest with
        | EmptyString => String a EmptyString
        | String c r =>
            if Ascii.eqb c "$" then
              String "$" (getSubstitution matched before after r)
            else if Ascii.eqb c "&" then
              matched +:+ getSubstitution matched before after r
            else if Ascii.eqb c "`" then
              before +:+ getSubstitution matched before after r
            else if Ascii.eqb c "'" then
              after +:+ getSubstitution matched before after r
            else String a (getSubstitution matched before after rest)
        end
      else String a (getSubstitution matched before after rest)
  end.

(** [replace s pat repl] is [s.replace(pat, repl)] for a string [pat]:
    only the first occurrence is replaced. *)
Definition replace (s pat repl : string) : string :=
  match splitFirst pat s with
  | None => s
  | Some (b, a) => b +:+ getSubstitution pat b a repl +:+ a
  end.

(** [splitHead sep s] is [s.split(sep)[0]] for a non-empty [sep]. *)
Definition splitHead (sep s : string) : string :=
  match splitFirst sep s with
  | None => s
  | Some (b, _) => b
  end.

(** [stripTrailingSlash s] is [s.replace(/\/$/, "")]. *)
Fixpoint stripTrailingSlash (s : string) : string :=
  match s with
  | EmptyString => EmptyString
  | String c s' =>
      match s' with
      | EmptyString => if Ascii.eqb c "/" then EmptyString else s
      | String _ _ => String c (stripTrailingSlash s')
      end
  end.

(** [orElse s d] is [s || d] on strings: the empty string is falsy. *)
Definition orElse (s d : string) : string :=
  match s with EmptyString => d | String _ _ => s end.

(** [endsWithSlash s] is [s.endsWith("/")]. *)
Fixpoint endsWithSlash (s : string) : bool :=
  match s with
  | EmptyString => false
  | String c EmptyString => Ascii.eqb c "/"
  | String _ s' => endsWithSlash s'
  end.

Fixpoint trimStart (s : string) : string :=
  match s with
  | EmptyString => EmptyString
  | String c s' => if Ascii.is_space c then trimStart s' else s
  end.

Fixpoint trimEnd (s : string) : string :=
  match s with
  | EmptyString => EmptyString
  | String c s' =>
      match trimEnd s' with
      | EmptyString =>
          if Ascii.is_space c then EmptyString else String c EmptyString
      | String d t => String c (String d t)
      end
  end.

(** [trim s] is [s.trim()] (ASCII white space). *)
Definition trim (s : string) : string := trimEnd (trimStart s).

(** [startsWith s p] is [s.startsWith(p)]. *)
Definition startsWith (s p : string) : bool :=
  match dropPrefix p s with Some _ => true | None => false end.

(** [endsWith s p] is [s.endsWith(p)]. *)
Definition endsWith (s p : string) : bool :=
  startsWith (String.rev s) (String.rev p).

(** [lines ls] joins the lines with a line feed between them. *)
Fixpoint lines (ls : list string) : string :=
  match ls with
  | [] => EmptyString
  | [l] => l
  | l :: ls' => l +:+ String "010" (lines ls')
  end.

(** A double-quoted attribute value. *)
Definition quoted (s : string) : string :=
  String "034" EmptyString +:+ s +:+ String "034" EmptyString.

(** No character of [s] is [c]. *)
Fixpoint lacks (c : ascii) (s : string) : bool :=
  match s with
  | EmptyString => true
  | String d s' => negb (Ascii.eqb c d) && lacks c s'
  end.

End JsString.

(** ** JavaScript values *)

(** The values that flow through the sources: API responses, query objects,
    store payloads and the results of page functions. *)
#[warnings="-register-all"] Inductive JsVal : Type :=
| JUndefined
| JNull
| JBool (b : bool)
| JNum (n : Z)
| JStr (s : string)
| JArr (elems : list JsVal)
| JObj (fields : list (string * JsVal)).

(** Thrown values are [Error] objects; only their message is observed. *)
Record JsError : Type := mkError { message : string }.

Inductive Result (A : Type) : Type :=
| Ok (a : A)
| Throw (e : JsError).
Arguments Ok {A} a.
Arguments Throw {A} e.

Definition rbind {A B} (r : Result A) (f : A -> Result B) : Result B :=
  match r with Ok a => f a | Throw e => Throw e end.

Module Js.

(** ToBoolean. *)
Definition truthy (v : JsVal) : bool :=
  match v with
  | JUndefined | JNull => false
  | JBool b => b
  | JNum n => negb (Z.eqb n 0)
  | JStr s => match s with EmptyString => false | String _ _ => true end
  | JArr _ | JObj _ => true
  end.

(** ToString, as applied by template literals and by [replace] to its
    replacement argument. *)
Fixpoint toString (v : JsVal) : string :=
  match v with
  | JUndefined => "undefined"
  | JNull => "null"
  | JBool true => "true"
  | JBool false => "false"
  | JNum n => pretty n
  | JStr s => s
  | JArr l =>
      (fix join (l : list JsVal) : string :=
         match l with
         | [] => ""
         | x :: l' =>
             let sx := match x with
                       | JUndefined | JNull => ""
                       | _ => toString x
                       end in
             match l' with
             | [] => sx
             | _ :: _ => sx +:+ "," +:+ join l'
             end
         end) l
  | JObj _ => "[object Object]"
  end.

Fixpoint assoc (k : string) (fields : list (string * JsVal)) : JsVal :=
  match fields with
  | [] => JUndefined
  | (k', v) :: rest => if String.eqb k k' then v else assoc k rest
  end.

(** [getProp v k] is [v.k] for the property names the sources read
    ([html], [initialData], [products], [pagination], [total],
    [category2], [productId]); none of them is a built-in property of a
    string, number, boolean or array.  Reading a property of [undefined]
    or [null] throws a TypeError. *)
Definition cannotRead (v : JsVal) (k : string) : JsError :=
  mkError ("Cannot read properties of " +:+ toString v
           +:+ " (reading '" +:+ k +:+ "')").

Definition getProp (v : JsVal) (k : string) : Result JsVal :=
  match v with
  | JUndefined | JNull => Throw (cannotRead v k)
  | JObj fields => Ok (assoc k fields)
  | _ => Ok JUndefined
  end.

(** [v === s] for a string [s]. *)
Definition strictEqStr (v : JsVal) (s : string) : bool :=
  match v with
  | JStr t => String.eqb t s
  | _ => false
  end.

(** [v || d]. *)
Definition or (v d : JsVal) : JsVal := if truthy v then v else d.

(** A parameter default: [d] replaces an argument that is [undefined]. *)
Definition default (v d : JsVal) : JsVal :=
  match v with JUndefined => d | _ => v end.

(** [arr.filter(f)] where the callback may throw; calling [filter] on
    anything but an array is a TypeError ([arr] is
    [relatedResponse.products] at the one place the sources filter). *)
Fixpoint filterM (f : JsVal -> Result bool) (l : list JsVal)
  : Result (list JsVal) :=
  match l with
  | [] => Ok []
  | x :: l' =>
      rbind (f x) (fun keep =>
      rbind (filterM f l') (fun rest =>
      Ok (if keep then x :: rest else rest)))
  end.

(** [await Promise.all([a, b])] for two requests that have both been
    issued: the pair of the results when both are fulfilled, and otherwise
    the reason of the promise that rejects first.  [secondFirst] tells, for
    the case that both reject, whether the second does so before the
    first. *)
Definition promiseAll {A B} (secondFirst : bool) (a : Result A)
    (b : Result B) : Result (A * B) :=
  match a, b with
  | Ok x, Ok y => Ok (x, y)
  | Throw e, Ok _ => Throw e
  | Ok _, Throw e => Throw e
  | Throw e1, Throw e2 => Throw (if secondFirst then e2 else e1)
  end.

Definition filter (v : JsVal) (f : JsVal -> Result bool)
  : Result (list JsVal) :=
  match v with
  | JArr l => filterM f l
  | JUndefined | JNull => Throw (cannotRead v "filter")
  | _ => Throw (mkError "relatedResponse.products.filter is not a function")
  end.

End Js.

(** ** Routing ([findRoute]) *)

(** The page components, imported from [./pages]. *)
Inductive Page : Type := HomePage | ProductDetailPage | NotFoundPage.

Global Instance Page_eq_dec : EqDecision Page.
Proof. solve_decision. Defined.

Module Router.

(** The regular expression built from a route pattern: every [:name]
    becomes the group [([^/]+)], every other character stands for itself
    (the characters of the registered patterns are letters and [/], which
    a RegExp matches literally; escaping [/] does not change the match). *)
Inductive Tok : Type :=
| TLit (c : ascii)
| TGroup (name : string).

(** The class [\w]. *)
Definition isWord (c : ascii) : bool :=
  let n := nat_of_ascii c in
  (((48 <=? n) && (n <=? 57)) || ((65 <=? n) && (n <=? 90))
   || ((97 <=? n) && (n <=? 122)) || (n =? 95))%nat.

Definition startsWithWord (s : string) : bool :=
  match s with
  | EmptyString => false
  | String c _ => isWord c
  end.

(** [route.pattern.replace(/:\w+/g, ...)]: [cur] is the parameter name
    being read (reversed), if any. *)
Fixpoint compile (cur : option string) (s : string) : list Tok :=
  match s with
  | EmptyString =>
      match cur with
      | Some n => [TGroup (String.rev n)]
      | None => []
      end
  | String c s' =>
      let normal :=
        if Ascii.eqb c ":" && startsWithWord s'
        then compile (Some EmptyString) s'
        else TLit c :: compile None s' in
      match cur with
      | Some n =>
          if isWord c then compile (Some (String c n)) s'
          else TGroup (String.rev n) :: normal
      | None => normal
      end
  end.

(** [paramNames], in the order the groups occur. *)
Fixpoint paramNames (ts : list Tok) : list string :=
  match ts with
  | [] => []
  | TLit _ :: ts' => paramNames ts'
  | TGroup n :: ts' => n :: paramNames ts'
  end.

(** The group [([^/]+)] followed by the rest [k] of the expression:
    greedy, giving characters back when the rest does not match. *)
Fixpoint group (k : string -> option (list string)) (s : string)
  : option (list string) :=
  match s with
  | EmptyString => None
  | String c s' =>
      if Ascii.eqb c "/" then None
      else
        match group k s' with
        | Some (g :: caps) => Some (String c g :: caps)
        | _ =>
            match k s' with
            | Some caps => Some (String c EmptyString :: caps)
            | None => None
            end
        end
  end.

(** [str.match(new RegExp("^" + regexPath + "$"))]: the captured groups,
    or [None] when the string does not match. *)
Fixpoint matchToks (ts : list Tok) : string -> option (list string) :=
  match ts with
  | [] => fun s => match s with EmptyString => Some [] | _ => None end
  | TLit c :: ts' =>
      fun s =>
        match s with
        | EmptyString => None
        | String d s' => if Ascii.eqb c d then matchToks ts' s' else None
        end
  | TGroup _ :: ts' => group (matchToks ts')
  end.

Record Route : Type := mkRoute { pattern : string; handlerOf : Page }.

Record RouteMatch : Type :=
  mkMatch { handler : Page; params : gmap string string }.

(** [paramNames.forEach((name, index) => params[name] = match[index + 1])]. *)
Definition buildParams (names caps : list string) : gmap string string :=
  foldl (fun m nc => <[nc.1 := nc.2]> m) ∅ (zip names caps).

Definition routes : list Route :=
  [ mkRoute "/" HomePage; mkRoute "/product/:id" ProductDetailPage ].

(** The path after the query string, the first occurrence of [baseUrl]
    and one trailing slash are removed; the empty path stands for [/]. *)
Definition cleanPath (url baseUrl : string) : string :=
  let pathname := JsString.splitHead "?" url in
  JsString.orElse
    (JsString.stripTrailingSlash (JsString.replace pathname baseUrl ""))
    "/".

Fixpoint firstMatch (rs : list Route) (path : string) : RouteMatch :=
  match rs with
  | [] => mkMatch NotFoundPage ∅
  | r :: rs' =>
      let ts := compile None (pattern r) in
      match matchToks ts path with
      | Some caps => mkMatch (handlerOf r) (buildParams (paramNames ts) caps)
      | None => firstMatch rs' path
      end
  end.

Definition findRoute (url baseUrl : string) : RouteMatch :=
  firstMatch routes (cleanPath url baseUrl).

End Router.

(** ** The SSR entry point *)

Module Ssr.

Inductive ProductAction : Type :=
| SETUP (payload : gmap string JsVal)
| SET_CURRENT_PRODUCT (product : JsVal)
| SET_RELATED_PRODUCTS (products : list JsVal)
| SET_ERROR (msg : string).

Inductive CartAction : Type := CLEAR_CART.

Inductive UiAction : Type := CLOSE_CART_MODAL | HIDE_TOAST.

Record CartState : Type := mkCart { items : list JsVal }.

Record UiState : Type :=
  mkUi { cartModalIsOpen : bool; toastIsVisible : bool }.

(** The arguments of [router.setServerRoute]. *)
Record ServerRoute : Type :=
  mkServerRoute {
    routeUrl : string;
    routeQuery : JsVal;
    routeParams : gmap string string }.

(** The [console.error] sites: four in the SSR module, one in the server. *)
Inductive ErrorSite : Type :=
| ProductsPrefetchFailed
| RelatedPrefetchFailed
| DetailPrefetchFailed
| SsrRenderError
| ServerSsrError.

(** The calls a request makes, logged in execution order: to [findRoute],
    to the router, to the stores, to the product API, to a page component
    and to [console.error]. *)
Inductive Call : Type :=
| CFindRoute (url baseUrl : string)
| CSetServerRoute (r : ServerRoute)
| CDispatchProduct (a : ProductAction)
| CDispatchCart (a : CartAction)
| CDispatchUi (a : UiAction)
| CGetProduct (productId : string)
| CGetProducts (query : JsVal)
| CGetCategories
| CPage (p : Page)
| CConsoleError (site : ErrorSite) (e : JsError).

(** The module-level singletons shared by all requests, and the call log. *)
Record World : Type :=
  mkWorld {
    productStore : gmap string JsVal;
    cartStore : CartState;
    uiStore : UiState;
    router : option ServerRoute;
    calls : list Call }.

(** What the module imports and this development does not define: the page
    components, the product API (HTTP), two constants, and the product
    reducer on the actions other than [SETUP].  Page components read the
    stores and the router; they return a value or throw.  The two requests
    of [prefetchProducts] are in flight together: [categoriesRejectFirst]
    tells, for a query for which both fail, whether the categories request
    is the first to fail. *)
Record Env : Type :=
  mkEnv {
    pages : Page -> World -> Result JsVal;
    getProduct : string -> Result JsVal;
    getProducts : JsVal -> Result JsVal;
    getCategories : Result JsVal;
    categoriesRejectFirst : JsVal -> bool;
    BASE_URL : string;
    initialProductState : gmap string JsVal;
    productReducerRest : gmap string JsVal -> ProductAction -> gmap string JsVal }.

(** Computations that read and write the world and may throw. *)
Definition M (A : Type) : Type := World -> Result A * World.

Global Instance M_ret : MRet M := fun A a w => (Ok a, w).

Global Instance M_bind : MBind M :=
  fun A B f m w =>
    match m w with
    | (Ok a, w') => f a w'
    | (Throw e, w') => (Throw e, w')
    end.

Definition lift {A} (r : Result A) : M A := fun w => (r, w).

(** [try { m } catch (error) { h error }]. *)
Definition tryCatch {A} (m : M A) (h : JsError -> M A) : M A :=
  fun w =>
    match m w with
    | (Ok a, w') => (Ok a, w')
    | (Throw e, w') => h e w'
    end.

Definition log (c : Call) : M unit :=
  fun w =>
    (Ok tt,
     mkWorld (productStore w) (cartStore w) (uiStore w) (router w)
             (calls w ++ [c])).

Definition consoleError (site : ErrorSite) (e : JsError) : M unit :=
  log (CConsoleError site e).

Section WithEnv.

Variable E : Env.

(** Modelled from the spec: the reducer of the product store, whose module
    [./stores] is not among the sources.  [SETUP] merges its payload into
    the state, a key of the payload replacing the same key of the state; the
    other actions are left to [productReducerRest]. *)
Definition productReducer (s : gmap string JsVal) (a : ProductAction)
  : gmap string JsVal :=
  match a with
  | SETUP payload => payload ∪ s
  | _ => productReducerRest E s a
  end.

(** Modelled from the spec: the reducer of the cart store, whose module
    [./stores] is not among the sources.  [CLEAR_CART] leaves the cart
    without items. *)
Definition cartReducer (s : CartState) (a : CartAction) : CartState :=
  match a with
  | CLEAR_CART => mkCart []
  end.

(** Modelled from the spec: the reducer of the UI store, whose module
    [./stores] is not among the sources.  [CLOSE_CART_MODAL] closes the cart
    modal and [HIDE_TOAST] hides the toast; each leaves the other part of
    the state as it is. *)
Definition uiReducer (s : UiState) (a : UiAction) : UiState :=
  match a with
  | CLOSE_CART_MODAL => mkUi false (toastIsVisible s)
  | HIDE_TOAST => mkUi (cartModalIsOpen s) false
  end.

Definition dispatchProduct (a : ProductAction) : M unit :=
  fun w =>
    (Ok tt,
     mkWorld (productReducer (productStore w) a) (cartStore w) (uiStore w)
             (router w) (calls w ++ [CDispatchProduct a])).

Definition dispatchCart (a : CartAction) : M unit :=
  fun w =>
    (Ok tt,
     mkWorld (productStore w) (cartReducer (cartStore w) a) (uiStore w)
             (router w) (calls w ++ [CDispatchCart a])).

Definition dispatchUi (a : UiAction) : M unit :=
  fun w =>
    (Ok tt,
     mkWorld (productStore w) (cartStore w) (uiReducer (uiStore w) a)
             (router w) (calls w ++ [CDispatchUi a])).

(** Modelled from the spec: [router.setServerRoute], whose module [./router]
    is not among the sources, records the url, query and params of the
    request on the router.  Like [dispatch], it returns normally. *)
Definition setServerRoute (url : string) (query : JsVal)
    (params : gmap string string) : M unit :=
  fun w =>
    let r := mkServerRoute url query params in
    (Ok tt,
     mkWorld (productStore w) (cartStore w) (uiStore w) (Some r)
             (calls w ++ [CSetServerRoute r])).

(** Calling a page component: it sees the world as it is at the call. *)
Definition runPage (p : Page) : M JsVal :=
  fun w =>
    let w' := mkWorld (productStore w) (cartStore w) (uiStore w) (router w)
                      (calls w ++ [CPage p]) in
    (pages E p w, w').

Definition initializeStores : M unit :=
  dispatchProduct
    (SETUP (<["status" := JStr "pending"]>
              (<["loading" := JBool true]> (initialProductState E)))) ;;
  dispatchCart CLEAR_CART ;;
  dispatchUi CLOSE_CART_MODAL ;;
  dispatchUi HIDE_TOAST.

(** [Promise.all([getProducts(query), getCategories()])]: both requests are
    issued, and the pair is available only when neither failed. *)
Definition prefetchProducts (query0 : JsVal) : M unit :=
  let query := Js.default query0 (JObj []) in
  tryCatch
    (log (CGetProducts query) ;;
     log CGetCategories ;;
     '(productsResponse, categories) ←
       lift (Js.promiseAll (categoriesRejectFirst E query)
               (getProducts E query) (getCategories E)) ;
     products ← lift (Js.getProp productsResponse "products") ;
     pagination ← lift (Js.getProp productsResponse "pagination") ;
     total ← lift (Js.getProp pagination "total") ;
     dispatchProduct
       (SETUP (list_to_map
                 [ ("products", products);
                   ("categories", categories);
                   ("totalCount", total);
                   ("loading", JBool false);
                   ("status", JStr "done");
                   ("error", JNull) ])))
    (fun error =>
       consoleError ProductsPrefetchFailed error ;;
       dispatchProduct (SET_ERROR (message error))).

(** The callback [(p) => p.productId !== productId]. *)
Definition isOtherProduct (productId : string) (p : JsVal) : Result bool :=
  rbind (Js.getProp p "productId")
        (fun pid => Ok (negb (Js.strictEqStr pid productId))).

Definition prefetchProductDetail (productId : string) : M unit :=
  tryCatch
    (log (CGetProduct productId) ;;
     product ← lift (getProduct E productId) ;
     dispatchProduct (SET_CURRENT_PRODUCT product) ;;
     category2 ← lift (Js.getProp product "category2") ;
     if Js.truthy category2 then
       tryCatch
         (let query := JObj [ ("category2", category2);
                              ("limit", JNum 20);
                              ("page", JNum 1) ] in
          log (CGetProducts query) ;;
          relatedResponse ← lift (getProducts E query) ;
          all ← lift (Js.getProp relatedResponse "products") ;
          relatedProducts ← lift (Js.filter all (isOtherProduct productId)) ;
          dispatchProduct (SET_RELATED_PRODUCTS relatedProducts))
         (fun error =>
            consoleError RelatedPrefetchFailed error ;;
            dispatchProduct (SET_RELATED_PRODUCTS []))
     else mret tt)
    (fun error =>
       consoleError DetailPrefetchFailed error ;;
       dispatchProduct (SET_ERROR (message error))).

(** [url.replace(BASE_URL, "").replace(/\/$/, "") || "/"]. *)
Definition cleanUrl (url : string) : string :=
  JsString.orElse
    (JsString.stripTrailingSlash (JsString.replace url (BASE_URL E) ""))
    "/".

(** [if (route.params.id)]: the id, when present and not the empty string. *)
Definition truthyId (params : gmap string string) : option string :=
  match params !! "id" with
  | Some (String c s) => Some (String c s)
  | _ => None
  end.

Definition prefetch (route : Router.RouteMatch) (query : JsVal) : M unit :=
  match truthyId (Router.params route) with
  | Some id => prefetchProductDetail id
  | None => prefetchProducts query
  end.

Definition render (url : string) (query0 : JsVal) : M JsVal :=
  let query := Js.default query0 (JObj []) in
  tryCatch
    (let cleanUrl := cleanUrl url in
     log (CFindRoute cleanUrl (BASE_URL E)) ;;
     let route := Router.findRoute cleanUrl (BASE_URL E) in
     setServerRoute cleanUrl query (Router.params route) ;;
     initializeStores ;;
     prefetch route query ;;
     html ← runPage (Router.handler route) ;
     mret (Js.or html (JStr "")))
    (fun error =>
       consoleError SsrRenderError error ;;
       runPage NotFoundPage).

End WithEnv.

End Ssr.

(** ** The SSR HTTP server *)

Module Server.

Record Assets : Type := mkAssets { js : string; css : string }.

(** What the server reads from its process: [NODE_ENV], [BASE], and the
    listing of [dist/vanilla/assets] ([readdirSync] may throw). *)
Record ProcessEnv : Type :=
  mkProcessEnv {
    NODE_ENV : option string;
    BASE : option string;
    assetsDir : Result (list string) }.

Definition prod (env : ProcessEnv) : bool :=
  match NODE_ENV env with
  | Some v => String.eqb v "production"
  | None => false
  end.

(** [process.env.BASE || (prod ? "/front_7th_chapter4-1/vanilla/" : "/")]. *)
Definition base (env : ProcessEnv) : string :=
  JsString.orElse
    (default EmptyString (BASE env))
    (if prod env then "/front_7th_chapter4-1/vanilla/" else "/").

Definition isIndexFile (ext : string) (file : string) : bool :=
  JsString.startsWith file "index-" && JsString.endsWith file ext.

Definition findAssetFiles (env : ProcessEnv) : Assets :=
  if negb (prod env) then mkAssets "index.js" "index.css"
  else
    match assetsDir env with
    | Ok files =>
        mkAssets
          (match find (isIndexFile ".js") files with
           | Some jsFile => "assets/" +:+ jsFile
           | None => "assets/index.js"
           end)
          (match find (isIndexFile ".css") files with
           | Some cssFile => "assets/" +:+ cssFile
           | None => "assets/index.css"
           end)
    | Throw _ => mkAssets "assets/index.js" "assets/index.css"
    end.

Definition assetFiles (env : ProcessEnv) : Assets := findAssetFiles env.

Definition createHtmlTemplate (html : JsVal) (baseUrl : string)
    (isProd : bool) (assets : Assets) : string :=
  let cssPath := baseUrl +:+ css assets in
  let jsPath := baseUrl +:+ js assets in
  JsString.trim
    (JsString.lines
       [ "";
         "<!DOCTYPE html>";
         "<html lang=" +:+ JsString.quoted "ko" +:+ ">";
         "  <head>";
         "    <meta charset=" +:+ JsString.quoted "UTF-8" +:+ " />";
         "    <meta name=" +:+ JsString.quoted "viewport" +:+ " content="
           +:+ JsString.quoted "width=device-width, initial-scale=1.0"
           +:+ " />";
         "    <script src=" +:+ JsString.quoted "https://cdn.tailwindcss.com"
           +:+ "></script>";
         "    <link rel=" +:+ JsString.quoted "stylesheet" +:+ " href="
           +:+ JsString.quoted cssPath +:+ ">";
         "    <script>";
         "      tailwind.config = {";
         "        theme: {";
         "          extend: {";
         "            colors: {";
         "              primary: '#3b82f6',";
         "              secondary: '#6b7280'";
         "            }";
         "          }";
         "        }";
         "      }";
         "    </script>";
         "  </head>";
         "  <body class=" +:+ JsString.quoted "bg-gray-50" +:+ ">";
         "    <div id=" +:+ JsString.quoted "root" +:+ ">"
           +:+ Js.toString html +:+ "</div>";
         "    <script type=" +:+ JsString.quoted "module" +:+ " src="
           +:+ JsString.quoted jsPath +:+ "></script>";
         "  </body>";
         "</html>" ]).

Record Request : Type := mkRequest { originalUrl : string; query : JsVal }.

(** What the middleware does with the response object: it sends a body with
    the headers it has set, or it hands the error to [next]. *)
Inductive Outcome : Type :=
| Sent (headers : list (string * string)) (body : string)
| Next (error : JsError).

Definition ssrMiddleware (E : Ssr.Env) (env : ProcessEnv) (req : Request)
  : Ssr.World -> Outcome * Ssr.World :=
  fun w =>
    let url :=
      JsString.orElse (JsString.replace (originalUrl req) (base env) "/") "/" in
    let query := query req in
    match Ssr.render E url query w with
    | (Ok html, w') =>
        let template :=
          createHtmlTemplate html (base env) (prod env) (assetFiles env) in
        (Sent [("Content-Type", "text/html")] template, w')
    | (Throw error, w') =>
        (Next error, snd (Ssr.consoleError Ssr.ServerSsrError error w'))
    end.

End Server.

(** ** POSIX paths and the file system, as the generator uses them *)

Module Path.

(** [s.split("/")]. *)
Fixpoint segments (s : string) : list string :=
  match s with
  | EmptyString => [EmptyString]
  | String c s' =>
      if Ascii.eqb c "/" then EmptyString :: segments s'
      else
        match segments s' with
        | h :: t => String c h :: t
        | [] => [String c EmptyString]
        end
  end.

Fixpoint unsegments (l : list string) : string :=
  match l with
  | [] => EmptyString
  | [x] => x
  | x :: l' => x +:+ String "/" (unsegments l')
  end.

(** Resolution of [.] and [..] segments; [stack] is the path so far, last
    segment first. *)
Fixpoint resolve (allowAboveRoot : bool) (stack segs : list string)
  : list string :=
  match segs with
  | [] => rev stack
  | seg :: segs' =>
      if String.eqb seg "" || String.eqb seg "." then
        resolve allowAboveRoot stack segs'
      else if String.eqb seg ".." then
        match stack with
        | top :: below =>
            if String.eqb top ".."
            then resolve allowAboveRoot (seg :: stack) segs'
            else resolve allowAboveRoot below segs'
        | [] =>
            if allowAboveRoot
            then resolve allowAboveRoot [seg] segs'
            else resolve allowAboveRoot [] segs'
        end
      else resolve allowAboveRoot (seg :: stack) segs'
  end.

(** [path.normalize]. *)
Definition normalize (path : string) : string :=
  match path with
  | EmptyString => "."
  | String c _ =>
      let isAbsolute := Ascii.eqb c "/" in
      let trailingSeparator := JsString.endsWithSlash path in
      let body := unsegments (resolve (negb isAbsolute) [] (segments path)) in
      match body with
      | EmptyString =>
          if isAbsolute then "/" else if trailingSeparator then "./" else "."
      | String _ _ =>
          let body' := if trailingSeparator then body +:+ "/" else body in
          if isAbsolute then String "/" body' else body'
      end
  end.

(** [path.join] on strings: empty arguments are skipped. *)
Definition joinStrings (args : list string) : string :=
  match filter (fun a => a ≠ EmptyString) args with
  | [] => "."
  | l => normalize (unsegments l)
  end.

Fixpoint validateStrings (args : list JsVal) : Result (list string) :=
  match args with
  | [] => Ok []
  | JStr s :: rest => rbind (validateStrings rest) (fun l => Ok (s :: l))
  | _ :: _ => Throw (mkError "The path argument must be of type string")
  end.

(** [path.join]: an argument that is not a string is a TypeError. *)
Definition join (args : list JsVal) : Result string :=
  rbind (validateStrings args) (fun l => Ok (joinStrings l)).

(** [path.dirname] of a normalized path. *)
Definition dirname (path : string) : string :=
  match rev (segments path) with
  | _ :: (_ :: _) as rest =>
      match unsegments (rev rest) with
      | EmptyString => "/"
      | d => d
      end
  | _ => "."
  end.

(** The directory and all directories above it. *)
Fixpoint ancestors (fuel : nat) (dir : string) : list string :=
  match fuel with
  | O => [dir]
  | S fuel' =>
      if String.eqb dir "/" || String.eqb dir "." then [dir]
      else dir :: ancestors fuel' (dirname dir)
  end.

End Path.

Module Fs.

Record Fs : Type :=
  mkFs { files : gmap string string; dirs : gset string }.

Definition existsSync (fs : Fs) (path : string) : bool :=
  match files fs !! path with
  | Some _ => true
  | None => bool_decide (path ∈ dirs fs)
  end.

Definition readFileSync (fs : Fs) (path : string) : Result string :=
  match files fs !! path with
  | Some content => Ok content
  | None => Throw (mkError ("ENOENT: no such file or directory, open " +:+ path))
  end.

(** Writing needs the directory of the file to exist, and the path not to
    be a directory. *)
Definition writeFileSync (fs : Fs) (path content : string) : Result Fs :=
  if bool_decide (Path.dirname path ∈ dirs fs)
     && negb (bool_decide (path ∈ dirs fs))
  then Ok (mkFs (<[path := content]> (files fs)) (dirs fs))
  else Throw (mkError ("ENOENT: no such file or directory, open " +:+ path)).

(** [fs.mkdirSync(path, { recursive: true })]. *)
Definition mkdirSync (fs : Fs) (path : string) : Fs :=
  mkFs (files fs)
       (list_to_set (Path.ancestors (String.length path) path) ∪ dirs fs).

End Fs.

(** ** The static-site generator *)

Module Ssg.

(** What the generator imports: the built SSR module (its [render], with
    its environment), the directory of the script, and [JSON]. *)
Record Env : Type :=
  mkEnv {
    ssr : Ssr.Env;
    __dirname : string;
    JSON_parse : string -> Result JsVal;
    JSON_stringify : JsVal -> string }.

Record State : Type := mkState { world : Ssr.World; fs : Fs.Fs }.

Definition G (A : Type) : Type := State -> Result A * State.

Global Instance G_ret : MRet G := fun A a st => (Ok a, st).

Global Instance G_bind : MBind G :=
  fun A B f m st =>
    match m st with
    | (Ok a, st') => f a st'
    | (Throw e, st') => (Throw e, st')
    end.

Definition lift {A} (r : Result A) : G A := fun st => (r, st).

Definition liftSsr {A} (m : Ssr.M A) : G A :=
  fun st =>
    match m (world st) with
    | (r, w') => (r, mkState w' (fs st))
    end.

Definition tryCatch {A} (m : G A) (h : JsError -> G A) : G A :=
  fun st =>
    match m st with
    | (Ok a, st') => (Ok a, st')
    | (Throw e, st') => h e st'
    end.

Definition existsSync (path : string) : G bool :=
  fun st => (Ok (Fs.existsSync (fs st) path), st).

Definition readFileSync (path : string) : G string :=
  fun st => (Fs.readFileSync (fs st) path, st).

Definition writeFileSync (path content : string) : G unit :=
  fun st =>
    match Fs.writeFileSync (fs st) path content with
    | Ok fs' => (Ok tt, mkState (world st) fs')
    | Throw e => (Throw e, st)
    end.

Definition mkdirSync (path : string) : G unit :=
  fun st => (Ok tt, mkState (world st) (Fs.mkdirSync (fs st) path)).

Definition BASE_URL : string := "".

(** [const { html, initialData } = value]. *)
Definition destructure (value : JsVal) : Result (JsVal * JsVal) :=
  rbind (Js.getProp value "html") (fun html =>
  rbind (Js.getProp value "initialData") (fun initialData =>
  Ok (html, initialData))).

Definition initialDataScript (stringify : JsVal -> string)
    (initialData : JsVal) : string :=
  "<script>window.__INITIAL_DATA__ = " +:+ stringify initialData
  +:+ ";</script>".

(** The body of [createHtmlTemplate] once the template file is read. *)
Definition fillTemplate (stringify : JsVal -> string) (template0 : string)
    (html initialData0 : JsVal) : string :=
  let initialData := Js.default initialData0 JNull in
  let template := JsString.replace template0 "<!--app-html-->" (Js.toString html) in
  let template := JsString.replace template "<!--app-head-->" "" in
  if Js.truthy initialData then
    JsString.replace template "</body>"
      (initialDataScript stringify initialData +:+ String "010" "  </body>")
  else template.

Section WithEnv.

Variable E : Env.

Definition distDir : string :=
  Path.joinStrings [__dirname E; "../../dist/vanilla"].

Definition templatePath : string :=
  Path.joinStrings [__dirname E; "../../dist/vanilla/index.html"].

Definition createHtmlTemplate (html initialData : JsVal) : G string :=
  template ← readFileSync templatePath ;
  mret (fillTemplate (JSON_stringify E) template html initialData).

(** [items.map((item) => item.productId)]. *)
Fixpoint productIdsOf (items : list JsVal) : Result (list JsVal) :=
  match items with
  | [] => Ok []
  | item :: rest =>
      rbind (Js.getProp item "productId") (fun id =>
      rbind (productIdsOf rest) (fun ids => Ok (id :: ids)))
  end.

Definition mapProductIds (items : JsVal) : Result (list JsVal) :=
  match items with
  | JArr l => productIdsOf l
  | JUndefined | JNull =>
      Throw (mkError ("Cannot read properties of " +:+ Js.toString items))
  | _ => Throw (mkError "items.map is not a function")
  end.

Definition possiblePaths : list string :=
  [ Path.joinStrings [__dirname E; "src/mocks/items.json"];
    Path.joinStrings [__dirname E; "../src/mocks/items.json"];
    Path.joinStrings
      [__dirname E; "../../packages/vanilla/src/mocks/items.json"] ].

Fixpoint firstItems (paths : list string) : G (list JsVal) :=
  match paths with
  | [] => lift (Throw (mkError "items.json not found"))
  | itemsPath :: rest =>
      found ← existsSync itemsPath ;
      if (found : bool) then
        text ← readFileSync itemsPath ;
        items ← lift (JSON_parse E text) ;
        lift (mapProductIds items)
      else firstItems rest
  end.

Definition getAllProductIds : G (list JsVal) :=
  tryCatch (firstItems possiblePaths) (fun error => mret []).

(** One page: render, fill the template, write the file. *)
Definition generateProductPage (productId : JsVal) : G unit :=
  let url := BASE_URL +:+ "/product/" +:+ Js.toString productId in
  rendered ← liftSsr (Ssr.render (ssr E) url (JObj [])) ;
  '(html, initialData) ← lift (destructure rendered) ;
  productDir ← lift (Path.join [JStr distDir; JStr "product"; productId]) ;
  present ← existsSync productDir ;
  (if negb (present : bool) then mkdirSync productDir else mret tt) ;;
  productHtml ← createHtmlTemplate html initialData ;
  writeFileSync (Path.joinStrings [productDir; "index.html"]) productHtml.

(** The loop over [productIds], with its two counters. *)
Fixpoint generateProductPages (productIds : list JsVal)
    (successCount failCount : nat) : G (nat * nat) :=
  match productIds with
  | [] => mret (successCount, failCount)
  | productId :: rest =>
      done ← tryCatch (generateProductPage productId ;; mret true)
                      (fun error => mret false) ;
      if (done : bool)
      then generateProductPages rest (S successCount) failCount
      else generateProductPages rest successCount (S failCount)
  end.

(** The home page and the 404 page: a failure is logged and skipped. *)
Definition generatePlainPage (url fileName : string) : G unit :=
  tryCatch
    (rendered ← liftSsr (Ssr.render (ssr E) url (JObj [])) ;
     '(html, initialData) ← lift (destructure rendered) ;
     page ← createHtmlTemplate html initialData ;
     writeFileSync (Path.joinStrings [distDir; fileName]) page)
    (fun error => mret tt).

Inductive Outcome : Type :=
| Exit (code : Z)
| Generated (successCount failCount : nat).

Definition generateStaticSite : G Outcome :=
  let serverBuildPath :=
    Path.joinStrings [__dirname E; "dist/vanilla-ssr/main-server.js"] in
  built ← existsSync serverBuildPath ;
  if negb (built : bool) then mret (Exit 1)
  else
    hasDist ← existsSync distDir ;
    if negb (hasDist : bool) then mret (Exit 1)
    else
      generatePlainPage (BASE_URL +:+ "/") "index.html" ;;
      productIds ← getAllProductIds ;
      counts ← generateProductPages productIds 0 0 ;
      generatePlainPage (BASE_URL +:+ "/not-found-page") "404.html" ;;
      mret (Generated counts.1 counts.2).

End WithEnv.

End Ssg.

(** ** A concrete environment, used to run the definitions *)

Module Demo.

Definition shoe (id : string) : JsVal :=
  JObj [ ("productId", JStr id); ("category2", JStr "shoes") ].

Definition getProduct (productId : string) : Result JsVal :=
  if String.eqb productId "1" then Ok (shoe "1")
  else Throw (mkError "Product not found").

Definition getProducts (query : JsVal) : Result JsVal :=
  Ok (JObj [ ("products", JArr [shoe "1"; shoe "2"; shoe "3"]);
             ("pagination", JObj [("total", JNum 3)]) ]).

Definition offline (query : JsVal) : Result JsVal :=
  Throw (mkError "fetch failed").

Definition initialProductState : gmap string JsVal :=
  list_to_map
    [ ("products", JArr []);
      ("totalCount", JNum 0);
      ("currentProduct", JNull);
      ("relatedProducts", JArr []);
      ("loading", JBool true);
      ("error", JNull);
      ("status", JStr "idle");
      ("categories", JObj []) ].

Definition productReducerRest (s : gmap string JsVal)
    (a : Ssr.ProductAction) : gmap string JsVal :=
  match a with
  | Ssr.SETUP _ => s
  | Ssr.SET_CURRENT_PRODUCT p => <["currentProduct" := p]> s
  | Ssr.SET_RELATED_PRODUCTS l => <["relatedProducts" := JArr l]> s
  | Ssr.SET_ERROR msg => <["error" := JStr msg]> s
  end.

Definition pages (p : Page) (w : Ssr.World) : Result JsVal :=
  match p with
  | HomePage => Ok (JStr "<main>home</main>")
  | ProductDetailPage => Ok (JStr "<main>detail</main>")
  | NotFoundPage => Ok (JStr "<main>404</main>")
  end.

(** A detail page that throws while rendering. *)
Definition brokenPages (p : Page) (w : Ssr.World) : Result JsVal :=
  match p with
  | ProductDetailPage => Throw (mkError "render failed")
  | _ => pages p w
  end.

Definition env : Ssr.Env :=
  Ssr.mkEnv pages getProduct getProducts (Ok (JObj []))
            (fun _ => false) ""
            initialProductState productReducerRest.

Definition offlineEnv : Ssr.Env :=
  Ssr.mkEnv pages getProduct offline (Ok (JObj []))
            (fun _ => false) ""
            initialProductState productReducerRest.

(** Both list requests fail, the categories request first. *)
Definition downEnv : Ssr.Env :=
  Ssr.mkEnv pages getProduct offline (Throw (mkError "categories failed"))
            (fun _ => true) ""
            initialProductState productReducerRest.

Definition brokenEnv : Ssr.Env :=
  Ssr.mkEnv brokenPages getProduct getProducts (Ok (JObj []))
            (fun _ => false) ""
            initialProductState productReducerRest.

(** A detail page that throws while rendering, and a [NotFoundPage] that
    throws as well. *)
Definition noFallbackPages (p : Page) (w : Ssr.World) : Result JsVal :=
  match p with
  | NotFoundPage => Throw (mkError "no fallback")
  | _ => brokenPages p w
  end.

Definition noFallbackEnv : Ssr.Env :=
  Ssr.mkEnv noFallbackPages getProduct getProducts (Ok (JObj []))
            (fun _ => false) ""
            initialProductState productReducerRest.

(** The world a previous request left behind. *)
Definition usedWorld : Ssr.World :=
  Ssr.mkWorld
    (<["status" := JStr "done"]> (<["loading" := JBool false]>
       (<["currentProduct" := shoe "7"]> initialProductState)))
    (Ssr.mkCart [shoe "7"])
    (Ssr.mkUi true true)
    None
    [].

Definition processEnv : Server.ProcessEnv :=
  Server.mkProcessEnv (Some "production") None
    (Ok ["index-abc.css"; "index-abc.js"; "logo.svg"]).

Definition template : string :=
  "<html><head><!--app-head--></head><body><div id=root><!--app-html--></div></body></html>".

Definition ssgEnv : Ssg.Env :=
  Ssg.mkEnv env "/repo/packages/vanilla"
    (fun text => Ok (JArr [JObj [("productId", JStr "1")]]))
    (fun v => "{}").

Definition disk : Fs.Fs :=
  Fs.mkFs
    (list_to_map
       [ ("/repo/dist/vanilla/index.html", template);
         ("/repo/packages/vanilla/dist/vanilla-ssr/main-server.js", "");
         ("/repo/packages/vanilla/src/mocks/items.json", "[]") ])
    (list_to_set ["/repo/dist/vanilla"; "/repo/dist"; "/repo"; "/"]).

Definition ssgState : Ssg.State := Ssg.mkState usedWorld disk.

End Demo.

(** ** The deploy script *)

Module Deploy.

(** The part of the disk the script works on: a file with its content, or
    a directory, which maps the names of its entries to what they hold.
    Paths are lists of names, read from the root. *)
#[warnings="-register-all"] Inductive Node : Type :=
| File (content : string)
| Dir (entries : gmap string Node).

Definition isDirectory (n : Node) : bool :=
  match n with Dir _ => true | File _ => false end.

Fixpoint get (path : list string) (n : Node) : option Node :=
  match path with
  | [] => Some n
  | name :: path' =>
      match n with
      | Dir es =>
          match es !! name with
          | Some child => get path' child
          | None => None
          end
      | File _ => None
      end
  end.

(** The entry at [path] becomes what [f] makes of it ([None]: no entry).
    The directories on the way have to exist, unless [create] is set, in
    which case missing ones are made; a file on the way is an error, and
    so is removing the root. *)
Fixpoint alterAt (create : bool) (f : option Node -> Result (option Node))
    (path : list string) (n : Node) : Result Node :=
  match path with
  | [] =>
      rbind (f (Some n)) (fun o =>
      match o with
      | Some v => Ok v
      | None => Throw (mkError "EPERM: operation not permitted")
      end)
  | name :: path' =>
      match n with
      | File _ => Throw (mkError "ENOTDIR: not a directory")
      | Dir es =>
          match path' with
          | [] =>
              rbind (f (es !! name)) (fun o =>
              Ok (Dir match o with
                      | Some v => <[name := v]> es
                      | None => delete name es
                      end))
          | _ :: _ =>
              match es !! name with
              | Some child =>
                  rbind (alterAt create f path' child) (fun child' =>
                  Ok (Dir (<[name := child']> es)))
              | None =>
                  if create then
                    rbind (alterAt create f path' (Dir ∅)) (fun child' =>
                    Ok (Dir (<[name := child']> es)))
                  else Throw (mkError "ENOENT: no such file or directory")
              end
          end
      end
  end.

Definition existsSync (path : list string) (root : Node) : bool :=
  match get path root with Some _ => true | None => false end.

(** The order in which a directory listing comes back is the file
    system's: [order] arranges the entries of a listing. *)
Definition Listing : Type := list (string * bool) -> list (string * bool).

(** [fs.readdirSync(path, { withFileTypes: true })]: the names, each with
    what [isDirectory()] answers. *)
Definition readdirSync (order : Listing) (path : list string) (root : Node)
  : Result (list (string * bool)) :=
  match get path root with
  | Some (Dir es) =>
      Ok (order ((fun e => (e.1, isDirectory e.2)) <$> map_to_list es))
  | Some (File _) => Throw (mkError "ENOTDIR: not a directory, scandir")
  | None => Throw (mkError "ENOENT: no such file or directory, scandir")
  end.

(** [fs.mkdirSync(path, { recursive: true })]. *)
Definition mkdirSync (path : list string) (root : Node) : Result Node :=
  alterAt true
    (fun o => match o with
              | None => Ok (Some (Dir ∅))
              | Some (Dir es) => Ok (Some (Dir es))
              | Some (File _) => Throw (mkError "EEXIST: file already exists")
              end)
    path root.

Definition writeFileSync (path : list string) (content : string)
    (root : Node) : Result Node :=
  alterAt false
    (fun o => match o with
              | Some (Dir _) =>
                  Throw (mkError "EISDIR: illegal operation on a directory")
              | _ => Ok (Some (File content))
              end)
    path root.

Definition copyFileSync (src dest : list string) (root : Node)
  : Result Node :=
  match get src root with
  | Some (File content) => writeFileSync dest content root
  | Some (Dir _) => Throw (mkError "EISDIR: illegal operation on a directory")
  | None => Throw (mkError "ENOENT: no such file or directory, copyfile")
  end.

(** [fs.rmSync(path, { recursive: true, force: true })]: with [force],
    nothing happens when there is nothing at [path]. *)
Definition rmSync (path : list string) (root : Node) : Result Node :=
  if existsSync path root then alterAt false (fun _ => Ok None) path root
  else Ok root.

(** Computations on the file system that may throw; an operation that
    throws leaves the tree as it was. *)
Definition D (A : Type) : Type := Node -> Result A * Node.

Global Instance D_ret : MRet D := fun A a root => (Ok a, root).

Global Instance D_bind : MBind D :=
  fun A B f m root =>
    match m root with
    | (Ok a, root') => f a root'
    | (Throw e, root') => (Throw e, root')
    end.

Definition read {A} (f : Node -> Result A) : D A := fun root => (f root, root).

Definition write (f : Node -> Result Node) : D unit :=
  fun root =>
    match f root with
    | Ok root' => (Ok tt, root')
    | Throw e => (Throw e, root)
    end.

(** The loop of [copyDirectory] over the entries it has read; [recur] is
    the recursive call. *)
Fixpoint copyEntries (recur : list string -> list string -> D unit)
    (src dest : list string) (entries : list (string * bool)) : D unit :=
  match entries with
  | [] => mret tt
  | (name, isDir) :: rest =>
      let srcPath := src ++ [name] in
      let destPath := dest ++ [name] in
      (if isDir then
         write (mkdirSync destPath) ;;
         recur srcPath destPath
       else write (copyFileSync srcPath destPath)) ;;
      copyEntries recur src dest rest
  end.

(** [depth] is the depth of recursion the call stack allows; going beyond
    it is a RangeError. *)
Fixpoint copyDirectory (order : Listing) (depth : nat)
    (src dest : list string) : D unit :=
  match depth with
  | O => fun root => (Throw (mkError "Maximum call stack size exceeded"), root)
  | S depth' =>
      entries ← read (readdirSync order src) ;
      copyEntries (copyDirectory order depth') src dest entries
  end.

Fixpoint countEntries (recur : list string -> D nat) (dir : list string)
    (entries : list (string * bool)) (count : nat) : D nat :=
  match entries with
  | [] => mret count
  | (name, isDir) :: rest =>
      let fullPath := dir ++ [name] in
      if isDir then
        sub ← recur fullPath ;
        countEntries recur dir rest (count + sub)
      else countEntries recur dir rest (S count)
  end.

Fixpoint countFiles (order : Listing) (depth : nat) (dir : list string)
  : D nat :=
  match depth with
  | O => fun root => (Throw (mkError "Maximum call stack size exceeded"), root)
  | S depth' =>
      entries ← read (readdirSync order dir) ;
      countEntries (countFiles order depth') dir entries 0
  end.

(** What the script reads from its process, with the paths resolved;
    [deployInfoJson] is [JSON.stringify(deployInfo, null, 2)] for a given
    file count (time stamp, source and destination are fixed for a run),
    and [listingOrder] the order of the directory listings. *)
Record Env : Type :=
  mkEnv {
    sourceDir : list string;
    deployDir : list string;
    deployInfoJson : nat -> string;
    listingOrder : Listing;
    stackDepth : nat }.

Inductive Outcome : Type :=
| Exit (code : Z)
| Deployed (files : nat).

Definition deployBody (E : Env) : D nat :=
  present ← read (fun root => Ok (existsSync (deployDir E) root)) ;
  (if (present : bool) then write (rmSync (deployDir E)) else mret tt) ;;
  write (mkdirSync (deployDir E)) ;;
  copyDirectory (listingOrder E) (stackDepth E) (sourceDir E) (deployDir E) ;;
  files ← countFiles (listingOrder E) (stackDepth E) (deployDir E) ;
  write (writeFileSync (deployDir E ++ [".deploy-info.json"])
           (deployInfoJson E files)) ;;
  mret files.

(** [deploy().catch(... process.exit(1))]. *)
Definition deploy (E : Env) (root : Node) : Outcome * Node :=
  if negb (existsSync (sourceDir E) root) then (Exit 1, root)
  else
    match deployBody E root with
    | (Ok files, root') => (Deployed files, root')
    | (Throw _, root') => (Exit 1, root')
    end.

End Deploy.

(** A small build to deploy. *)
Definition builtSite : gmap string Deploy.Node :=
  list_to_map
    [ ("index.html", Deploy.File "<html>home</html>");
      ("assets",
       Deploy.Dir (list_to_map [ ("index-abc.js", Deploy.File "js");
                                 ("index-abc.css", Deploy.File "css") ]));
      ("404.html", Deploy.File "<html>404</html>") ].

Definition deployRoot : Deploy.Node :=
  Deploy.Dir
    {[ "dist" :=
         Deploy.Dir
           (list_to_map
              [ ("vanilla", Deploy.Dir builtSite);
                ("deploy",
                 Deploy.Dir
                   {[ "vanilla" :=
                        Deploy.Dir {[ "stale.html" := Deploy.File "old" ]} ]})
              ]) ]}.

(** The same build beside an empty directory. *)
Definition copyRoot : Deploy.Node :=
  Deploy.Dir
    (list_to_map [ ("src", Deploy.Dir builtSite); ("out", Deploy.Dir ∅) ]).

(** A file system that lists the entries of a directory last to first. *)
Definition backwards : Deploy.Listing := fun entries => reverse entries.

Definition deployEnv : Deploy.Env :=
  Deploy.mkEnv ["dist"; "vanilla"] ["dist"; "deploy"; "vanilla"]
               (fun files => "{ files: " +:+ pretty files +:+ " }")
               backwards 64.

(** ** Definitions used to state the properties *)

(** The tokens of a pattern without parameters. *)
Fixpoint literals (s : string) : list Router.Tok :=
  match s with
  | EmptyString => []
  | String c s' => Router.TLit c :: literals s'
  end.

(** The world with further calls logged. *)
Definition logged (cs : list Ssr.Call) (w : Ssr.World) : Ssr.World :=
  Ssr.mkWorld (Ssr.productStore w) (Ssr.cartStore w) (Ssr.uiStore w)
              (Ssr.router w) (Ssr.calls w ++ cs).

(** The payload of the [SETUP] action of [initializeStores]. *)
Definition initialPayload (E : Ssr.Env) : gmap string JsVal :=
  <["status" := JStr "pending"]>
    (<["loading" := JBool true]> (Ssr.initialProductState E)).

(** The four dispatches of [initializeStores]. *)
Definition initCalls (E : Ssr.Env) : list Ssr.Call :=
  [ Ssr.CDispatchProduct (Ssr.SETUP (initialPayload E));
    Ssr.CDispatchCart Ssr.CLEAR_CART;
    Ssr.CDispatchUi Ssr.CLOSE_CART_MODAL;
    Ssr.CDispatchUi Ssr.HIDE_TOAST ].

(** The route [render] finds for a url. *)
Definition routeOf (E : Ssr.Env) (url : string) : Router.RouteMatch :=
  Router.findRoute (Ssr.cleanUrl E url) (Ssr.BASE_URL E).

(** The first statements of [render], up to and including
    [initializeStores()]. *)
Definition renderUntilInit (E : Ssr.Env) (url : string) (query : JsVal)
  : Ssr.M unit :=
  Ssr.log (Ssr.CFindRoute (Ssr.cleanUrl E url) (Ssr.BASE_URL E)) ;;
  Ssr.setServerRoute (Ssr.cleanUrl E url) query
                     (Router.params (routeOf E url)) ;;
  Ssr.initializeStores E.

(** The world in which [initializeStores()] returns. *)
Definition afterInit (E : Ssr.Env) (url : string) (query : JsVal)
    (w : Ssr.World) : Ssr.World :=
  snd (renderUntilInit E url (Js.default query (JObj [])) w).

(** The world in which the prefetch returns. *)
Definition afterPrefetch (E : Ssr.Env) (url : string) (query : JsVal)
    (w : Ssr.World) : Ssr.World :=
  snd (Ssr.prefetch E (routeOf E url) (Js.default query (JObj []))
         (afterInit E url query w)).

Definition isHttpCall (c : Ssr.Call) : bool :=
  match c with
  | Ssr.CGetProduct _ | Ssr.CGetProducts _ | Ssr.CGetCategories => true
  | _ => false
  end.

(** The calls of the prefetch step: HTTP requests, dispatches to the product
    store, and the log lines of its [catch] blocks. *)
Definition isPrefetchCall (c : Ssr.Call) : bool :=
  match c with
  | Ssr.CGetProduct _ | Ssr.CGetProducts _ | Ssr.CGetCategories => true
  | Ssr.CDispatchProduct (Ssr.SETUP _) => true
  | Ssr.CDispatchProduct (Ssr.SET_CURRENT_PRODUCT _) => true
  | Ssr.CDispatchProduct (Ssr.SET_RELATED_PRODUCTS _) => true
  | Ssr.CDispatchProduct (Ssr.SET_ERROR _) => true
  | Ssr.CConsoleError Ssr.ProductsPrefetchFailed _ => true
  | Ssr.CConsoleError Ssr.RelatedPrefetchFailed _ => true
  | Ssr.CConsoleError Ssr.DetailPrefetchFailed _ => true
  | _ => false
  end.

Definition isStoreDispatch (c : Ssr.Call) : bool :=
  match c with
  | Ssr.CDispatchProduct _ | Ssr.CDispatchCart _ | Ssr.CDispatchUi _ => true
  | _ => false
  end.

Definition isRouteMatch (c : Ssr.Call) : bool :=
  match c with
  | Ssr.CFindRoute _ _ => true
  | _ => false
  end.

(** [precedes p q cs]: some call satisfying [p] comes strictly before some
    call satisfying [q]. *)
Fixpoint precedes (p q : Ssr.Call -> bool) (cs : list Ssr.Call) : bool :=
  match cs with
  | [] => false
  | c :: cs' => (p c && existsb q cs') || precedes p q cs'
  end.

(** [p.productId !== id]. *)
Definition otherThan (id : string) (p : JsVal) : Prop :=
  ∃ v, Js.getProp p "productId" = Ok v ∧ v ≠ JStr id.

(** The query of the related-products request. *)
Definition relatedQuery (category2 : JsVal) : JsVal :=
  JObj [ ("category2", category2); ("limit", JNum 20); ("page", JNum 1) ].

(** The outcome of the inner [try] block of [prefetchProductDetail], read
    off the API results: the list it dispatches, or the error that reaches
    its [catch]. *)
Definition relatedAttempt (E : Ssr.Env) (productId : string)
    (category2 : JsVal) : Result (list JsVal) :=
  rbind (Ssr.getProducts E (relatedQuery category2)) (fun relatedResponse =>
  rbind (Js.getProp relatedResponse "products") (fun all =>
  Js.filter all (Ssr.isOtherProduct productId))).

(** The calls of the related-products part of [prefetchProductDetail], read
    off the API results. *)
Definition relatedCalls (E : Ssr.Env) (productId : string)
    (category2 : JsVal) : list Ssr.Call :=
  Ssr.CGetProducts (relatedQuery category2) ::
  match relatedAttempt E productId category2 with
  | Ok relatedProducts =>
      [Ssr.CDispatchProduct (Ssr.SET_RELATED_PRODUCTS relatedProducts)]
  | Throw e =>
      [Ssr.CConsoleError Ssr.RelatedPrefetchFailed e;
       Ssr.CDispatchProduct (Ssr.SET_RELATED_PRODUCTS [])]
  end.

(** The calls of [prefetchProductDetail], read off the API results. *)
Definition detailCalls (E : Ssr.Env) (productId : string) : list Ssr.Call :=
  Ssr.CGetProduct productId ::
  match Ssr.getProduct E productId with
  | Throw e =>
      [Ssr.CConsoleError Ssr.DetailPrefetchFailed e;
       Ssr.CDispatchProduct (Ssr.SET_ERROR (message e))]
  | Ok product =>
      Ssr.CDispatchProduct (Ssr.SET_CURRENT_PRODUCT product) ::
      match Js.getProp product "category2" with
      | Throw e =>
          [Ssr.CConsoleError Ssr.DetailPrefetchFailed e;
           Ssr.CDispatchProduct (Ssr.SET_ERROR (message e))]
      | Ok category2 =>
          if Js.truthy category2 then relatedCalls E productId category2
          else []
      end
  end.

(** The outcome of the [try] block of [prefetchProducts], read off the API
    results: the payload of its [SETUP], or the error that reaches its
    [catch]. *)
Definition productsAttempt (E : Ssr.Env) (query : JsVal)
  : Result (gmap string JsVal) :=
  rbind (Js.promiseAll (Ssr.categoriesRejectFirst E query)
           (Ssr.getProducts E query) (Ssr.getCategories E))
    (fun '(productsResponse, categories) =>
  rbind (Js.getProp productsResponse "products") (fun products =>
  rbind (Js.getProp productsResponse "pagination") (fun pagination =>
  rbind (Js.getProp pagination "total") (fun total =>
  Ok (list_to_map
        [ ("products", products);
          ("categories", categories);
          ("totalCount", total);
          ("loading", JBool false);
          ("status", JStr "done");
          ("error", JNull) ]))))).

(** The calls of [prefetchProducts], read off the API results. *)
Definition productsCalls (E : Ssr.Env) (query : JsVal) : list Ssr.Call :=
  Ssr.CGetProducts query :: Ssr.CGetCategories ::
  match productsAttempt E query with
  | Ok payload => [Ssr.CDispatchProduct (Ssr.SETUP payload)]
  | Throw e =>
      [Ssr.CConsoleError Ssr.ProductsPrefetchFailed e;
       Ssr.CDispatchProduct (Ssr.SET_ERROR (message e))]
  end.

(** The calls of the prefetch step of [render]. *)
Definition prefetchCalls (E : Ssr.Env) (route : Router.RouteMatch)
    (query : JsVal) : list Ssr.Call :=
  match Ssr.truthyId (Router.params route) with
  | Some id => detailCalls E id
  | None => productsCalls E (Js.default query (JObj []))
  end.

(** The statements of [render] after [initializeStores()]. *)
Definition renderAfterInit (E : Ssr.Env) (url : string) (query : JsVal)
  : Ssr.M JsVal :=
  Ssr.tryCatch
    (Ssr.prefetch E (routeOf E url) (Js.default query (JObj [])) ;;
     html ← Ssr.runPage E (Router.handler (routeOf E url)) ;
     mret (Js.or html (JStr "")))
    (fun error =>
       Ssr.consoleError Ssr.SsrRenderError error ;;
       Ssr.runPage E NotFoundPage).

(** The fixed text of the server template: before the style sheet link,
    between the link and the root element, and after the module script. *)
Definition templateBefore : string :=
  JsString.lines
    [ "<!DOCTYPE html>";
      "<html lang=" +:+ JsString.quoted "ko" +:+ ">";
      "  <head>";
      "    <meta charset=" +:+ JsString.quoted "UTF-8" +:+ " />";
      "    <meta name=" +:+ JsString.quoted "viewport" +:+ " content="
        +:+ JsString.quoted "width=device-width, initial-scale=1.0"
        +:+ " />";
      "    <script src=" +:+ JsString.quoted "https://cdn.tailwindcss.com"
        +:+ "></script>";
      "    " ].

Definition templateMiddle : string :=
  JsString.lines
    [ "";
      "    <script>";
      "      tailwind.config = {";
      "        theme: {";
      "          extend: {";
      "            colors: {";
      "              primary: '#3b82f6',";
      "              secondary: '#6b7280'";
      "            }";
      "          }";
      "        }";
      "      }";
      "    </script>";
      "  </head>";
      "  <body class=" +:+ JsString.quoted "bg-gray-50" +:+ ">";
      "    " ].

Definition templateAfter : string :=
  JsString.lines [ ""; "  </body>"; "</html>" ].

(** The document the server sends for a page body and two asset paths. *)
Definition document (body cssPath jsPath : string) : string :=
  templateBefore
  +:+ "<link rel=" +:+ JsString.quoted "stylesheet" +:+ " href="
  +:+ JsString.quoted cssPath +:+ ">"
  +:+ templateMiddle
  +:+ "<div id=" +:+ JsString.quoted "root" +:+ ">" +:+ body +:+ "</div>"
  +:+ String "010" "    <script type=" +:+ JsString.quoted "module" +:+ " src="
  +:+ JsString.quoted jsPath +:+ "></script>"
  +:+ templateAfter.

(** The url the middleware passes to [render]. *)
Definition requestUrl (env : Server.ProcessEnv) (req : Server.Request)
  : string :=
  JsString.orElse
    (JsString.replace (Server.originalUrl req) (Server.base env) "/") "/".

(** A computation that leaves the cart store, the UI store and the router
    as they are. *)
Definition Frames {A} (m : Ssr.M A) : Prop :=
  ∀ w, Ssr.cartStore (m w).2 = Ssr.cartStore w ∧
       Ssr.uiStore (m w).2 = Ssr.uiStore w ∧
       Ssr.router (m w).2 = Ssr.router w.

(** The payload of the [SETUP] action of [prefetchProducts]. *)
Definition productsPayload (products categories total : JsVal)
  : gmap string JsVal :=
  list_to_map
    [ ("products", products);
      ("categories", categories);
      ("totalCount", total);
      ("loading", JBool false);
      ("status", JStr "done");
      ("error", JNull) ].

(** A disk on which the client build has left no [index.html]. *)
Definition diskWithoutTemplate : Fs.Fs :=
  Fs.mkFs
    (list_to_map
       [ ("/repo/packages/vanilla/dist/vanilla-ssr/main-server.js", "");
         ("/repo/packages/vanilla/src/mocks/items.json", "[]") ])
    (list_to_set ["/repo/dist/vanilla"; "/repo/dist"; "/repo"; "/"]).

(** [replaceAt path v n]: the tree [n] with the node at [path] replaced by
    [v] (and [n] itself when there is no such node). *)
Fixpoint replaceAt (path : list string) (v n : Deploy.Node) : Deploy.Node :=
  match path with
  | [] => v
  | name :: path' =>
      match n with
      | Deploy.Dir es =>
          match es !! name with
          | Some child =>
              Deploy.Dir (<[name := replaceAt path' v child]> es)
          | None => n
          end
      | Deploy.File _ => n
      end
  end.

(** The number of directory levels of a tree. *)
Fixpoint height (n : Deploy.Node) : nat :=
  match n with
  | Deploy.File _ => 0
  | Deploy.Dir es =>
      S (map_fold (fun _ child acc => Nat.max (height child) acc) 0 es)
  end.

(** The number of files of a tree. *)
Fixpoint fileCount (n : Deploy.Node) : nat :=
  match n with
  | Deploy.File _ => 1
  | Deploy.Dir es => map_fold (fun _ child acc => fileCount child + acc) 0 es
  end.

(** Two paths that part at some name: neither leads into the other. *)
Fixpoint diverge (p q : list string) : Prop :=
  match p, q with
  | a :: p', b :: q' => a ≠ b ∨ (a = b ∧ diverge p' q')
  | _, _ => False
  end.

(** Every directory on the way to [path] is there or can be made: no file
    stands where a directory is needed. *)
Fixpoint clearWay (path : list string) (n : Deploy.Node) : Prop :=
  match n with
  | Deploy.File _ => False
  | Deploy.Dir es =>
      match path with
      | [] => True
      | name :: path' =>
          match es !! name with
          | Some child => clearWay path' child
          | None => True
          end
      end
  end.

(** A listing order that neither drops nor repeats an entry. *)
Definition arranges (order : Deploy.Listing) : Prop :=
  ∀ entries, order entries ≡ₚ entries.

(** * Properties *)

(** ** The definitions on concrete inputs *)

Example replace_first_only :
  JsString.replace "a-b-c" "-" "+" = "a+b-c".
Proof. reflexivity. Qed.

Example replace_dollar_patterns :
  JsString.replace "<x>" "x" "[$$|$&|$`|$'|$1]" = "<[$|x|<|>|$1]>".
Proof. reflexivity. Qed.

Example replace_empty_pattern : JsString.replace "/p" "" "" = "/p".
Proof. reflexivity. Qed.

Example strip_examples :
  JsString.stripTrailingSlash "/a//" = "/a/" /\
  JsString.stripTrailingSlash "/" = "" /\
  JsString.stripTrailingSlash "/a" = "/a".
Proof. repeat split; reflexivity. Qed.

Example toString_examples :
  Js.toString JUndefined = "undefined" /\
  Js.toString (JNum (-20)) = "-20" /\
  Js.toString (JArr [JStr "a"; JNull; JNum 3]) = "a,,3".
Proof. repeat split; vm_compute; reflexivity. Qed.

Example findRoute_home :
  Router.findRoute "/" "" = Router.mkMatch HomePage ∅.
Proof. vm_compute. reflexivity. Qed.

Example findRoute_detail_query :
  Router.findRoute "/product/85067212996?x=1" ""
  = Router.mkMatch ProductDetailPage {[ "id" := "85067212996" ]}.
Proof. vm_compute. reflexivity. Qed.

Example compile_detail :
  Router.compile None "/product/:id"
  = [Router.TLit "/"; Router.TLit "p"; Router.TLit "r"; Router.TLit "o";
     Router.TLit "d"; Router.TLit "u"; Router.TLit "c"; Router.TLit "t";
     Router.TLit "/"; Router.TGroup "id"].
Proof. reflexivity. Qed.

Example trim_example :
  JsString.trim (String "010" "  <p> a </p> " +:+ String "010" " ")
  = "<p> a </p>".
Proof. reflexivity. Qed.

Example join_examples :
  Path.joinStrings ["/repo/packages/vanilla"; "../../dist/vanilla"]
  = "/repo/dist/vanilla" /\
  Path.joinStrings ["/repo/packages/vanilla"; "../../dist/vanilla/index.html"]
  = Path.joinStrings ["/repo/dist/vanilla"; "index.html"] /\
  Path.dirname "/repo/dist/vanilla/product/1/index.html"
  = "/repo/dist/vanilla/product/1".
Proof. repeat split; vm_compute; reflexivity. Qed.

(** ** Strings *)

Section StringFacts.

Implicit Types s t p r : string.

Lemma app_cons a s t : String a s +:+ t = String a (s +:+ t).
Proof. reflexivity. Qed.

Lemma app_empty_r s : s +:+ "" = s.
Proof. induction s as [|a s IH]; [done|]. by rewrite app_cons, IH. Qed.

Lemma app_app_assoc s t r : (s +:+ t) +:+ r = s +:+ (t +:+ r).
Proof. induction s as [|a s IH]; [done|]. by rewrite !app_cons, IH. Qed.

Lemma length_app s t :
  String.length (s +:+ t) = String.length s + String.length t.
Proof. induction s as [|a s IH]; [done|]. rewrite app_cons. simpl. lia. Qed.

Lemma dropPrefix_app p r : JsString.dropPrefix p (p +:+ r) = Some r.
Proof.
  induction p as [|a p IH]; [by destruct r|].
  rewrite app_cons. simpl. by rewrite Ascii.eqb_refl.
Qed.

Lemma dropPrefix_Some p s r :
  JsString.dropPrefix p s = Some r -> s = p +:+ r.
Proof.
  revert s. induction p as [|a p IH]; intros s H.
  - destruct s; simpl in H; by simplify_eq.
  - destruct s as [|b s]; simpl in H; [done|].
    destruct (Ascii.eqb_spec a b) as [->|]; [|done].
    rewrite app_cons. f_equal. by apply IH.
Qed.

Lemma dropPrefix_empty s : JsString.dropPrefix "" s = Some s.
Proof. by destruct s. Qed.

(** A prefix found in [s] is still found when text is appended to [s]. *)
Lemma dropPrefix_app_r p s r t :
  JsString.dropPrefix p s = Some r ->
  JsString.dropPrefix p (s +:+ t) = Some (r +:+ t).
Proof.
  intros H. apply dropPrefix_Some in H as ->.
  by rewrite app_app_assoc, dropPrefix_app.
Qed.

(** A prefix that appears only once text is appended is longer than [s]. *)
Lemma dropPrefix_new p s r t :
  JsString.dropPrefix p s = None ->
  JsString.dropPrefix p (s +:+ t) = Some r ->
  String.length s < String.length p.
Proof.
  revert s. induction p as [|a p IH]; intros s Hn Hs.
  - by rewrite dropPrefix_empty in Hn.
  - destruct s as [|b s]; [simpl; lia|].
    rewrite app_cons in Hs. simpl in Hn, Hs.
    destruct (Ascii.eqb a b); [|done].
    specialize (IH s Hn Hs). simpl. lia.
Qed.

Lemma splitFirst_Some pat s b a :
  JsString.splitFirst pat s = Some (b, a) -> s = b +:+ pat +:+ a.
Proof.
  revert b. induction s as [|c s IH]; intros b H.
  - simpl in H. destruct (JsString.dropPrefix pat "") eqn:Hd; [|done].
    simplify_eq. by apply dropPrefix_Some in Hd.
  - simpl in H. destruct (JsString.dropPrefix pat (String c s)) eqn:Hd.
    + simplify_eq. by apply dropPrefix_Some in Hd.
    + destruct (JsString.splitFirst pat s) as [[b' a']|] eqn:Hs; [|done].
      simplify_eq. rewrite app_cons. f_equal. by apply IH.
Qed.

Lemma splitFirst_length pat s b a :
  JsString.splitFirst pat s = Some (b, a) ->
  String.length pat <= String.length s.
Proof.
  intros H. apply splitFirst_Some in H as ->. rewrite !length_app. lia.
Qed.

Lemma splitFirst_empty_pat s : JsString.splitFirst "" s = Some ("", s).
Proof. by destruct s. Qed.

(** The first occurrence stays the first when text is appended. *)
Lemma splitFirst_app_r pat s b a t :
  JsString.splitFirst pat s = Some (b, a) ->
  JsString.splitFirst pat (s +:+ t) = Some (b, a +:+ t).
Proof.
  revert b. induction s as [|c s IH]; intros b H.
  - destruct pat as [|x pat]; [|done].
    simpl in H. simplify_eq. apply splitFirst_empty_pat.
  - simpl in H. rewrite app_cons.
    destruct (JsString.dropPrefix pat (String c s)) as [r|] eqn:Hd.
    + simplify_eq.
      pose proof (dropPrefix_app_r _ _ _ t Hd) as Hd'.
      rewrite app_cons in Hd'. simpl. simpl in Hd'. by rewrite Hd'.
    + destruct (JsString.splitFirst pat s) as [[b' a']|] eqn:Hs; [|done].
      simplify_eq.
      assert (JsString.dropPrefix pat (String c (s +:+ t)) = None) as Hn.
      { destruct (JsString.dropPrefix pat (String c (s +:+ t))) eqn:Hd2;
          [|done].
        rewrite <- app_cons in Hd2.
        pose proof (dropPrefix_new _ _ _ _ Hd Hd2) as Hlt.
        pose proof (splitFirst_length _ _ _ _ Hs) as Hle.
        simpl in Hlt. lia. }
      cbn [JsString.splitFirst]. rewrite Hn. by rewrite (IH _ eq_refl).
Qed.

(** Without a [$] the replacement text is inserted as it is. *)
Lemma getSubstitution_plain m b a repl :
  JsString.lacks "$" repl = true ->
  JsString.getSubstitution m b a repl = repl.
Proof.
  induction repl as [|c repl IH]; [done|].
  cbn [JsString.lacks JsString.getSubstitution]. intros H.
  apply andb_prop in H as [Hc Hr].
  rewrite Ascii.eqb_sym in Hc.
  destruct (Ascii.eqb c "$"); [done|]. by rewrite IH.
Qed.

Lemma replace_found s pat repl b a :
  JsString.splitFirst pat s = Some (b, a) ->
  JsString.lacks "$" repl = true ->
  JsString.replace s pat repl = b +:+ repl +:+ a.
Proof.
  intros H Hr. unfold JsString.replace. rewrite H.
  by rewrite getSubstitution_plain.
Qed.

Lemma replace_absent s pat repl :
  JsString.splitFirst pat s = None -> JsString.replace s pat repl = s.
Proof. intros H. unfold JsString.replace. by rewrite H. Qed.

Lemma replace_empty_pat s : JsString.replace s "" "" = s.
Proof. unfold JsString.replace. by rewrite splitFirst_empty_pat. Qed.

Lemma strip_app_slash s : JsString.stripTrailingSlash (s +:+ "/") = s.
Proof.
  induction s as [|c s IH]; [done|].
  rewrite app_cons. simpl. rewrite IH.
  destruct s; done.
Qed.

Lemma strip_no_slash s :
  JsString.endsWithSlash s = false -> JsString.stripTrailingSlash s = s.
Proof.
  induction s as [|c s IH]; [done|]. simpl.
  destruct s as [|d s].
  - intros ->. done.
  - intros H. by rewrite IH.
Qed.

End StringFacts.

(** ** Routing *)

Section RouterFacts.

Implicit Types s u q b : string.

Lemma compile_home : Router.compile None "/" = literals "/".
Proof. reflexivity. Qed.

Lemma compile_product :
  Router.compile None "/product/:id"
  = literals "/product/" ++ [Router.TGroup "id"].
Proof. reflexivity. Qed.

(** Literal tokens consume exactly their text. *)
Lemma matchToks_literals l ts s :
  Router.matchToks (literals l ++ ts) s
  = match JsString.dropPrefix l s with
    | Some r => Router.matchToks ts r
    | None => None
    end.
Proof.
  revert s. induction l as [|c l IH]; intros s.
  - by rewrite dropPrefix_empty.
  - destruct s as [|d s]; [done|].
    cbn [literals app Router.matchToks JsString.dropPrefix].
    destruct (Ascii.eqb c d); [apply IH|done].
Qed.

(** The group at the end of the expression takes the whole rest, which has
    to be non-empty and free of [/]. *)
Lemma group_end s :
  Router.group (Router.matchToks []) s
  = match s with
    | EmptyString => None
    | String _ _ => if JsString.lacks "/" s then Some [s] else None
    end.
Proof.
  induction s as [|c s IH]; [done|].
  cbn [Router.group JsString.lacks]. rewrite IH. clear IH.
  rewrite (Ascii.eqb_sym "/" c).
  destruct (Ascii.eqb c "/"); [done|].
  destruct s as [|d s]; [done|].
  cbn [negb andb]. destruct (JsString.lacks "/" (String d s)); done.
Qed.

Lemma matchToks_end s :
  Router.matchToks [] s = match s with EmptyString => Some [] | _ => None end.
Proof. reflexivity. Qed.

Lemma firstMatch_routes path :
  Router.firstMatch Router.routes path
  = match JsString.dropPrefix "/" path with
    | Some EmptyString => Router.mkMatch HomePage ∅
    | _ =>
        match JsString.dropPrefix "/product/" path with
        | Some (String c id) =>
            if JsString.lacks "/" (String c id)
            then Router.mkMatch ProductDetailPage {[ "id" := String c id ]}
            else Router.mkMatch NotFoundPage ∅
        | _ => Router.mkMatch NotFoundPage ∅
        end
    end.
Proof.
  unfold Router.routes. cbn [Router.firstMatch Router.pattern Router.handlerOf].
  rewrite compile_home, compile_product.
  rewrite <- (app_nil_r (literals "/")) at 1.
  rewrite !matchToks_literals.
  assert (forall r, Router.matchToks [] r
            = match r with EmptyString => Some [] | _ => None end) as Hend
    by done.
  assert (Router.matchToks [Router.TGroup "id"]
          = Router.group (Router.matchToks [])) as -> by done.
  destruct (JsString.dropPrefix "/" path) as [[|x r]|] eqn:H1.
  - done.
  - rewrite Hend.
    destruct (JsString.dropPrefix "/product/" path) as [[|c id]|]; [done| |done].
    rewrite group_end.
    destruct (JsString.lacks "/" (String c id)); [|done].
    f_equal.
  - destruct (JsString.dropPrefix "/product/" path) as [[|c id]|]; [done| |done].
    rewrite group_end.
    destruct (JsString.lacks "/" (String c id)); [|done].
    f_equal.
Qed.

End RouterFacts.

Section FindRoute.

Implicit Types u q b id path : string.

Lemma findRoute_firstMatch u b :
  Router.findRoute u b = Router.firstMatch Router.routes (Router.cleanPath u b).
Proof. reflexivity. Qed.

Lemma findRoute_home_path u b :
  Router.cleanPath u b = "/" →
  Router.findRoute u b = Router.mkMatch HomePage ∅.
Proof. intros H. by rewrite findRoute_firstMatch, firstMatch_routes, H. Qed.

(** C4, the claim as worded fails at a path with a trailing slash:
    [/product/abc/] is neither [/] nor [/product/<id>] for an [<id>]
    without [/], and yet it is routed to [ProductDetailPage], with
    [params.id = "abc"], not to [NotFoundPage]. *)
Lemma findRoute_trailing_slash_is_detail :
  "/product/abc/" ≠ "/" ∧
  (∀ id, JsString.lacks "/" id = true → "/product/abc/" ≠ "/product/" +:+ id) ∧
  Router.findRoute "/product/abc/" ""
  = Router.mkMatch ProductDetailPage {[ "id" := "abc" ]} ∧
  Router.findRoute "/product/abc/" "" ≠ Router.mkMatch NotFoundPage ∅.
Proof.
  split; [done|]. split; [|split].
  - intros id Hid Heq.
    assert (id = "abc/") as -> by (by apply (inj (String.app "/product/"))).
    done.
  - vm_compute. reflexivity.
  - intros H. apply (f_equal Router.handler) in H. vm_compute in H. done.
Qed.

(** C4 (amended): [findRoute] routes the normalized path [cleanPath url
    baseUrl] (query string, first occurrence of [baseUrl] and one trailing
    slash removed, the empty path read as [/]): [/] goes to [HomePage] with
    empty params, [/product/<id>] for a non-empty [<id>] without [/] goes to
    [ProductDetailPage] with [params.id = <id>], and every other normalized
    path goes to [NotFoundPage] with empty params. *)
Theorem findRoute_table u b :
  let path := Router.cleanPath u b in
  (path = "/" → Router.findRoute u b = Router.mkMatch HomePage ∅) ∧
  (∀ id, id ≠ "" → JsString.lacks "/" id = true →
         path = "/product/" +:+ id →
         Router.findRoute u b
         = Router.mkMatch ProductDetailPage {[ "id" := id ]}) ∧
  (path ≠ "/" →
   (∀ id, id ≠ "" → JsString.lacks "/" id = true →
          path ≠ "/product/" +:+ id) →
   Router.findRoute u b = Router.mkMatch NotFoundPage ∅).
Proof.
  intros path. rewrite findRoute_firstMatch, firstMatch_routes. fold path.
  split; [|split].
  - intros ->. done.
  - intros id Hne Hid ->.
    assert (JsString.dropPrefix "/" ("/product/" +:+ id)
            = Some ("product/" +:+ id)) as -> by done.
    rewrite dropPrefix_app.
    destruct id as [|c id]; [done|]. by rewrite Hid.
  - intros Hhome Hdetail.
    destruct (JsString.dropPrefix "/" path) as [[|x r]|] eqn:H1.
    + apply dropPrefix_Some in H1. by destruct Hhome.
    + destruct (JsString.dropPrefix "/product/" path) as [[|c id]|] eqn:H2;
        [done| |done].
      destruct (JsString.lacks "/" (String c id)) eqn:Hl; [|done].
      apply dropPrefix_Some in H2. by destruct (Hdetail (String c id)).
    + destruct (JsString.dropPrefix "/product/" path) as [[|c id]|] eqn:H2;
        [done| |done].
      destruct (JsString.lacks "/" (String c id)) eqn:Hl; [|done].
      apply dropPrefix_Some in H2. by destruct (Hdetail (String c id)).
Qed.

Lemma findRoute_table_witness :
  Router.findRoute "/shop/product/42/?utm=1" "/shop"
  = Router.mkMatch ProductDetailPage {[ "id" := "42" ]}.
Proof.
  apply (proj1 (proj2 (findRoute_table "/shop/product/42/?utm=1" "/shop")) "42").
  - done.
  - reflexivity.
  - vm_compute. reflexivity.
Defined.

(** *** Normalization of the url *)

Lemma splitFirst_char_absent_app c s t :
  JsString.splitFirst (String c "") s = None →
  JsString.splitFirst (String c "") (s +:+ String c t) = Some (s, t).
Proof.
  induction s as [|d s IH]; intros H.
  - change ("" +:+ String c t) with (String c t).
    cbn [JsString.splitFirst JsString.dropPrefix].
    by rewrite Ascii.eqb_refl, ?dropPrefix_empty.
  - rewrite app_cons. cbn [JsString.splitFirst JsString.dropPrefix] in *.
    destruct (Ascii.eqb c d).
    + by rewrite ?dropPrefix_empty in H.
    + destruct (JsString.splitFirst (String c "") s) as [[x y]|] eqn:Hs;
        [done|].
      by rewrite (IH eq_refl).
Qed.

Lemma splitFirst_char_absent_other c e s :
  Ascii.eqb c e = false →
  JsString.splitFirst (String c "") s = None →
  JsString.splitFirst (String c "") (s +:+ String e "") = None.
Proof.
  intros Hce. induction s as [|d s IH]; intros H.
  - change ("" +:+ String e "") with (String e "").
    cbn [JsString.splitFirst JsString.dropPrefix]. by rewrite Hce.
  - rewrite app_cons. cbn [JsString.splitFirst JsString.dropPrefix] in *.
    destruct (Ascii.eqb c d).
    + by rewrite ?dropPrefix_empty in H.
    + destruct (JsString.splitFirst (String c "") s) as [[x y]|] eqn:Hs;
        [done|].
      by rewrite (IH eq_refl).
Qed.

(** The query string does not reach the path. *)
Lemma splitHead_query u q :
  JsString.splitHead "?" (u +:+ "?" +:+ q) = JsString.splitHead "?" u.
Proof.
  unfold JsString.splitHead. change ("?" +:+ q) with (String "?" q).
  destruct (JsString.splitFirst "?" u) as [[x y]|] eqn:H.
  - by rewrite (splitFirst_app_r _ _ _ _ _ H).
  - by rewrite (splitFirst_char_absent_app _ _ _ H).
Qed.

Lemma orElse_strip_slash r :
  JsString.endsWithSlash r = false →
  JsString.stripTrailingSlash (r +:+ "/") = JsString.stripTrailingSlash r.
Proof. intros H. by rewrite strip_app_slash, strip_no_slash. Qed.

Lemma cleanPath_slash u b :
  JsString.endsWithSlash u = false →
  JsString.includes u "?" = true ∨
  (JsString.replace (u +:+ "/") b "" = JsString.replace u b "" +:+ "/" ∧
   JsString.endsWithSlash (JsString.replace u b "") = false) →
  Router.cleanPath (u +:+ "/") b = Router.cleanPath u b.
Proof.
  intros Hu Hcond. unfold Router.cleanPath, JsString.splitHead.
  unfold JsString.includes in Hcond.
  destruct (JsString.splitFirst "?" u) as [[x y]|] eqn:H.
  - by rewrite (splitFirst_app_r _ _ _ _ _ H).
  - destruct Hcond as [|[Hr He]]; [done|].
    change (u +:+ "/") with (u +:+ String "/" "") in *.
    rewrite (splitFirst_char_absent_other "?" "/" u eq_refl H).
    by rewrite Hr, orElse_strip_slash.
Qed.

(** C9, the claim as worded fails for a base url that ends in [/]: with
    [b = "/app/"], the url [/app] does not end in [/], [findRoute("/app/", b)]
    is the home page and [findRoute("/app", b)] is the not-found page. *)
Lemma findRoute_slash_completes_base :
  JsString.endsWithSlash "/app" = false ∧
  Router.findRoute ("/app" +:+ "/") "/app/" = Router.mkMatch HomePage ∅ ∧
  Router.findRoute "/app" "/app/" = Router.mkMatch NotFoundPage ∅ ∧
  Router.findRoute ("/app" +:+ "/") "/app/" ≠ Router.findRoute "/app" "/app/".
Proof.
  split; [done|]. split; [by vm_compute|]. split; [by vm_compute|].
  intros H. apply (f_equal Router.handler) in H. vm_compute in H. done.
Qed.

(** C9 (amended): [findRoute] normalizes its url argument.  For every [u],
    [q] and [b], [findRoute(u + "?" + q, b) = findRoute(u, b)].  For every
    [u] not ending in [/], [findRoute(u + "/", b) = findRoute(u, b)]
    whenever [u] has a query string, or removing [b] from [u + "/"] gives
    what removing [b] from [u] gives, followed by [/], and that does not end
    in [/]; in particular for the default [b = ""].  And a path that is
    empty after stripping is treated as [/]. *)
Theorem findRoute_normalizes :
  (∀ u q b, Router.findRoute (u +:+ "?" +:+ q) b = Router.findRoute u b) ∧
  (∀ u b,
     JsString.endsWithSlash u = false →
     JsString.includes u "?" = true ∨
     (JsString.replace (u +:+ "/") b "" = JsString.replace u b "" +:+ "/" ∧
      JsString.endsWithSlash (JsString.replace u b "") = false) →
     Router.findRoute (u +:+ "/") b = Router.findRoute u b) ∧
  (∀ u, JsString.endsWithSlash u = false →
        Router.findRoute (u +:+ "/") "" = Router.findRoute u "") ∧
  (∀ u b,
     JsString.stripTrailingSlash
       (JsString.replace (JsString.splitHead "?" u) b "") = "" →
     Router.cleanPath u b = "/" ∧
     Router.findRoute u b = Router.mkMatch HomePage ∅).
Proof.
  split; [|split; [|split]].
  - intros u q b. unfold Router.findRoute, Router.cleanPath.
    by rewrite splitHead_query.
  - intros u b Hu Hcond. unfold Router.findRoute.
    by rewrite cleanPath_slash.
  - intros u Hu. unfold Router.findRoute.
    rewrite cleanPath_slash; [done|done|].
    right. by rewrite !replace_empty_pat.
  - intros u b H.
    assert (Router.cleanPath u b = "/") as Hp
      by (unfold Router.cleanPath; by rewrite H).
    split; [done|]. by apply findRoute_home_path.
Qed.

Lemma findRoute_normalizes_witness :
  Router.findRoute ("/shop/product/42" +:+ "/") "/shop"
  = Router.findRoute "/shop/product/42" "/shop" ∧
  Router.findRoute ("/product/42" +:+ "/") "" = Router.findRoute "/product/42" "" ∧
  Router.findRoute "/shop/?page=2" "/shop" = Router.mkMatch HomePage ∅.
Proof.
  split; [|split].
  - apply (proj1 (proj2 findRoute_normalizes) "/shop/product/42" "/shop").
    + reflexivity.
    + right. split; reflexivity.
  - apply (proj1 (proj2 (proj2 findRoute_normalizes)) "/product/42").
    reflexivity.
  - apply (proj2 (proj2 (proj2 findRoute_normalizes)) "/shop/?page=2" "/shop").
    reflexivity.
Defined.

End FindRoute.

(** ** The SSR pipeline *)

Section RenderFacts.

Context (E : Ssr.Env).

Implicit Types (w : Ssr.World) (url : string) (query : JsVal).

Lemma bind_run {A B} (m : Ssr.M A) (f : A → Ssr.M B) w :
  (m ≫= f) w
  = match m w with
    | (Ok a, w') => f a w'
    | (Throw e, w') => (Throw e, w')
    end.
Proof. reflexivity. Qed.

Lemma bind_lift {A B} (r : Result A) (f : A → Ssr.M B) w :
  (Ssr.lift r ≫= f) w
  = match r with Ok a => f a w | Throw e => (Throw e, w) end.
Proof. by destruct r. Qed.

Lemma bind_log {B} c (f : unit → Ssr.M B) w :
  (Ssr.log c ≫= f) w = f tt (logged [c] w).
Proof. reflexivity. Qed.

Lemma logged_logged cs cs' w : logged cs' (logged cs w) = logged (cs ++ cs') w.
Proof. unfold logged. simpl. by rewrite <- app_assoc. Qed.

Lemma calls_logged cs w : Ssr.calls (logged cs w) = Ssr.calls w ++ cs.
Proof. reflexivity. Qed.

Lemma calls_dispatchProduct a w :
  Ssr.dispatchProduct E a w
  = (Ok tt, Ssr.mkWorld (Ssr.productReducer E (Ssr.productStore w) a)
                        (Ssr.cartStore w) (Ssr.uiStore w) (Ssr.router w)
                        (Ssr.calls w ++ [Ssr.CDispatchProduct a])).
Proof. reflexivity. Qed.

(** *** The prefetch step *)

(** [prefetchProducts] never throws, and logs exactly [productsCalls]. *)
Lemma prefetchProducts_run query w :
  ∃ w',
    Ssr.prefetchProducts E query w = (Ok tt, w') ∧
    Ssr.calls w'
    = Ssr.calls w ++ productsCalls E (Js.default query (JObj [])).
Proof.
  unfold Ssr.prefetchProducts, productsCalls, productsAttempt, Ssr.tryCatch.
  rewrite !bind_log, !logged_logged.
  rewrite bind_lift. destruct (Js.promiseAll _ _ _) as [[resp cats]|e].
  2:{ eexists. split; [reflexivity|]. simpl. by rewrite <- !app_assoc. }
  rewrite bind_lift. cbn [rbind].
  destruct (Js.getProp resp "products") as [ps|e].
  2:{ eexists. split; [reflexivity|]. simpl. by rewrite <- !app_assoc. }
  rewrite bind_lift. cbn [rbind].
  destruct (Js.getProp resp "pagination") as [pg|e].
  2:{ eexists. split; [reflexivity|]. simpl. by rewrite <- !app_assoc. }
  rewrite bind_lift. cbn [rbind].
  destruct (Js.getProp pg "total") as [total|e].
  2:{ eexists. split; [reflexivity|]. simpl. by rewrite <- !app_assoc. }
  rewrite calls_dispatchProduct.
  eexists. split; [reflexivity|].
  cbn [Ssr.calls rbind]. rewrite calls_logged, <- !app_assoc. reflexivity.
Qed.

(** [filter] keeps only products whose id is not the given one. *)
Lemma filterM_other id all l :
  Js.filterM (Ssr.isOtherProduct id) all = Ok l → Forall (otherThan id) l.
Proof.
  revert l. induction all as [|p all IH]; intros l H.
  - simpl in H. simplify_eq. constructor.
  - simpl in H. unfold Ssr.isOtherProduct at 1 in H.
    destruct (Js.getProp p "productId") as [v|e] eqn:Hp; [|done].
    simpl in H.
    destruct (Js.filterM (Ssr.isOtherProduct id) all) as [rest|e];
      [|done].
    simpl in H. simplify_eq.
    destruct (Js.strictEqStr v id) eqn:Hv; simpl.
    + by apply IH.
    + constructor; [|by apply IH].
      exists v. split; [done|]. intros ->. simpl in Hv.
      by rewrite String.eqb_refl in Hv.
Qed.

Lemma filter_other id all l :
  Js.filter all (Ssr.isOtherProduct id) = Ok l → Forall (otherThan id) l.
Proof. destruct all; try done. apply filterM_other. Qed.

(** [prefetchProductDetail] never throws, and logs exactly [detailCalls]. *)
Lemma prefetchProductDetail_run id w :
  ∃ w',
    Ssr.prefetchProductDetail E id w = (Ok tt, w') ∧
    Ssr.calls w' = Ssr.calls w ++ detailCalls E id.
Proof.
  unfold Ssr.prefetchProductDetail, detailCalls, Ssr.tryCatch at 1.
  rewrite bind_log, bind_lift.
  destruct (Ssr.getProduct E id) as [product|e].
  2:{ eexists. split; [reflexivity|]. simpl. by rewrite <- !app_assoc. }
  rewrite bind_run, calls_dispatchProduct. rewrite bind_lift.
  destruct (Js.getProp product "category2") as [c2|e].
  2:{ eexists. split; [reflexivity|]. simpl. by rewrite <- !app_assoc. }
  destruct (Js.truthy c2).
  2:{ eexists. split; [reflexivity|]. simpl. by rewrite <- !app_assoc. }
  unfold relatedCalls, relatedAttempt, relatedQuery, Ssr.tryCatch.
  rewrite bind_run. cbn [Ssr.log]. rewrite bind_lift.
  destruct (Ssr.getProducts E _) as [resp|e].
  2:{ eexists. split; [reflexivity|]. simpl. by rewrite <- !app_assoc. }
  rewrite bind_lift. cbn [rbind].
  destruct (Js.getProp resp "products") as [all|e].
  2:{ eexists. split; [reflexivity|]. simpl. by rewrite <- !app_assoc. }
  rewrite bind_lift. cbn [rbind].
  destruct (Js.filter all (Ssr.isOtherProduct id)) as [l|e].
  2:{ eexists. split; [reflexivity|]. simpl. by rewrite <- !app_assoc. }
  eexists. split; [reflexivity|]. simpl. by rewrite <- !app_assoc.
Qed.

Lemma prefetch_run route query w :
  ∃ w',
    Ssr.prefetch E route query w = (Ok tt, w') ∧
    Ssr.calls w' = Ssr.calls w ++ prefetchCalls E route query.
Proof.
  unfold Ssr.prefetch, prefetchCalls.
  destruct (Ssr.truthyId (Router.params route)) as [id|].
  - apply prefetchProductDetail_run.
  - destruct (prefetchProducts_run query w) as (w' & H1 & H2).
    exists w'. split; [done|]. rewrite H2.
    by destruct query.
Qed.

Lemma prefetchCalls_kind route query :
  forallb isPrefetchCall (prefetchCalls E route query) = true.
Proof.
  unfold prefetchCalls, detailCalls, relatedCalls, productsCalls.
  repeat case_match; reflexivity.
Qed.

Lemma prefetchCalls_http_first route query :
  ∃ c rest, prefetchCalls E route query = c :: rest ∧ isHttpCall c = true.
Proof.
  unfold prefetchCalls, detailCalls, productsCalls.
  case_match; eexists _, _; split; reflexivity.
Qed.

(** *** The render function, step by step *)

Lemma afterInit_calls url query w :
  Ssr.calls (afterInit E url query w)
  = Ssr.calls w
    ++ [ Ssr.CFindRoute (Ssr.cleanUrl E url) (Ssr.BASE_URL E);
         Ssr.CSetServerRoute
           (Ssr.mkServerRoute (Ssr.cleanUrl E url)
              (Js.default query (JObj []))
              (Router.params (routeOf E url))) ]
    ++ initCalls E.
Proof.
  unfold afterInit, renderUntilInit, Ssr.initializeStores, initCalls.
  generalize (Router.params (routeOf E url)), (Ssr.cleanUrl E url).
  intros params cu. unfold mbind, Ssr.M_bind.
  cbn -[insert union]. rewrite <- ?app_assoc. reflexivity.
Qed.

Lemma afterPrefetch_calls url query w :
  Ssr.calls (afterPrefetch E url query w)
  = Ssr.calls (afterInit E url query w)
    ++ prefetchCalls E (routeOf E url) (Js.default query (JObj [])).
Proof.
  unfold afterPrefetch.
  destruct (prefetch_run (routeOf E url) (Js.default query (JObj []))
              (afterInit E url query w)) as (w' & H1 & H2).
  by rewrite H1.
Qed.

(** [render] is its first statements, the prefetch, and the call of the
    page, with the fallback when the page throws. *)
Lemma render_run url query w :
  let page := Router.handler (routeOf E url) in
  let w3 := afterPrefetch E url query w in
  Ssr.render E url query w
  = match Ssr.pages E page w3 with
    | Ok html => (Ok (Js.or html (JStr "")), logged [Ssr.CPage page] w3)
    | Throw e =>
        (Ssr.pages E NotFoundPage
           (logged [Ssr.CPage page; Ssr.CConsoleError Ssr.SsrRenderError e] w3),
         logged [Ssr.CPage page; Ssr.CConsoleError Ssr.SsrRenderError e;
                 Ssr.CPage NotFoundPage] w3)
    end.
Proof.
  intros page w3.
  set (q := Js.default query (JObj [])).
  assert (Ssr.render E url query w
          = Ssr.tryCatch
              (Ssr.prefetch E (routeOf E url) q ;;
               html ← Ssr.runPage E page ;
               mret (Js.or html (JStr "")))
              (fun error =>
                 Ssr.consoleError Ssr.SsrRenderError error ;;
                 Ssr.runPage E NotFoundPage)
              (afterInit E url query w)) as -> by reflexivity.
  destruct (prefetch_run (routeOf E url) q (afterInit E url query w))
    as (w3' & Hp & _).
  assert (w3 = w3') as -> by (unfold w3, afterPrefetch; fold q; by rewrite Hp).
  unfold Ssr.tryCatch. rewrite bind_run, Hp, bind_run.
  unfold Ssr.runPage at 1.
  destruct (Ssr.pages E page w3') as [html|e]; [reflexivity|].
  unfold Ssr.consoleError. rewrite bind_log. unfold Ssr.runPage.
  unfold logged. cbn [Ssr.calls Ssr.productStore Ssr.cartStore Ssr.uiStore
                      Ssr.router].
  by rewrite <- !app_assoc.
Qed.

(** The calls of a request, in order. *)
Lemma render_calls url query w :
  let q := Js.default query (JObj []) in
  let route := routeOf E url in
  Ssr.calls (Ssr.render E url query w).2
  = Ssr.calls w
    ++ [ Ssr.CFindRoute (Ssr.cleanUrl E url) (Ssr.BASE_URL E);
         Ssr.CSetServerRoute
           (Ssr.mkServerRoute (Ssr.cleanUrl E url) q (Router.params route)) ]
    ++ initCalls E
    ++ prefetchCalls E route q
    ++ [Ssr.CPage (Router.handler route)]
    ++ match Ssr.pages E (Router.handler route)
               (afterPrefetch E url query w) with
       | Ok _ => []
       | Throw e =>
           [Ssr.CConsoleError Ssr.SsrRenderError e; Ssr.CPage NotFoundPage]
       end.
Proof.
  intros q route. rewrite render_run.
  pose proof (afterPrefetch_calls url query w) as Hc.
  rewrite afterInit_calls in Hc. fold q route in Hc.
  destruct (Ssr.pages E _ _) as [html|e];
    cbn [snd]; rewrite calls_logged, Hc, <- !app_assoc; reflexivity.
Qed.

End RenderFacts.

Section RenderClaims.

Context (E : Ssr.Env).

Implicit Types (w : Ssr.World) (url : string) (query : JsVal).

(** C1 (amended): in every call, [render] first matches the url to a route
    and records it on the router, then resets the three stores, then
    prefetches (HTTP requests first, dispatches to the product store after
    them), and then invokes the page function of the matched route; when
    that function throws, the error is logged and [NotFoundPage] is invoked
    last. *)
Theorem render_call_order url query w :
  let q := Js.default query (JObj []) in
  let route := routeOf E url in
  ∃ tail,
    Ssr.calls (Ssr.render E url query w).2
    = Ssr.calls w
      ++ [ Ssr.CFindRoute (Ssr.cleanUrl E url) (Ssr.BASE_URL E);
           Ssr.CSetServerRoute
             (Ssr.mkServerRoute (Ssr.cleanUrl E url) q (Router.params route)) ]
      ++ initCalls E
      ++ prefetchCalls E route q
      ++ [Ssr.CPage (Router.handler route)]
      ++ tail ∧
    forallb isPrefetchCall (prefetchCalls E route q) = true ∧
    (∃ c rest, prefetchCalls E route q = c :: rest ∧ isHttpCall c = true) ∧
    (tail = [] ∨
     ∃ e, tail = [Ssr.CConsoleError Ssr.SsrRenderError e;
                  Ssr.CPage NotFoundPage]).
Proof.
  intros q route.
  exists (match Ssr.pages E (Router.handler route)
                  (afterPrefetch E url query w) with
          | Ok _ => []
          | Throw e =>
              [Ssr.CConsoleError Ssr.SsrRenderError e; Ssr.CPage NotFoundPage]
          end).
  split; [apply render_calls|].
  split; [apply prefetchCalls_kind|].
  split; [apply prefetchCalls_http_first|].
  destruct (Ssr.pages E _ _) as [html|e]; [by left|right; by exists e].
Qed.

(** C3 (amended): for thrown values that are [Error] objects, an error of
    the prefetch is caught inside the prefetch function, which never throws:
    the error is logged and its message dispatched with [SET_ERROR] (a
    failed list or categories request, a failed product request, a response
    that cannot be read), or, for an error while loading the related
    products, logged and followed by the dispatch of an empty
    related-products list; the matched page is rendered all the same.  An
    error thrown by the page function is caught and logged and the result
    is that of [NotFoundPage]; so [render] rejects only when [NotFoundPage]
    itself throws, and never when [NotFoundPage] cannot. *)
Theorem render_error_handling url query w :
  let q := Js.default query (JObj []) in
  let route := routeOf E url in
  let page := Router.handler route in
  let w2 := afterInit E url query w in
  let w3 := afterPrefetch E url query w in
  (∀ route q w', (Ssr.prefetch E route q w').1 = Ok tt) ∧
  (∀ e, Ssr.truthyId (Router.params route) = None →
        productsAttempt E q = Throw e →
        Ssr.calls w3
        = Ssr.calls w2
          ++ [ Ssr.CGetProducts q; Ssr.CGetCategories;
               Ssr.CConsoleError Ssr.ProductsPrefetchFailed e;
               Ssr.CDispatchProduct (Ssr.SET_ERROR (message e)) ]) ∧
  (∀ id e, Ssr.truthyId (Router.params route) = Some id →
           Ssr.getProduct E id = Throw e →
           Ssr.calls w3
           = Ssr.calls w2
             ++ [ Ssr.CGetProduct id;
                  Ssr.CConsoleError Ssr.DetailPrefetchFailed e;
                  Ssr.CDispatchProduct (Ssr.SET_ERROR (message e)) ]) ∧
  (∀ id product e,
     Ssr.truthyId (Router.params route) = Some id →
     Ssr.getProduct E id = Ok product →
     Js.getProp product "category2" = Throw e →
     Ssr.calls w3
     = Ssr.calls w2
       ++ [ Ssr.CGetProduct id;
            Ssr.CDispatchProduct (Ssr.SET_CURRENT_PRODUCT product);
            Ssr.CConsoleError Ssr.DetailPrefetchFailed e;
            Ssr.CDispatchProduct (Ssr.SET_ERROR (message e)) ]) ∧
  (∀ id product category2 e,
     Ssr.truthyId (Router.params route) = Some id →
     Ssr.getProduct E id = Ok product →
     Js.getProp product "category2" = Ok category2 →
     Js.truthy category2 = true →
     relatedAttempt E id category2 = Throw e →
     Ssr.calls w3
     = Ssr.calls w2
       ++ [ Ssr.CGetProduct id;
            Ssr.CDispatchProduct (Ssr.SET_CURRENT_PRODUCT product);
            Ssr.CGetProducts (relatedQuery category2);
            Ssr.CConsoleError Ssr.RelatedPrefetchFailed e;
            Ssr.CDispatchProduct (Ssr.SET_RELATED_PRODUCTS []) ]) ∧
  (∀ html, Ssr.pages E page w3 = Ok html →
           (Ssr.render E url query w).1 = Ok (Js.or html (JStr ""))) ∧
  (∀ e, Ssr.pages E page w3 = Throw e →
        (Ssr.render E url query w).1
        = Ssr.pages E NotFoundPage
            (logged [Ssr.CPage page; Ssr.CConsoleError Ssr.SsrRenderError e] w3)
        ∧ Ssr.CConsoleError Ssr.SsrRenderError e
          ∈ Ssr.calls (Ssr.render E url query w).2) ∧
  (∀ e, (Ssr.render E url query w).1 = Throw e →
        ∃ w4, Ssr.pages E NotFoundPage w4 = Throw e) ∧
  ((∀ w4, ∃ html, Ssr.pages E NotFoundPage w4 = Ok html) →
   ∃ html, (Ssr.render E url query w).1 = Ok html).
Proof.
  intros q route page w2 w3.
  assert (Ssr.calls w3 = Ssr.calls w2 ++ prefetchCalls E route q) as Hcalls
    by apply afterPrefetch_calls.
  assert (Js.default q (JObj []) = q) as Hq by (unfold q; by destruct query).
  rewrite render_run. fold route page w3.
  split; [|split; [|split; [|split; [|split; [|split; [|split; [|split]]]]]]].
  - intros route' q' w'.
    by destruct (prefetch_run E route' q' w') as (? & -> & _).
  - intros e Hid He. rewrite Hcalls. f_equal.
    unfold prefetchCalls. rewrite Hid. unfold productsCalls.
    by rewrite Hq, He.
  - intros id e Hid He. rewrite Hcalls. f_equal.
    unfold prefetchCalls. rewrite Hid. unfold detailCalls. by rewrite He.
  - intros id product e Hid Hp He. rewrite Hcalls. f_equal.
    unfold prefetchCalls. rewrite Hid. unfold detailCalls. by rewrite Hp, He.
  - intros id product c2 e Hid Hp Hc2 Htr He. rewrite Hcalls. f_equal.
    unfold prefetchCalls. rewrite Hid. unfold detailCalls, relatedCalls.
    by rewrite Hp, Hc2, Htr, He.
  - by intros html ->.
  - intros e ->. split; [done|]. cbn [snd]. rewrite calls_logged.
    apply elem_of_app. right. apply elem_of_cons. right.
    apply elem_of_cons. by left.
  - intros e. destruct (Ssr.pages E page w3) as [html|e']; [done|].
    cbn [fst]. eauto.
  - intros Hnf. destruct (Ssr.pages E page w3) as [html|e']; [by eauto|].
    cbn [fst]. apply Hnf.
Qed.

End RenderClaims.

(** C1, the claim as worded fails: the route is matched (and recorded on the
    router) before the stores are reset.  In the calls of a request for
    [/product/1], the first call is the route matching, store dispatches
    follow it, and no store dispatch comes before it. *)
Lemma render_matches_route_before_reset :
  let cs := Ssr.calls
              (Ssr.render Demo.env "/product/1" JUndefined Demo.usedWorld).2 in
  head cs = Some (Ssr.CFindRoute "/product/1" "") ∧
  cs !! 2 = Some (Ssr.CDispatchProduct (Ssr.SETUP (initialPayload Demo.env))) ∧
  precedes isRouteMatch isStoreDispatch cs = true ∧
  precedes isStoreDispatch isRouteMatch cs = false.
Proof. vm_compute. repeat split; reflexivity. Qed.

(** C3, the claim as worded fails for an error of the prefetch: with the
    product API failing, the request for [/] logs the error, and returns the
    HTML of [HomePage], not that of [NotFoundPage]. *)
Lemma render_prefetch_error_keeps_page :
  let run := Ssr.render Demo.offlineEnv "/" JUndefined Demo.usedWorld in
  Ssr.getProducts Demo.offlineEnv (JObj []) = Throw (mkError "fetch failed") ∧
  Ssr.CConsoleError Ssr.ProductsPrefetchFailed (mkError "fetch failed")
    ∈ Ssr.calls run.2 ∧
  run.1 = Ssr.pages Demo.offlineEnv HomePage Demo.usedWorld ∧
  run.1 = Ok (JStr "<main>home</main>") ∧
  run.1 ≠ Ssr.pages Demo.offlineEnv NotFoundPage Demo.usedWorld.
Proof.
  split; [reflexivity|]. split; [|split; [|split]].
  - apply list_elem_of_In. vm_compute. tauto.
  - vm_compute. reflexivity.
  - vm_compute. reflexivity.
  - vm_compute. discriminate.
Qed.

Lemma render_error_handling_witness :
  (Ssr.render Demo.brokenEnv "/product/1" JUndefined Demo.usedWorld).1
  = Ok (JStr "<main>404</main>") ∧
  Ssr.calls (afterPrefetch Demo.downEnv "/" JUndefined Demo.usedWorld)
  = Ssr.calls (afterInit Demo.downEnv "/" JUndefined Demo.usedWorld)
    ++ [ Ssr.CGetProducts (JObj []); Ssr.CGetCategories;
         Ssr.CConsoleError Ssr.ProductsPrefetchFailed
           (mkError "categories failed");
         Ssr.CDispatchProduct (Ssr.SET_ERROR "categories failed") ].
Proof.
  split.
  - pose proof (proj1 (proj2 (proj2 (proj2 (proj2 (proj2 (proj2
      (render_error_handling Demo.brokenEnv "/product/1" JUndefined
         Demo.usedWorld))))))) (mkError "render failed")) as H.
    destruct H as [H _]; [vm_compute; reflexivity|].
    rewrite H. vm_compute. reflexivity.
  - apply (proj1 (proj2
      (render_error_handling Demo.downEnv "/" JUndefined Demo.usedWorld))
      (mkError "categories failed")); vm_compute; reflexivity.
Defined.

Section StoreClaims.

Context (E : Ssr.Env).

Implicit Types (w : Ssr.World) (url : string) (query : JsVal).

Lemma afterInit_stores url query w :
  let w2 := afterInit E url query w in
  Ssr.productStore w2 = initialPayload E ∪ Ssr.productStore w ∧
  Ssr.cartStore w2 = Ssr.mkCart [] ∧
  Ssr.uiStore w2 = Ssr.mkUi false false.
Proof.
  unfold afterInit, renderUntilInit, Ssr.initializeStores.
  generalize (Router.params (routeOf E url)), (Ssr.cleanUrl E url).
  intros params cu. unfold mbind, Ssr.M_bind.
  cbn -[insert union]. done.
Qed.

Lemma initialPayload_lookup k :
  initialPayload E !! k
  = if decide (k = "status") then Some (JStr "pending")
    else if decide (k = "loading") then Some (JBool true)
    else Ssr.initialProductState E !! k.
Proof.
  unfold initialPayload.
  rewrite lookup_insert. destruct (decide ("status" = k)) as [<-|Hs].
  - by rewrite decide_True.
  - rewrite decide_False by done.
    rewrite lookup_insert. destruct (decide ("loading" = k)) as [<-|Hl].
    + by rewrite decide_True.
    + by rewrite decide_False.
Qed.

(** C5: in every [render] call, in the world in which [initializeStores()]
    returns, from which the rest of [render] (the prefetch first) runs and
    in which no prefetch call has been made, the cart has no items, the
    cart modal is closed and the toast hidden, and the product store holds
    the initial product state with [loading] true and [status] "pending":
    key by key in any case, and as a whole when the store held no key but
    those of the initial state. *)
Theorem render_state_after_init url query w :
  let w2 := afterInit E url query w in
  Ssr.render E url query w = renderAfterInit E url query w2 ∧
  Ssr.calls w2
  = Ssr.calls w
    ++ [ Ssr.CFindRoute (Ssr.cleanUrl E url) (Ssr.BASE_URL E);
         Ssr.CSetServerRoute
           (Ssr.mkServerRoute (Ssr.cleanUrl E url)
              (Js.default query (JObj [])) (Router.params (routeOf E url))) ]
    ++ initCalls E ∧
  Ssr.items (Ssr.cartStore w2) = [] ∧
  Ssr.cartModalIsOpen (Ssr.uiStore w2) = false ∧
  Ssr.toastIsVisible (Ssr.uiStore w2) = false ∧
  Ssr.productStore w2 !! "loading" = Some (JBool true) ∧
  Ssr.productStore w2 !! "status" = Some (JStr "pending") ∧
  (∀ k v, k ≠ "loading" → k ≠ "status" →
          Ssr.initialProductState E !! k = Some v →
          Ssr.productStore w2 !! k = Some v) ∧
  (dom (Ssr.productStore w) ⊆ dom (Ssr.initialProductState E) →
   Ssr.productStore w2
   = <["status" := JStr "pending"]>
       (<["loading" := JBool true]> (Ssr.initialProductState E))).
Proof.
  intros w2.
  destruct (afterInit_stores url query w) as (Hp & Hc & Hu). fold w2 in Hp, Hc, Hu.
  split; [reflexivity|]. split; [apply afterInit_calls|].
  rewrite Hc, Hu, Hp. split; [done|]. split; [done|]. split; [done|].
  assert (∀ k v, initialPayload E !! k = Some v →
                 (initialPayload E ∪ Ssr.productStore w) !! k = Some v) as Hl.
  { intros k v Hk. by apply lookup_union_Some_l. }
  split; [|split; [|split]].
  - apply Hl. by rewrite initialPayload_lookup.
  - apply Hl. by rewrite initialPayload_lookup.
  - intros k v Hload Hstat Hk. apply Hl.
    rewrite initialPayload_lookup. by rewrite !decide_False.
  - intros Hdom. fold (initialPayload E). apply map_eq. intros k.
    destruct (initialPayload E !! k) as [v|] eqn:Hk.
    + by apply Hl.
    + apply lookup_union_None. split; [done|].
      apply not_elem_of_dom. intros Hin. apply Hdom in Hin.
      apply elem_of_dom in Hin as [v Hv].
      rewrite initialPayload_lookup in Hk.
      repeat case_decide; congruence.
Qed.

(** The id parameter of a route is never the empty string. *)
Lemma routeOf_id url id :
  Router.params (routeOf E url) !! "id" = Some id →
  Ssr.truthyId (Router.params (routeOf E url)) = Some id.
Proof.
  unfold routeOf. rewrite findRoute_firstMatch, firstMatch_routes.
  unfold Ssr.truthyId.
  repeat case_match; simplify_eq; cbn [Router.params];
    rewrite ?lookup_empty, ?lookup_singleton_eq; try done.
  all: intros; simplify_eq; done.
Qed.

(** Membership in a list of calls that is written out. *)
Ltac mem_solver :=
  repeat match goal with
         | H : _ ∈ _ |- _ =>
             apply list_elem_of_In in H; rewrite ?in_app_iff in H;
             cbn [In] in H
         end;
  try (apply list_elem_of_In; rewrite ?in_app_iff; cbn [In]);
  intuition (try discriminate; try congruence).

(** C7: when [render] handles a product-detail route, every related-products
    list dispatched to the product store holds only products whose
    [productId] differs from the id of the route; and when the fetched
    product has a (truthy) [category2], such a list is dispatched. *)
Theorem related_products_exclude_current url query w id :
  Router.params (routeOf E url) !! "id" = Some id →
  ∃ new,
    Ssr.calls (Ssr.render E url query w).2 = Ssr.calls w ++ new ∧
    (∀ l, Ssr.CDispatchProduct (Ssr.SET_RELATED_PRODUCTS l) ∈ new →
          Forall (otherThan id) l) ∧
    (∀ product category2,
       Ssr.getProduct E id = Ok product →
       Js.getProp product "category2" = Ok category2 →
       Js.truthy category2 = true →
       ∃ l, Ssr.CDispatchProduct (Ssr.SET_RELATED_PRODUCTS l) ∈ new).
Proof.
  intros Hid. apply routeOf_id in Hid.
  eexists. split; [apply render_calls|].
  unfold prefetchCalls. rewrite Hid.
  split.
  - intros l Hin.
    assert (Ssr.CDispatchProduct (Ssr.SET_RELATED_PRODUCTS l)
              ∈ detailCalls E id) as Hd.
    { unfold initCalls in Hin. destruct (Ssr.pages E _ _); mem_solver. }
    clear Hin. unfold detailCalls, relatedCalls, relatedAttempt in Hd.
    destruct (Ssr.getProduct E id) as [product|e]; [|mem_solver].
    destruct (Js.getProp product "category2") as [c2|e]; [|mem_solver].
    destruct (Js.truthy c2); [|mem_solver].
    destruct (Ssr.getProducts E _) as [resp|e]; cbn [rbind] in Hd;
      [|assert (l = []) as -> by mem_solver; constructor].
    destruct (Js.getProp resp "products") as [all|e]; cbn [rbind] in Hd;
      [|assert (l = []) as -> by mem_solver; constructor].
    destruct (Js.filter all (Ssr.isOtherProduct id)) as [l'|e] eqn:Hf;
      [|assert (l = []) as -> by mem_solver; constructor].
    assert (l = l') as -> by mem_solver.
    by apply filter_other in Hf.
  - intros product c2 Hp Hc2 Htr.
    unfold detailCalls, relatedCalls. rewrite Hp, Hc2, Htr.
    destruct (relatedAttempt _ _ _) as [l|e].
    + exists l. mem_solver.
    + exists []. mem_solver.
Qed.

End StoreClaims.

Lemma render_state_after_init_witness :
  Ssr.productStore (afterInit Demo.env "/product/1" JUndefined Demo.usedWorld)
  = <["status" := JStr "pending"]>
      (<["loading" := JBool true]> Demo.initialProductState).
Proof.
  apply (proj2 (proj2 (proj2 (proj2 (proj2 (proj2 (proj2 (proj2
    (render_state_after_init Demo.env "/product/1" JUndefined
       Demo.usedWorld))))))))).
  apply (bool_decide_unpack _). vm_compute. exact I.
Defined.

Lemma related_products_exclude_current_witness :
  ∃ new,
    Ssr.calls (Ssr.render Demo.env "/product/1" JUndefined Demo.usedWorld).2
    = Ssr.calls Demo.usedWorld ++ new ∧
    (∀ l, Ssr.CDispatchProduct (Ssr.SET_RELATED_PRODUCTS l) ∈ new →
          Forall (otherThan "1") l) ∧
    Ssr.CDispatchProduct
      (Ssr.SET_RELATED_PRODUCTS [Demo.shoe "2"; Demo.shoe "3"]) ∈ new.
Proof.
  destruct (related_products_exclude_current Demo.env "/product/1" JUndefined
              Demo.usedWorld "1") as (new & Hc & Hall & Hex).
  { vm_compute. reflexivity. }
  exists new. split; [exact Hc|]. split; [exact Hall|].
  vm_compute in Hc. simplify_eq. apply list_elem_of_In. vm_compute. tauto.
Defined.

(** ** The server template and the SSR middleware *)

Section ServerFacts.

Implicit Types s t : string.

Lemma trimEnd_app s t :
  t ≠ "" → JsString.trimEnd t = t → JsString.trimEnd (s +:+ t) = s +:+ t.
Proof.
  intros Hne Ht. induction s as [|c s IH]; [done|].
  rewrite app_cons. cbn [JsString.trimEnd]. rewrite IH.
  destruct (s +:+ t) eqn:Hs; [|done].
  destruct s; [by destruct Hne|done].
Qed.

(** The template, written out: [trim] removes the leading line feed only. *)
Lemma createHtmlTemplate_document html baseUrl isProd assets :
  Server.createHtmlTemplate html baseUrl isProd assets
  = document (Js.toString html)
             (baseUrl +:+ Server.css assets) (baseUrl +:+ Server.js assets).
Proof.
  unfold Server.createHtmlTemplate, document.
  generalize (Js.toString html), (baseUrl +:+ Server.css assets),
    (baseUrl +:+ Server.js assets).
  intros body cssPath jsPath.
  unfold JsString.trim, templateBefore, templateMiddle, templateAfter.
  cbn [JsString.lines]. unfold JsString.quoted.
  rewrite !app_app_assoc.
  match goal with
  | |- JsString.trimEnd (JsString.trimStart ?x) = ?y =>
      change (JsString.trimStart x) with y
  end.
  rewrite <- !app_app_assoc.
  rewrite trimEnd_app; done.
Qed.

(** The [isProd] argument is not used. *)
Lemma createHtmlTemplate_isProd html baseUrl isProd isProd' assets :
  Server.createHtmlTemplate html baseUrl isProd assets
  = Server.createHtmlTemplate html baseUrl isProd' assets.
Proof. reflexivity. Qed.

(** C8: [createHtmlTemplate] of the server is deterministic: equal [html],
    [baseUrl], [isProd] and [assets] arguments give identical strings. *)
Theorem createHtmlTemplate_deterministic
    html1 html2 baseUrl1 baseUrl2 isProd1 isProd2 assets1 assets2 :
  html1 = html2 → baseUrl1 = baseUrl2 → isProd1 = isProd2 →
  assets1 = assets2 →
  Server.createHtmlTemplate html1 baseUrl1 isProd1 assets1
  = Server.createHtmlTemplate html2 baseUrl2 isProd2 assets2.
Proof. intros -> -> -> ->. reflexivity. Qed.

Lemma createHtmlTemplate_deterministic_witness :
  Server.createHtmlTemplate (JStr "<p>1</p>") "/" true
    (Server.mkAssets "index.js" "index.css")
  = Server.createHtmlTemplate (Js.or (JStr "<p>1</p>") (JStr ""))
      (JsString.orElse "" "/") (negb false)
      (Server.findAssetFiles (Server.mkProcessEnv None None (Ok []))).
Proof.
  apply (createHtmlTemplate_deterministic
           (JStr "<p>1</p>") (Js.or (JStr "<p>1</p>") (JStr ""))
           "/" (JsString.orElse "" "/") true (negb false)
           (Server.mkAssets "index.js" "index.css")
           (Server.findAssetFiles (Server.mkProcessEnv None None (Ok []))));
    reflexivity.
Defined.

(** When [render] rejects, the middleware sends nothing and hands the error
    to [next]. *)
Lemma ssrMiddleware_error E env req w e w' :
  Ssr.render E (requestUrl env req) (Server.query req) w = (Throw e, w') →
  (Server.ssrMiddleware E env req w).1 = Server.Next e.
Proof. unfold Server.ssrMiddleware. fold (requestUrl env req). by intros ->. Qed.

(** C6 (amended): for every request for which [render] returns, the SSR
    middleware sends, with [Content-Type: text/html], the full HTML document
    in which the value returned by [render] (as a string) stands inside
    [<div id="root">...</div>] and the paths of the style sheet and of the
    module script are the base url followed by the configured asset file
    names.  For a request for which [render] rejects, which takes a
    [NotFoundPage] that throws, the middleware sends nothing: it logs the
    error and hands it to [next]. *)
Theorem ssrMiddleware_response E env req w :
  (∀ html w',
     Ssr.render E (requestUrl env req) (Server.query req) w = (Ok html, w') →
     Server.ssrMiddleware E env req w
     = (Server.Sent [("Content-Type", "text/html")]
          (document (Js.toString html)
                    (Server.base env +:+ Server.css (Server.assetFiles env))
                    (Server.base env +:+ Server.js (Server.assetFiles env))),
        w')) ∧
  (∀ e w',
     Ssr.render E (requestUrl env req) (Server.query req) w = (Throw e, w') →
     Server.ssrMiddleware E env req w
     = (Server.Next e, logged [Ssr.CConsoleError Ssr.ServerSsrError e] w') ∧
     ∃ w4, Ssr.pages E NotFoundPage w4 = Throw e).
Proof.
  unfold Server.ssrMiddleware. fold (requestUrl env req). split.
  - intros html w' ->. by rewrite createHtmlTemplate_document.
  - intros e w' H. rewrite H. split; [reflexivity|].
    rewrite render_run in H.
    destruct (Ssr.pages E _ _) as [html|e']; [done|].
    injection H as H _. eauto.
Qed.

End ServerFacts.

Lemma ssrMiddleware_response_witness :
  (Server.ssrMiddleware Demo.env Demo.processEnv
     (Server.mkRequest "/front_7th_chapter4-1/vanilla/product/1" (JObj []))
     Demo.usedWorld).1
  = Server.Sent [("Content-Type", "text/html")]
      (document "<main>detail</main>"
         "/front_7th_chapter4-1/vanilla/assets/index-abc.css"
         "/front_7th_chapter4-1/vanilla/assets/index-abc.js").
Proof.
  rewrite (proj1 (ssrMiddleware_response Demo.env Demo.processEnv
             (Server.mkRequest "/front_7th_chapter4-1/vanilla/product/1" (JObj []))
             Demo.usedWorld) (JStr "<main>detail</main>")
             (Ssr.render Demo.env "/product/1" (JObj []) Demo.usedWorld).2).
  - reflexivity.
  - vm_compute. reflexivity.
Defined.

(** C6, the claim as worded fails for a request for which [render] rejects:
    with a detail page and a [NotFoundPage] that both throw, the middleware
    sends no response for [/product/1]; it hands the error of
    [NotFoundPage] to [next]. *)
Lemma ssrMiddleware_rejected_render_sends_nothing :
  let req := Server.mkRequest "/front_7th_chapter4-1/vanilla/product/1"
                              (JObj []) in
  (Ssr.render Demo.noFallbackEnv (requestUrl Demo.processEnv req)
     (Server.query req) Demo.usedWorld).1
  = Throw (mkError "no fallback") ∧
  (Server.ssrMiddleware Demo.noFallbackEnv Demo.processEnv req
     Demo.usedWorld).1
  = Server.Next (mkError "no fallback") ∧
  ∀ headers body,
    (Server.ssrMiddleware Demo.noFallbackEnv Demo.processEnv req
       Demo.usedWorld).1
    ≠ Server.Sent headers body.
Proof.
  assert ((Server.ssrMiddleware Demo.noFallbackEnv Demo.processEnv
             (Server.mkRequest "/front_7th_chapter4-1/vanilla/product/1"
                (JObj [])) Demo.usedWorld).1
          = Server.Next (mkError "no fallback")) as H
    by (vm_compute; reflexivity).
  split; [vm_compute; reflexivity|]. split; [exact H|].
  intros headers body. rewrite H. discriminate.
Qed.

(** ** The static-site generator *)

Section SsgFacts.

Implicit Types s t : string.

Lemma lacks_app c s t :
  JsString.lacks c (s +:+ t) = JsString.lacks c s && JsString.lacks c t.
Proof.
  induction s as [|d s IH]; [done|].
  rewrite app_cons. cbn [JsString.lacks]. rewrite IH.
  by rewrite andb_assoc.
Qed.

(** C10 (amended): on a template in which the two placeholders occur, and
    for an [html] without [$] (a [$] in the replacement text is a
    replacement pattern of [String.prototype.replace]), the generator's
    [createHtmlTemplate] puts [html] in the place of the first
    [<!--app-html-->] and removes the first [<!--app-head-->].  It then
    puts the [window.__INITIAL_DATA__] script before the first [</body>]
    when [initialData] is truthy, the template has a [</body>] and the
    serialized data has no [$].  When [initialData] is falsy, in particular
    [null] or omitted, and also when the template has no [</body>], nothing
    is added to the template with its two placeholders replaced. *)
Theorem fillTemplate_placeholders
    (stringify : JsVal → string) template html initialData b1 a1 b2 a2 :
  JsString.lacks "$" (Js.toString html) = true →
  JsString.splitFirst "<!--app-html-->" template = Some (b1, a1) →
  JsString.splitFirst "<!--app-head-->" (b1 +:+ Js.toString html +:+ a1)
  = Some (b2, a2) →
  template = b1 +:+ "<!--app-html-->" +:+ a1 ∧
  b1 +:+ Js.toString html +:+ a1 = b2 +:+ "<!--app-head-->" +:+ a2 ∧
  (Js.truthy initialData = false →
   Ssg.fillTemplate stringify template html initialData = b2 +:+ a2) ∧
  (initialData = JNull ∨ initialData = JUndefined →
   Ssg.fillTemplate stringify template html initialData = b2 +:+ a2) ∧
  (JsString.splitFirst "</body>" (b2 +:+ a2) = None →
   Ssg.fillTemplate stringify template html initialData = b2 +:+ a2) ∧
  (Js.truthy initialData = true →
   JsString.lacks "$" (stringify initialData) = true →
   ∀ b3 a3,
     JsString.splitFirst "</body>" (b2 +:+ a2) = Some (b3, a3) →
     b2 +:+ a2 = b3 +:+ "</body>" +:+ a3 ∧
     Ssg.fillTemplate stringify template html initialData
     = b3 +:+ Ssg.initialDataScript stringify initialData
       +:+ String "010" "  </body>" +:+ a3).
Proof.
  intros Hhtml H1 H2.
  assert (∀ d, Js.truthy (Js.default d JNull) = Js.truthy d) as Hdef
    by (by intros []).
  assert (JsString.replace
            (JsString.replace template "<!--app-html-->" (Js.toString html))
            "<!--app-head-->" "" = b2 +:+ a2) as Ht2.
  { rewrite (replace_found _ _ _ _ _ H1 Hhtml).
    by rewrite (replace_found _ _ "" _ _ H2 eq_refl). }
  split; [by apply splitFirst_Some|]. split; [by apply splitFirst_Some|].
  unfold Ssg.fillTemplate. rewrite Hdef, Ht2.
  split; [by intros ->|]. split; [by intros [->| ->]|].
  split.
  { intros Hnone. destruct (Js.truthy initialData); [|done].
    by apply replace_absent. }
  intros Htr Hdata b3 a3 H3. rewrite Htr.
  split; [by apply splitFirst_Some|].
  assert (Js.default initialData JNull = initialData) as ->
    by (by destruct initialData).
  rewrite (replace_found _ _ _ _ _ H3); [by rewrite app_app_assoc|].
  unfold Ssg.initialDataScript. rewrite !lacks_app, Hdata. reflexivity.
Qed.

End SsgFacts.

Lemma fillTemplate_placeholders_witness :
  Ssg.fillTemplate (fun _ => "{}") Demo.template (JStr "<main>home</main>")
    (JObj [])
  = "<html><head></head><body><div id=root><main>home</main></div>"
    +:+ Ssg.initialDataScript (fun _ => "{}") (JObj [])
    +:+ String "010" "  </body>" +:+ "</html>".
Proof.
  apply (proj2 (proj2 (proj2 (proj2 (proj2
    (fillTemplate_placeholders (fun _ => "{}") Demo.template
       (JStr "<main>home</main>") (JObj [])
       "<html><head><!--app-head--></head><body><div id=root>"
       "</div></body></html>"
       "<html><head>"
       "</head><body><div id=root><main>home</main></div></body></html>"
       eq_refl eq_refl eq_refl))))) eq_refl eq_refl
    "<html><head></head><body><div id=root><main>home</main></div>"
    "</html>" eq_refl).
Defined.

(** C10, the claim as worded fails in three places.  The script is
    inserted when [initialData] is truthy, not when it is non-null: for the
    non-null [0] nothing is inserted.  A [$] in [html] is read as a
    replacement pattern: for [<b>$$9</b>] the placeholder is replaced by
    [<b>$9</b>], which is not the given html.  And on a template without
    [</body>] no script is inserted, whatever [initialData] is. *)
Lemma fillTemplate_not_as_worded :
  JNum 0 ≠ JNull ∧
  Ssg.fillTemplate (fun _ => "0") Demo.template (JStr "<p>hi</p>") (JNum 0)
  = "<html><head></head><body><div id=root><p>hi</p></div></body></html>" ∧
  JsString.includes
    (Ssg.fillTemplate (fun _ => "0") Demo.template (JStr "<p>hi</p>") (JNum 0))
    "__INITIAL_DATA__" = false ∧
  Ssg.fillTemplate (fun _ => "0") "<div><!--app-html--></div>"
    (JStr "<b>$$9</b>") JNull
  = "<div><b>$9</b></div>" ∧
  Ssg.fillTemplate (fun _ => "{}") "<div><!--app-html--></div>"
    (JStr "<p>hi</p>") (JObj [])
  = "<div><p>hi</p></div>".
Proof. repeat split; [done|vm_compute; reflexivity..]. Qed.

(** C2, at the failing input: [render] returns the string
    [<main>detail</main>] for the one product of [items.json]; the
    generator reads the properties [html] and [initialData] of that string,
    which are [undefined], and fills a template that the home page, written
    to the template's own path, has already replaced.  The file written for
    the product does not contain the rendered page. *)
Theorem generateStaticSite_product_page :
  let run := Ssg.generateStaticSite Demo.ssgEnv Demo.ssgState in
  (Ssr.render Demo.env "/product/1" (JObj []) Demo.usedWorld).1
  = Ok (JStr "<main>detail</main>") ∧
  Ssg.destructure (JStr "<main>detail</main>") = Ok (JUndefined, JUndefined) ∧
  Ssg.templatePath Demo.ssgEnv
  = Path.joinStrings [Ssg.distDir Demo.ssgEnv; "index.html"] ∧
  run.1 = Ok (Ssg.Generated 1 0) ∧
  Fs.files (Ssg.fs run.2) !! "/repo/dist/vanilla/product/1/index.html"
  = Some "<html><head></head><body><div id=root>undefined</div></body></html>" ∧
  Fs.files (Ssg.fs run.2) !! "/repo/dist/vanilla/index.html"
  = Fs.files (Ssg.fs run.2) !! "/repo/dist/vanilla/product/1/index.html".
Proof. vm_compute. repeat split; reflexivity. Qed.

(** Whatever string [render] returns, the generator sees no [html] and no
    [initialData] in it. *)
Lemma destructure_string s :
  Ssg.destructure (JStr s) = Ok (JUndefined, JUndefined).
Proof. reflexivity. Qed.

(** ** Further properties of the router *)

Section RouterShape.

Implicit Types s u b id : string.

Lemma lacks_app_inv c s t :
  JsString.lacks c (s +:+ t) = true →
  JsString.lacks c s = true ∧ JsString.lacks c t = true.
Proof. rewrite lacks_app. apply andb_prop. Qed.

Lemma splitHead_lacks c s :
  JsString.lacks c (JsString.splitHead (String c "") s) = true.
Proof.
  unfold JsString.splitHead.
  destruct (JsString.splitFirst (String c "") s) as [[x y]|] eqn:H.
  - revert x H. induction s as [|d s IH]; intros x H.
    + cbn in H. done.
    + cbn [JsString.splitFirst JsString.dropPrefix] in H.
      destruct (Ascii.eqb c d) eqn:Hcd.
      * simplify_eq. done.
      * destruct (JsString.splitFirst (String c "") s) as [[x' y']|]; [|done].
        simplify_eq. cbn [JsString.lacks]. rewrite Hcd. by rewrite (IH x').
  - induction s as [|d s IH]; [done|].
    cbn [JsString.splitFirst JsString.dropPrefix] in H.
    destruct (Ascii.eqb c d) eqn:Hcd; [done|].
    destruct (JsString.splitFirst (String c "") s) as [[x' y']|]; [done|].
    cbn [JsString.lacks]. rewrite Hcd. by rewrite IH.
Qed.

(** Removing text does not bring in a character that was not there. *)
Lemma replace_empty_lacks c s b :
  JsString.lacks c s = true → JsString.lacks c (JsString.replace s b "") = true.
Proof.
  intros H. unfold JsString.replace.
  destruct (JsString.splitFirst b s) as [[x y]|] eqn:Hs; [|done].
  apply splitFirst_Some in Hs. subst s.
  apply lacks_app_inv in H as [Hx H]. apply lacks_app_inv in H as [_ Hy].
  cbn [JsString.getSubstitution]. change ("" +:+ y) with y.
  by rewrite lacks_app, Hx, Hy.
Qed.

Lemma strip_lacks c s :
  JsString.lacks c s = true →
  JsString.lacks c (JsString.stripTrailingSlash s) = true.
Proof.
  induction s as [|d s IH]; [done|].
  cbn [JsString.lacks JsString.stripTrailingSlash]. intros H.
  apply andb_prop in H as [Hd Hs].
  destruct s as [|e s].
  - destruct (Ascii.eqb d "/"); [done|]. cbn [JsString.lacks]. by rewrite Hd.
  - cbn [JsString.lacks] in *. rewrite Hd. by rewrite IH.
Qed.

Lemma cleanPath_no_query u b :
  JsString.lacks "?" (Router.cleanPath u b) = true.
Proof.
  unfold Router.cleanPath.
  pose proof (strip_lacks "?" _
                (replace_empty_lacks "?" _ b (splitHead_lacks "?" u))) as H.
  destruct (JsString.stripTrailingSlash _); done.
Qed.

(** X1: the params of a route are empty unless the handler is
    [ProductDetailPage]; then they hold exactly [id], which is the text of
    the normalized path after [/product/]: not empty, without [/] and
    without [?]. *)
Theorem findRoute_params_shape u b :
  let r := Router.findRoute u b in
  (Router.handler r = ProductDetailPage ∧
   ∃ id, Router.params r = {[ "id" := id ]} ∧
         id ≠ "" ∧
         JsString.lacks "/" id = true ∧
         JsString.lacks "?" id = true ∧
         Router.cleanPath u b = "/product/" +:+ id)
  ∨ (Router.handler r ≠ ProductDetailPage ∧ Router.params r = ∅).
Proof.
  intros r. unfold r. rewrite findRoute_firstMatch, firstMatch_routes.
  pose proof (cleanPath_no_query u b) as Hq.
  destruct (JsString.dropPrefix "/" (Router.cleanPath u b)) as [[|x y]|] eqn:H1.
  - by right.
  - destruct (JsString.dropPrefix "/product/" (Router.cleanPath u b))
      as [[|c id]|] eqn:H2; [by right| |by right].
    destruct (JsString.lacks "/" (String c id)) eqn:Hl; [|by right].
    left. split; [done|]. exists (String c id).
    apply dropPrefix_Some in H2. rewrite H2 in Hq.
    apply lacks_app_inv in Hq as [_ Hq]. done.
  - destruct (JsString.dropPrefix "/product/" (Router.cleanPath u b))
      as [[|c id]|] eqn:H2; [by right| |by right].
    destruct (JsString.lacks "/" (String c id)) eqn:Hl; [|by right].
    left. split; [done|]. exists (String c id).
    apply dropPrefix_Some in H2. rewrite H2 in Hq.
    apply lacks_app_inv in Hq as [_ Hq]. done.
Qed.

End RouterShape.

(** ** Further properties of the prefetch and of [render] *)

Section PrefetchOutcomes.

Context (E : Ssr.Env).

Implicit Types (w : Ssr.World) (url : string) (query : JsVal).

Lemma productsPayload_lookup products categories total k :
  productsPayload products categories total !! k
  = if decide (k = "products") then Some products
    else if decide (k = "categories") then Some categories
    else if decide (k = "totalCount") then Some total
    else if decide (k = "loading") then Some (JBool false)
    else if decide (k = "status") then Some (JStr "done")
    else if decide (k = "error") then Some JNull
    else None.
Proof.
  unfold productsPayload. cbn [list_to_map foldr fst snd curry uncurry].
  repeat (rewrite lookup_insert; destruct (decide (_ = k)) as [<-|?];
          [by repeat case_decide
          |rewrite (decide_False (P := k = _)) by done]).
  apply lookup_empty.
Qed.

(** X2: when the list request and the categories request both succeed and
    the response has [products] and [pagination.total], [prefetchProducts]
    dispatches one [SETUP]: afterwards the product store has the fetched
    [products], [categories] and [totalCount], [loading] false, [status]
    "done" and [error] null, and its other keys as before. *)
Theorem prefetchProducts_success query w resp cats products pagination total :
  Ssr.getProducts E (Js.default query (JObj [])) = Ok resp →
  Ssr.getCategories E = Ok cats →
  Js.getProp resp "products" = Ok products →
  Js.getProp resp "pagination" = Ok pagination →
  Js.getProp pagination "total" = Ok total →
  ∃ w',
    Ssr.prefetchProducts E query w = (Ok tt, w') ∧
    Ssr.calls w'
    = Ssr.calls w
      ++ [ Ssr.CGetProducts (Js.default query (JObj [])); Ssr.CGetCategories;
           Ssr.CDispatchProduct
             (Ssr.SETUP (productsPayload products cats total)) ] ∧
    Ssr.productStore w' !! "products" = Some products ∧
    Ssr.productStore w' !! "categories" = Some cats ∧
    Ssr.productStore w' !! "totalCount" = Some total ∧
    Ssr.productStore w' !! "loading" = Some (JBool false) ∧
    Ssr.productStore w' !! "status" = Some (JStr "done") ∧
    Ssr.productStore w' !! "error" = Some JNull ∧
    (∀ k, k ∉ ["products"; "categories"; "totalCount"; "loading"; "status";
               "error"] →
          Ssr.productStore w' !! k = Ssr.productStore w !! k).
Proof.
  intros Hp Hc H1 H2 H3.
  unfold Ssr.prefetchProducts, Ssr.tryCatch.
  rewrite !bind_log, !logged_logged.
  rewrite bind_lift, Hp, Hc. cbn [Js.promiseAll].
  rewrite bind_lift, H1, bind_lift, H2, bind_lift, H3.
  fold (productsPayload products cats total).
  rewrite calls_dispatchProduct.
  eexists. split; [reflexivity|].
  cbn [Ssr.calls Ssr.productStore Ssr.productReducer logged].
  split; [by rewrite <- !app_assoc|].
  assert (∀ k v, productsPayload products cats total !! k = Some v →
                 (productsPayload products cats total ∪ Ssr.productStore w) !! k
                 = Some v) as Hl by (intros; by apply lookup_union_Some_l).
  repeat (split; [by apply Hl|]).
  intros k Hk. apply lookup_union_r.
  rewrite productsPayload_lookup.
  repeat (case_decide; [subst k; exfalso; apply Hk; set_solver|]).
  done.
Qed.

(** X3: when a request of [prefetchProducts] fails, or the response cannot
    be read ([products] of a missing response, [total] of a missing
    [pagination]), nothing is thrown and no [SETUP] is dispatched: the error
    is logged and its message dispatched with [SET_ERROR].  When both
    requests fail, the error is that of the request that fails first. *)
Theorem prefetchProducts_failure query w e :
  let q := Js.default query (JObj []) in
  (Ssr.getProducts E q = Throw e ∧
   ((∃ cats, Ssr.getCategories E = Ok cats) ∨
    Ssr.categoriesRejectFirst E q = false)) ∨
  (Ssr.getCategories E = Throw e ∧
   ((∃ resp, Ssr.getProducts E q = Ok resp) ∨
    Ssr.categoriesRejectFirst E q = true)) ∨
  (∃ resp cats,
     Ssr.getProducts E q = Ok resp ∧ Ssr.getCategories E = Ok cats ∧
     (Js.getProp resp "products" = Throw e ∨
      ∃ products pagination,
        Js.getProp resp "products" = Ok products ∧
        Js.getProp resp "pagination" = Ok pagination ∧
        Js.getProp pagination "total" = Throw e)) →
  ∃ w',
    Ssr.prefetchProducts E query w = (Ok tt, w') ∧
    Ssr.calls w'
    = Ssr.calls w
      ++ [ Ssr.CGetProducts q; Ssr.CGetCategories;
           Ssr.CConsoleError Ssr.ProductsPrefetchFailed e;
           Ssr.CDispatchProduct (Ssr.SET_ERROR (message e)) ] ∧
    Ssr.productStore w'
    = Ssr.productReducerRest E (Ssr.productStore w) (Ssr.SET_ERROR (message e)).
Proof.
  intros q Hcase.
  unfold Ssr.prefetchProducts, Ssr.tryCatch. fold q.
  rewrite !bind_log, !logged_logged, bind_lift.
  assert (Js.promiseAll (Ssr.categoriesRejectFirst E q)
            (Ssr.getProducts E q) (Ssr.getCategories E) = Throw e
          ∨ ∃ resp cats,
              Js.promiseAll (Ssr.categoriesRejectFirst E q)
                (Ssr.getProducts E q) (Ssr.getCategories E) = Ok (resp, cats)
              ∧ (Js.getProp resp "products" = Throw e ∨
                 ∃ products pagination,
                   Js.getProp resp "products" = Ok products ∧
                   Js.getProp resp "pagination" = Ok pagination ∧
                   Js.getProp pagination "total" = Throw e))
    as [->|(resp & cats & -> & [H1|(ps & pg & H1 & H2 & H3)])].
  { destruct Hcase as [[Hp Hc]|[[Hc Hp]|(resp & cats & Hp & Hc & Hread)]].
    - left. rewrite Hp. destruct Hc as [[cats ->]| Hfirst]; [done|].
      destruct (Ssr.getCategories E); [done|]. cbn [Js.promiseAll].
      by rewrite Hfirst.
    - left. rewrite Hc. destruct Hp as [[resp ->]| Hfirst]; [done|].
      destruct (Ssr.getProducts E q); [done|]. cbn [Js.promiseAll].
      by rewrite Hfirst.
    - right. exists resp, cats. by rewrite Hp, Hc. }
  - eexists. split; [reflexivity|]. split; [|reflexivity].
    cbn. by rewrite <- !app_assoc.
  - rewrite bind_lift, H1.
    eexists. split; [reflexivity|]. split; [|reflexivity].
    cbn. by rewrite <- !app_assoc.
  - rewrite bind_lift, H1, bind_lift, H2, bind_lift, H3.
    eexists. split; [reflexivity|]. split; [|reflexivity].
    cbn. by rewrite <- !app_assoc.
Qed.

End PrefetchOutcomes.

Section DetailOutcomes.

Context (E : Ssr.Env).

Implicit Types (w : Ssr.World) (url id : string) (query : JsVal).

(** X4: a failure of the related-products request (a rejected request, a
    response without [products], a list that cannot be filtered) is handled
    silently: the current product stays dispatched, the related products
    become the empty list, and no [SET_ERROR] is dispatched. *)
Theorem prefetchProductDetail_related_failure id w product category2 e :
  Ssr.getProduct E id = Ok product →
  Js.getProp product "category2" = Ok category2 →
  Js.truthy category2 = true →
  Ssr.getProducts E (relatedQuery category2) = Throw e ∨
  (∃ resp, Ssr.getProducts E (relatedQuery category2) = Ok resp ∧
           (Js.getProp resp "products" = Throw e ∨
            ∃ all, Js.getProp resp "products" = Ok all ∧
                   Js.filter all (Ssr.isOtherProduct id) = Throw e)) →
  ∃ w',
    Ssr.prefetchProductDetail E id w = (Ok tt, w') ∧
    Ssr.calls w'
    = Ssr.calls w
      ++ [ Ssr.CGetProduct id;
           Ssr.CDispatchProduct (Ssr.SET_CURRENT_PRODUCT product);
           Ssr.CGetProducts (relatedQuery category2);
           Ssr.CConsoleError Ssr.RelatedPrefetchFailed e;
           Ssr.CDispatchProduct (Ssr.SET_RELATED_PRODUCTS []) ].
Proof.
  intros Hp Hc Ht Hfail.
  destruct (prefetchProductDetail_run E id w) as (w' & Hrun & Hcalls).
  exists w'. split; [done|]. rewrite Hcalls. f_equal.
  unfold detailCalls, relatedCalls, relatedAttempt. rewrite Hp, Hc, Ht.
  destruct Hfail as [Hr|(resp & Hr & [Hps|(all & Hps & Hf)])].
  - by rewrite Hr.
  - rewrite Hr. cbn [rbind]. by rewrite Hps.
  - rewrite Hr. cbn [rbind]. rewrite Hps. cbn [rbind]. by rewrite Hf.
Qed.

(** X5: [prefetchProductDetail] makes a single request when the product
    request fails (the error is logged and dispatched with [SET_ERROR]) and
    when the product has no truthy [category2] (the product is dispatched
    and nothing else): no related-products list is requested or
    dispatched. *)
Theorem prefetchProductDetail_single_request id w :
  (∀ e, Ssr.getProduct E id = Throw e →
        ∃ w',
          Ssr.prefetchProductDetail E id w = (Ok tt, w') ∧
          Ssr.calls w'
          = Ssr.calls w
            ++ [ Ssr.CGetProduct id;
                 Ssr.CConsoleError Ssr.DetailPrefetchFailed e;
                 Ssr.CDispatchProduct (Ssr.SET_ERROR (message e)) ]) ∧
  (∀ product category2,
     Ssr.getProduct E id = Ok product →
     Js.getProp product "category2" = Ok category2 →
     Js.truthy category2 = false →
     ∃ w',
       Ssr.prefetchProductDetail E id w = (Ok tt, w') ∧
       Ssr.calls w'
       = Ssr.calls w
         ++ [ Ssr.CGetProduct id;
              Ssr.CDispatchProduct (Ssr.SET_CURRENT_PRODUCT product) ]).
Proof.
  destruct (prefetchProductDetail_run E id w) as (w' & Hrun & Hcalls).
  split.
  - intros e He. exists w'. split; [done|]. rewrite Hcalls. f_equal.
    unfold detailCalls. by rewrite He.
  - intros product c2 Hp Hc Ht. exists w'. split; [done|].
    rewrite Hcalls. f_equal. unfold detailCalls. by rewrite Hp, Hc, Ht.
Qed.

(** A route that is not the detail page has no id to prefetch. *)
Lemma not_detail_no_id url :
  Router.handler (routeOf E url) ≠ ProductDetailPage →
  Ssr.truthyId (Router.params (routeOf E url)) = None.
Proof.
  unfold routeOf. rewrite findRoute_firstMatch, firstMatch_routes.
  repeat case_match; cbn [Router.handler Router.params]; try done.
Qed.

(** X6: for every url that is not routed to the detail page, the home page
    and the unknown urls alike, [render] requests the product list (with the
    query of the request) and the categories, and makes no other HTTP
    request. *)
Theorem render_list_prefetch url query w :
  Router.handler (routeOf E url) ≠ ProductDetailPage →
  ∃ tail,
    Ssr.calls (Ssr.render E url query w).2
    = Ssr.calls w
      ++ [ Ssr.CFindRoute (Ssr.cleanUrl E url) (Ssr.BASE_URL E);
           Ssr.CSetServerRoute
             (Ssr.mkServerRoute (Ssr.cleanUrl E url)
                (Js.default query (JObj []))
                (Router.params (routeOf E url))) ]
      ++ initCalls E
      ++ [ Ssr.CGetProducts (Js.default query (JObj [])); Ssr.CGetCategories ]
      ++ tail ∧
    forallb (λ c, negb (isHttpCall c)) tail = true.
Proof.
  intros Hh. apply not_detail_no_id in Hh.
  rewrite render_calls. unfold prefetchCalls. rewrite Hh.
  unfold productsCalls.
  assert (Js.default (Js.default query (JObj [])) (JObj [])
          = Js.default query (JObj [])) as -> by (by destruct query).
  eexists. split.
  - cbn [app]. reflexivity.
  - destruct (productsAttempt _ _); destruct (Ssr.pages E _ _); reflexivity.
Qed.

(** *** What the prefetch leaves alone *)

Lemma frames_ret {A} (a : A) : Frames (mret a : Ssr.M A).
Proof. by intros w. Qed.

Lemma frames_lift {A} (r : Result A) : Frames (Ssr.lift r).
Proof. by intros w. Qed.

Lemma frames_log c : Frames (Ssr.log c).
Proof. by intros w. Qed.

Lemma frames_dispatchProduct a : Frames (Ssr.dispatchProduct E a).
Proof. by intros w. Qed.

Lemma frames_bind {A B} (m : Ssr.M A) (f : A → Ssr.M B) :
  Frames m → (∀ a, Frames (f a)) → Frames (m ≫= f).
Proof.
  intros Hm Hf w. rewrite bind_run.
  destruct (Hm w) as (H1 & H2 & H3).
  destruct (m w) as [[a|e] w1]; cbn [snd] in *.
  - destruct (Hf a w1) as (G1 & G2 & G3). by rewrite G1, G2, G3.
  - done.
Qed.

Lemma frames_tryCatch {A} (m : Ssr.M A) (h : JsError → Ssr.M A) :
  Frames m → (∀ e, Frames (h e)) → Frames (Ssr.tryCatch m h).
Proof.
  intros Hm Hh w. unfold Ssr.tryCatch.
  destruct (Hm w) as (H1 & H2 & H3).
  destruct (m w) as [[a|e] w1]; cbn [snd] in *.
  - done.
  - destruct (Hh e w1) as (G1 & G2 & G3). by rewrite G1, G2, G3.
Qed.

Ltac frames :=
  repeat first
    [ apply frames_ret | apply frames_lift | apply frames_log
    | apply frames_dispatchProduct | apply frames_tryCatch
    | apply frames_bind | intros ? | case_match ].

Lemma frames_prefetch route query : Frames (Ssr.prefetch E route query).
Proof.
  unfold Ssr.prefetch, Ssr.prefetchProductDetail, Ssr.prefetchProducts,
    Ssr.consoleError.
  frames.
Qed.

Lemma afterInit_router url query w :
  Ssr.router (afterInit E url query w)
  = Some (Ssr.mkServerRoute (Ssr.cleanUrl E url) (Js.default query (JObj []))
            (Router.params (routeOf E url))).
Proof.
  unfold afterInit, renderUntilInit, Ssr.initializeStores.
  generalize (Router.params (routeOf E url)), (Ssr.cleanUrl E url).
  intros params cu. unfold mbind, Ssr.M_bind.
  cbn -[insert union]. done.
Qed.

(** X7: whatever the earlier state, the prefetch and the page do not touch
    the cart store, the UI store or the router: when [render] returns, the
    cart is empty, the cart modal closed, the toast hidden, and the router
    holds the route of this request. *)
Theorem render_leaves_stores url query w :
  let w' := (Ssr.render E url query w).2 in
  Ssr.cartStore w' = Ssr.mkCart [] ∧
  Ssr.uiStore w' = Ssr.mkUi false false ∧
  Ssr.router w'
  = Some (Ssr.mkServerRoute (Ssr.cleanUrl E url) (Js.default query (JObj []))
            (Router.params (routeOf E url))).
Proof.
  intros w'. unfold w'. rewrite render_run.
  destruct (frames_prefetch (routeOf E url) (Js.default query (JObj []))
              (afterInit E url query w)) as (Hc & Hu & Hr).
  fold (afterPrefetch E url query w) in Hc, Hu, Hr.
  destruct (afterInit_stores E url query w) as (_ & Hc0 & Hu0).
  rewrite afterInit_router in Hr. rewrite Hc0 in Hc. rewrite Hu0 in Hu.
  destruct (Ssr.pages E _ _); cbn [snd logged Ssr.cartStore Ssr.uiStore
                                     Ssr.router]; done.
Qed.

End DetailOutcomes.

Lemma prefetchProducts_success_witness :
  ∃ w',
    Ssr.prefetchProducts Demo.env JUndefined Demo.usedWorld = (Ok tt, w') ∧
    Ssr.productStore w' !! "totalCount" = Some (JNum 3) ∧
    Ssr.productStore w' !! "loading" = Some (JBool false) ∧
    Ssr.productStore w' !! "currentProduct" = Some (Demo.shoe "7").
Proof.
  destruct (prefetchProducts_success Demo.env JUndefined Demo.usedWorld
              (JObj [ ("products", JArr [Demo.shoe "1"; Demo.shoe "2"; Demo.shoe "3"]);
                      ("pagination", JObj [("total", JNum 3)]) ])
              (JObj [])
              (JArr [Demo.shoe "1"; Demo.shoe "2"; Demo.shoe "3"])
              (JObj [("total", JNum 3)]) (JNum 3)
              eq_refl eq_refl eq_refl eq_refl eq_refl)
    as (w' & Hrun & _ & _ & _ & Ht & Hl & _ & _ & Hrest).
  exists w'. split; [exact Hrun|]. split; [exact Ht|]. split; [exact Hl|].
  rewrite Hrest; [vm_compute; reflexivity|].
  intros Hin. apply list_elem_of_In in Hin. vm_compute in Hin.
  intuition discriminate.
Defined.

Lemma prefetchProducts_failure_witness :
  ∃ w',
    Ssr.prefetchProducts Demo.downEnv JUndefined Demo.usedWorld = (Ok tt, w') ∧
    Ssr.calls w'
    = [ Ssr.CGetProducts (JObj []); Ssr.CGetCategories;
        Ssr.CConsoleError Ssr.ProductsPrefetchFailed
          (mkError "categories failed");
        Ssr.CDispatchProduct (Ssr.SET_ERROR "categories failed") ] ∧
    Ssr.productStore w' !! "error" = Some (JStr "categories failed").
Proof.
  destruct (prefetchProducts_failure Demo.downEnv JUndefined Demo.usedWorld
              (mkError "categories failed")
              (or_intror (or_introl (conj eq_refl (or_intror eq_refl)))))
    as (w' & Hrun & Hcalls & Hs).
  exists w'. split; [exact Hrun|]. split; [exact Hcalls|].
  rewrite Hs. vm_compute. reflexivity.
Defined.

Lemma prefetchProductDetail_related_failure_witness :
  ∃ w',
    Ssr.prefetchProductDetail Demo.offlineEnv "1" Demo.usedWorld = (Ok tt, w') ∧
    Ssr.calls w'
    = [ Ssr.CGetProduct "1";
        Ssr.CDispatchProduct (Ssr.SET_CURRENT_PRODUCT (Demo.shoe "1"));
        Ssr.CGetProducts (relatedQuery (JStr "shoes"));
        Ssr.CConsoleError Ssr.RelatedPrefetchFailed (mkError "fetch failed");
        Ssr.CDispatchProduct (Ssr.SET_RELATED_PRODUCTS []) ].
Proof.
  apply (prefetchProductDetail_related_failure Demo.offlineEnv "1"
           Demo.usedWorld (Demo.shoe "1") (JStr "shoes")
           (mkError "fetch failed") eq_refl eq_refl eq_refl (or_introl eq_refl)).
Defined.

Lemma prefetchProductDetail_single_request_witness :
  ∃ w',
    Ssr.prefetchProductDetail Demo.env "404" Demo.usedWorld = (Ok tt, w') ∧
    Ssr.calls w'
    = [ Ssr.CGetProduct "404";
        Ssr.CConsoleError Ssr.DetailPrefetchFailed (mkError "Product not found");
        Ssr.CDispatchProduct (Ssr.SET_ERROR "Product not found") ].
Proof.
  apply (proj1 (prefetchProductDetail_single_request Demo.env "404"
                  Demo.usedWorld) (mkError "Product not found") eq_refl).
Defined.

Lemma render_list_prefetch_witness :
  ∃ tail,
    Ssr.calls (Ssr.render Demo.env "/no/such/page" JUndefined Demo.usedWorld).2
    = [ Ssr.CFindRoute "/no/such/page" "";
        Ssr.CSetServerRoute (Ssr.mkServerRoute "/no/such/page" (JObj []) ∅) ]
      ++ initCalls Demo.env
      ++ [ Ssr.CGetProducts (JObj []); Ssr.CGetCategories ]
      ++ tail ∧
    forallb (λ c, negb (isHttpCall c)) tail = true.
Proof.
  apply (render_list_prefetch Demo.env "/no/such/page" JUndefined
           Demo.usedWorld).
  vm_compute. discriminate.
Defined.

(** ** Further properties of the server *)

Section AssetFacts.

Implicit Types s t p : string.

Lemma rev_app_acc s acc :
  String.rev_app s acc = String.rev_app s "" +:+ acc.
Proof.
  revert acc. induction s as [|c s IH]; intros acc; [done|].
  cbn [String.rev_app]. rewrite (IH (String c acc)), (IH (String c "")).
  by rewrite app_app_assoc.
Qed.

Lemma rev_append s t : String.rev (s +:+ t) = String.rev t +:+ String.rev s.
Proof.
  unfold String.rev. induction s as [|c s IH].
  - by rewrite app_empty_r.
  - rewrite app_cons. cbn [String.rev_app].
    rewrite rev_app_acc, IH, (rev_app_acc s (String c "")).
    by rewrite app_app_assoc.
Qed.

Lemma startsWith_app p s : JsString.startsWith (p +:+ s) p = true.
Proof. unfold JsString.startsWith. by rewrite dropPrefix_app. Qed.

Lemma endsWith_app s t p :
  JsString.endsWith t p = true → JsString.endsWith (s +:+ t) p = true.
Proof.
  unfold JsString.endsWith, JsString.startsWith. rewrite rev_append.
  destruct (JsString.dropPrefix (String.rev p) (String.rev t)) as [r|] eqn:H;
    [|done].
  by rewrite (dropPrefix_app_r _ _ _ _ H).
Qed.

Lemma find_first {A} (f : A → bool) pre x post :
  Forall (λ y, f y = false) pre → f x = true →
  find f (pre ++ x :: post) = Some x.
Proof.
  intros Hpre Hx. induction Hpre as [|y pre Hy _ IH]; cbn [app find].
  - by rewrite Hx.
  - by rewrite Hy.
Qed.

Lemma find_none {A} (f : A → bool) l :
  Forall (λ y, f y = false) l → find f l = None.
Proof.
  intros H. induction H as [|y l Hy _ IH]; [done|].
  cbn [find]. by rewrite Hy.
Qed.

(** X8: outside production the asset names are [index.js] and [index.css]
    and the assets directory is not consulted; in production the script
    path starts with [assets/] and ends in [.js], and the style sheet path
    starts with [assets/] and ends in [.css], whatever the directory holds
    and also when it cannot be read. *)
Theorem findAssetFiles_names env :
  (Server.prod env = false →
   Server.findAssetFiles env = Server.mkAssets "index.js" "index.css") ∧
  (Server.prod env = true →
   JsString.startsWith (Server.js (Server.findAssetFiles env)) "assets/" = true ∧
   JsString.endsWith (Server.js (Server.findAssetFiles env)) ".js" = true ∧
   JsString.startsWith (Server.css (Server.findAssetFiles env)) "assets/" = true ∧
   JsString.endsWith (Server.css (Server.findAssetFiles env)) ".css" = true).
Proof.
  unfold Server.findAssetFiles. split; intros ->; [done|].
  cbn [negb]. destruct (Server.assetsDir env) as [files|e]; [|done].
  cbn [Server.js Server.css].
  destruct (find (Server.isIndexFile ".js") files) as [jsFile|] eqn:Hj;
    destruct (find (Server.isIndexFile ".css") files) as [cssFile|] eqn:Hc;
    repeat match goal with
           | H : find _ _ = Some _ |- _ =>
               apply find_some in H as [_ H];
               apply andb_prop in H as [_ H]
           end;
    repeat split;
    try apply startsWith_app; try (by apply endsWith_app); done.
Qed.

(** X9: in production the script is the first file of the directory listing
    named [index-*.js], and the fallback [assets/index.js] is used when the
    listing holds no such file; likewise for the style sheet. *)
Theorem findAssetFiles_first_match env files :
  Server.prod env = true →
  Server.assetsDir env = Ok files →
  (∀ pre f post,
     files = pre ++ f :: post →
     Forall (λ g, Server.isIndexFile ".js" g = false) pre →
     Server.isIndexFile ".js" f = true →
     Server.js (Server.findAssetFiles env) = "assets/" +:+ f) ∧
  (Forall (λ g, Server.isIndexFile ".js" g = false) files →
   Server.js (Server.findAssetFiles env) = "assets/index.js") ∧
  (∀ pre f post,
     files = pre ++ f :: post →
     Forall (λ g, Server.isIndexFile ".css" g = false) pre →
     Server.isIndexFile ".css" f = true →
     Server.css (Server.findAssetFiles env) = "assets/" +:+ f) ∧
  (Forall (λ g, Server.isIndexFile ".css" g = false) files →
   Server.css (Server.findAssetFiles env) = "assets/index.css").
Proof.
  intros Hprod Hdir. unfold Server.findAssetFiles. rewrite Hprod, Hdir.
  cbn [negb Server.js Server.css].
  split; [|split; [|split]].
  - intros pre f post -> Hpre Hf. by rewrite (find_first _ _ _ _ Hpre Hf).
  - intros Hnone. by rewrite (find_none _ _ Hnone).
  - intros pre f post -> Hpre Hf. by rewrite (find_first _ _ _ _ Hpre Hf).
  - intros Hnone. by rewrite (find_none _ _ Hnone).
Qed.

(** X10: the middleware replaces the base by [/] before rendering: a request
    for the base followed by [rest] is answered with what [render] returns
    for [/] followed by [rest] (query string included), and is handed to
    [next] when that [render] call rejects. *)
Theorem ssrMiddleware_strips_base E env req w rest :
  Server.originalUrl req = Server.base env +:+ rest →
  Server.ssrMiddleware E env req w
  = match Ssr.render E ("/" +:+ rest) (Server.query req) w with
    | (Ok html, w') =>
        (Server.Sent [("Content-Type", "text/html")]
           (Server.createHtmlTemplate html (Server.base env) (Server.prod env)
              (Server.assetFiles env)), w')
    | (Throw error, w') =>
        (Server.Next error, logged [Ssr.CConsoleError Ssr.ServerSsrError error] w')
    end.
Proof.
  intros Hurl. unfold Server.ssrMiddleware. rewrite Hurl.
  assert (JsString.replace (Server.base env +:+ rest) (Server.base env) "/"
          = "/" +:+ rest) as ->.
  { unfold JsString.replace.
    assert (JsString.splitFirst (Server.base env) (Server.base env +:+ rest)
            = Some ("", rest)) as ->.
    { destruct (Server.base env +:+ rest) eqn:Hs;
        cbn [JsString.splitFirst]; rewrite <- ?Hs; by rewrite dropPrefix_app. }
    reflexivity. }
  reflexivity.
Qed.

End AssetFacts.

Lemma findAssetFiles_names_witness :
  Server.findAssetFiles Demo.processEnv
  = Server.mkAssets "assets/index-abc.js" "assets/index-abc.css" ∧
  JsString.endsWith (Server.js (Server.findAssetFiles Demo.processEnv)) ".js"
  = true.
Proof.
  split; [reflexivity|].
  apply (proj2 (findAssetFiles_names Demo.processEnv) eq_refl).
Defined.

Lemma findAssetFiles_first_match_witness :
  Server.js (Server.findAssetFiles Demo.processEnv) = "assets/" +:+ "index-abc.js".
Proof.
  apply (proj1 (findAssetFiles_first_match Demo.processEnv
                  ["index-abc.css"; "index-abc.js"; "logo.svg"]
                  eq_refl eq_refl)
           ["index-abc.css"] "index-abc.js" ["logo.svg"] eq_refl).
  - repeat constructor.
  - reflexivity.
Defined.

Lemma ssrMiddleware_strips_base_witness :
  Server.ssrMiddleware Demo.env Demo.processEnv
    (Server.mkRequest "/front_7th_chapter4-1/vanilla/product/1?tab=2" JNull)
    Demo.usedWorld
  = match Ssr.render Demo.env "/product/1?tab=2" JNull Demo.usedWorld with
    | (Ok html, w') =>
        (Server.Sent [("Content-Type", "text/html")]
           (Server.createHtmlTemplate html (Server.base Demo.processEnv)
              (Server.prod Demo.processEnv)
              (Server.assetFiles Demo.processEnv)), w')
    | (Throw error, w') =>
        (Server.Next error,
         logged [Ssr.CConsoleError Ssr.ServerSsrError error] w')
    end.
Proof.
  exact (ssrMiddleware_strips_base Demo.env Demo.processEnv
           (Server.mkRequest "/front_7th_chapter4-1/vanilla/product/1?tab=2" JNull)
           Demo.usedWorld "product/1?tab=2" eq_refl).
Defined.

(** ** Further properties of the static-site generator *)

Section GeneratorFacts.

Context (E : Ssg.Env).

Implicit Types (st : Ssg.State) (ids : list JsVal).

Lemma gbind_run {A B} (m : Ssg.G A) (f : A → Ssg.G B) st :
  (m ≫= f) st
  = match m st with
    | (Ok a, st') => f a st'
    | (Throw e, st') => (Throw e, st')
    end.
Proof. reflexivity. Qed.

Lemma gbind_lift {A B} (r : Result A) (f : A → Ssg.G B) st :
  (Ssg.lift r ≫= f) st
  = match r with Ok a => f a st | Throw e => (Throw e, st) end.
Proof. by destruct r. Qed.

(** Reading the product ids leaves the state as it is and cannot fail. *)
Lemma firstItems_state paths st :
  (Ssg.firstItems E paths st).2 = st.
Proof.
  induction paths as [|p paths IH]; [done|].
  cbn [Ssg.firstItems]. rewrite gbind_run. unfold Ssg.existsSync at 1.
  destruct (Fs.existsSync (Ssg.fs st) p); [|apply IH].
  rewrite gbind_run. unfold Ssg.readFileSync.
  destruct (Fs.readFileSync (Ssg.fs st) p) as [text|e]; [|done].
  rewrite gbind_lift. destruct (Ssg.JSON_parse E text) as [items|e]; [|done].
  unfold Ssg.lift. done.
Qed.

Lemma getAllProductIds_total st :
  Ssg.getAllProductIds E st
  = (Ok (match (Ssg.firstItems E (Ssg.possiblePaths E) st).1 with
         | Ok ids => ids
         | Throw _ => []
         end), st).
Proof.
  unfold Ssg.getAllProductIds, Ssg.tryCatch.
  pose proof (firstItems_state (Ssg.possiblePaths E) st) as Hst.
  destruct (Ssg.firstItems E (Ssg.possiblePaths E) st) as [[ids|e] st'];
    cbn [snd fst] in *; by subst.
Qed.

Lemma firstItems_first pre p post st :
  Forall (λ q, Fs.existsSync (Ssg.fs st) q = false) pre →
  Fs.existsSync (Ssg.fs st) p = true →
  (Ssg.firstItems E (pre ++ p :: post) st).1
  = rbind (Fs.readFileSync (Ssg.fs st) p) (λ text,
    rbind (Ssg.JSON_parse E text) Ssg.mapProductIds).
Proof.
  intros Hpre Hp. induction Hpre as [|q pre Hq _ IH].
  - cbn [app Ssg.firstItems]. rewrite gbind_run. unfold Ssg.existsSync at 1.
    rewrite Hp, gbind_run. unfold Ssg.readFileSync.
    destruct (Fs.readFileSync (Ssg.fs st) p) as [text|e]; [|done].
    rewrite gbind_lift. cbn [rbind].
    destruct (Ssg.JSON_parse E text) as [items|e]; done.
  - cbn [app Ssg.firstItems]. rewrite gbind_run. unfold Ssg.existsSync at 1.
    by rewrite Hq.
Qed.

Lemma firstItems_none paths st :
  Forall (λ q, Fs.existsSync (Ssg.fs st) q = false) paths →
  ∃ e, (Ssg.firstItems E paths st).1 = Throw e.
Proof.
  intros H. induction H as [|q paths Hq _ IH]; [by eexists|].
  cbn [Ssg.firstItems]. rewrite gbind_run. unfold Ssg.existsSync at 1.
  by rewrite Hq.
Qed.

(** X11: [getAllProductIds] never throws and changes nothing.  It consults
    only the first of its three candidate paths that exists: the ids are the
    [productId]s of that file's items, in order, and the empty list when the
    file cannot be read or parsed, is not an array, or holds a [null] item,
    whatever the later candidates hold; and the empty list when no candidate
    exists. *)
Theorem getAllProductIds_first_existing st :
  (∃ ids, Ssg.getAllProductIds E st = (Ok ids, st)) ∧
  (Forall (λ q, Fs.existsSync (Ssg.fs st) q = false) (Ssg.possiblePaths E) →
   Ssg.getAllProductIds E st = (Ok [], st)) ∧
  (∀ pre p post,
     Ssg.possiblePaths E = pre ++ p :: post →
     Forall (λ q, Fs.existsSync (Ssg.fs st) q = false) pre →
     Fs.existsSync (Ssg.fs st) p = true →
     Ssg.getAllProductIds E st
     = (Ok (match rbind (Fs.readFileSync (Ssg.fs st) p) (λ text,
                  rbind (Ssg.JSON_parse E text) Ssg.mapProductIds) with
            | Ok ids => ids
            | Throw _ => []
            end), st)).
Proof.
  split; [|split].
  - rewrite getAllProductIds_total. by eexists.
  - intros Hnone. rewrite getAllProductIds_total.
    by destruct (firstItems_none _ _ Hnone) as [e ->].
  - intros pre p post Hpaths Hpre Hp. rewrite getAllProductIds_total, Hpaths.
    by rewrite (firstItems_first _ _ _ _ Hpre Hp).
Qed.

(** The loop over the product ids never throws; each id adds one to one of
    the counters. *)
Lemma generateProductPages_run ids s f st :
  ∃ s' f' st',
    Ssg.generateProductPages E ids s f st = (Ok (s', f'), st') ∧
    s' + f' = s + f + length ids ∧ s ≤ s' ∧ f ≤ f'.
Proof.
  revert s f st. induction ids as [|id ids IH]; intros s f st.
  - exists s, f, st. cbn [length]. split; [done|]. lia.
  - cbn [Ssg.generateProductPages]. rewrite gbind_run.
    unfold Ssg.tryCatch at 1.
    destruct ((Ssg.generateProductPage E id ;; mret true) st)
      as [[done|e] st1].
    + destruct done.
      * destruct (IH (S s) f st1) as (s' & f' & st' & -> & H1 & H2 & H3).
        exists s', f', st'. cbn [length]. split; [done|]. lia.
      * destruct (IH s (S f) st1) as (s' & f' & st' & -> & H1 & H2 & H3).
        exists s', f', st'. cbn [length]. split; [done|]. lia.
    + cbn. destruct (IH s (S f) st1) as (s' & f' & st' & -> & H1 & H2 & H3).
      exists s', f', st'. cbn [length]. split; [done|]. lia.
Qed.

Lemma generatePlainPage_ok url fileName st :
  ∃ st', Ssg.generatePlainPage E url fileName st = (Ok tt, st').
Proof.
  unfold Ssg.generatePlainPage, Ssg.tryCatch.
  match goal with
  | |- ∃ _, match ?m with _ => _ end = _ => destruct m as [[[]|e] st']
  end; by eexists.
Qed.

(** The ids depend on the file system only. *)
Lemma firstItems_fs paths st st0 :
  Ssg.fs st = Ssg.fs st0 →
  (Ssg.firstItems E paths st).1 = (Ssg.firstItems E paths st0).1.
Proof.
  intros Hfs. induction paths as [|p paths IH]; [done|].
  cbn [Ssg.firstItems]. rewrite !gbind_run. unfold Ssg.existsSync.
  rewrite Hfs. destruct (Fs.existsSync (Ssg.fs st0) p); [|apply IH].
  rewrite !gbind_run. unfold Ssg.readFileSync. rewrite Hfs.
  destruct (Fs.readFileSync (Ssg.fs st0) p) as [text|e]; [|done].
  rewrite !gbind_lift. by destruct (Ssg.JSON_parse E text).
Qed.

Lemma getAllProductIds_fs st st0 :
  Ssg.fs st = Ssg.fs st0 →
  (Ssg.getAllProductIds E st).1 = (Ssg.getAllProductIds E st0).1.
Proof.
  intros Hfs. rewrite !getAllProductIds_total. cbn [fst].
  by rewrite (firstItems_fs _ st st0 Hfs).
Qed.

(** X12: [generateStaticSite] never rejects: it exits with code 1, or it
    reports a success count and a failure count that add up to the number
    of product ids it has read, which are those [getAllProductIds] returns
    in the state the home page has been generated in. *)
Theorem generateStaticSite_counts st :
  let st1 :=
    (Ssg.generatePlainPage E (Ssg.BASE_URL +:+ "/") "index.html" st).2 in
  ∃ st',
    (Ssg.generateStaticSite E st = (Ok (Ssg.Exit 1), st')) ∨
    (∃ s f ids,
       Ssg.generateStaticSite E st = (Ok (Ssg.Generated s f), st') ∧
       Ssg.getAllProductIds E st1 = (Ok ids, st1) ∧
       s + f = length ids).
Proof.
  intros st1.
  destruct (Ssg.generateStaticSite E st) as [r st'] eqn:Hrun.
  exists st'. revert Hrun.
  unfold Ssg.generateStaticSite. rewrite gbind_run. unfold Ssg.existsSync at 1.
  destruct (Fs.existsSync (Ssg.fs st) _); cbn [negb];
    [|intros [= <- <-]; by left].
  rewrite gbind_run. unfold Ssg.existsSync at 1.
  destruct (Fs.existsSync (Ssg.fs st) _); cbn [negb];
    [|intros [= <- <-]; by left].
  rewrite gbind_run.
  destruct (generatePlainPage_ok (Ssg.BASE_URL +:+ "/") "index.html" st)
    as [st1' Hhome].
  assert (st1 = st1') as -> by (unfold st1; by rewrite Hhome).
  rewrite Hhome.
  rewrite gbind_run, getAllProductIds_total.
  set (ids := match _ with Ok ids => ids | Throw _ => [] end).
  rewrite gbind_run.
  destruct (generateProductPages_run ids 0 0 st1')
    as (s & f & st2 & -> & Hsum & _ & _).
  rewrite gbind_run.
  destruct (generatePlainPage_ok (Ssg.BASE_URL +:+ "/not-found-page")
              "404.html" st2) as [st3 ->].
  intros [= <- <-]. right. exists s, f, ids.
  split; [done|]. split; [done|]. lia.
Qed.

(** X13: when the server build or the [dist/vanilla] directory is missing,
    [generateStaticSite] exits with code 1 before rendering or writing
    anything. *)
Theorem generateStaticSite_missing_build st :
  Fs.existsSync (Ssg.fs st)
    (Path.joinStrings [Ssg.__dirname E; "dist/vanilla-ssr/main-server.js"])
  = false ∨
  Fs.existsSync (Ssg.fs st) (Ssg.distDir E) = false →
  Ssg.generateStaticSite E st = (Ok (Ssg.Exit 1), st).
Proof.
  intros H. unfold Ssg.generateStaticSite. rewrite gbind_run.
  unfold Ssg.existsSync at 1.
  destruct (Fs.existsSync (Ssg.fs st) (Path.joinStrings [_; "dist/vanilla-ssr/main-server.js"]))
    eqn:Hb; cbn [negb]; [|done].
  rewrite gbind_run. unfold Ssg.existsSync at 1.
  destruct H as [H|H]; [done|]. by rewrite H.
Qed.

End GeneratorFacts.

Section TemplateFacts.

Context (E : Ssg.Env).

Implicit Types (st : Ssg.State) (ids : list JsVal).

(** X14: a template without the two placeholders is returned as it is when
    [initialData] is falsy, and also, whatever [initialData] is, when the
    template has no [</body>]: the initial data is then left out without an
    error. *)
Theorem fillTemplate_without_markers
    (stringify : JsVal → string) template html initialData :
  JsString.includes template "<!--app-html-->" = false →
  JsString.includes template "<!--app-head-->" = false →
  Js.truthy initialData = false ∨ JsString.includes template "</body>" = false →
  Ssg.fillTemplate stringify template html initialData = template.
Proof.
  unfold JsString.includes. intros H1 H2 H3.
  assert (∀ pat, match JsString.splitFirst pat template with
                 | Some _ => true | None => false end = false →
                 JsString.splitFirst pat template = None) as Hnone.
  { intros pat H. by destruct (JsString.splitFirst pat template). }
  apply Hnone in H1. apply Hnone in H2.
  unfold Ssg.fillTemplate.
  rewrite (replace_absent _ _ _ H1), (replace_absent _ _ _ H2).
  destruct (Js.truthy (Js.default initialData JNull)) eqn:Ht; [|done].
  destruct H3 as [H3|H3].
  - destruct initialData; cbn in Ht, H3; congruence.
  - apply Hnone in H3. by rewrite (replace_absent _ _ _ H3).
Qed.

Lemma createHtmlTemplate_no_template html initialData st :
  Fs.files (Ssg.fs st) !! Ssg.templatePath E = None →
  ∃ e, Ssg.createHtmlTemplate E html initialData st = (Throw e, st).
Proof.
  intros H. unfold Ssg.createHtmlTemplate. rewrite gbind_run.
  unfold Ssg.readFileSync, Fs.readFileSync. rewrite H. by eexists.
Qed.

Lemma liftSsr_fs {A} (m : Ssr.M A) st :
  Ssg.fs (Ssg.liftSsr m st).2 = Ssg.fs st.
Proof. unfold Ssg.liftSsr. by destruct (m (Ssg.world st)). Qed.

Lemma generateProductPage_no_template id st :
  Fs.files (Ssg.fs st) !! Ssg.templatePath E = None →
  ∃ e st',
    Ssg.generateProductPage E id st = (Throw e, st') ∧
    Fs.files (Ssg.fs st') = Fs.files (Ssg.fs st).
Proof.
  intros H. unfold Ssg.generateProductPage. rewrite gbind_run.
  pose proof (liftSsr_fs (Ssr.render (Ssg.ssr E)
                (Ssg.BASE_URL +:+ "/product/" +:+ Js.toString id) (JObj [])) st)
    as Hfs.
  destruct (Ssg.liftSsr _ st) as [[rendered|e] st1]; cbn [snd] in Hfs;
    [|eexists _, _; split; [done|by rewrite Hfs]].
  rewrite gbind_lift.
  destruct (Ssg.destructure rendered) as [[html data]|e];
    [|eexists _, _; split; [done|by rewrite Hfs]].
  rewrite gbind_lift.
  destruct (Path.join _) as [productDir|e];
    [|eexists _, _; split; [done|by rewrite Hfs]].
  rewrite gbind_run. unfold Ssg.existsSync at 1.
  destruct (Fs.existsSync (Ssg.fs st1) productDir); cbn [negb].
  - rewrite gbind_run. cbn [mret Ssg.G_ret]. rewrite gbind_run.
    destruct (createHtmlTemplate_no_template html data st1) as [e ->];
      [by rewrite Hfs|].
    eexists _, _; split; [done|by rewrite Hfs].
  - rewrite gbind_run. unfold Ssg.mkdirSync at 1.
    set (st2 := Ssg.mkState _ _).
    destruct (createHtmlTemplate_no_template html data st2) as [e He].
    { unfold st2. cbn. by rewrite Hfs. }
    rewrite gbind_run, He.
    eexists _, _; split; [done|]. unfold st2. cbn. by rewrite Hfs.
Qed.

Lemma generateProductPages_no_template ids s f st :
  Fs.files (Ssg.fs st) !! Ssg.templatePath E = None →
  ∃ st',
    Ssg.generateProductPages E ids s f st = (Ok (s, f + length ids), st') ∧
    Fs.files (Ssg.fs st') = Fs.files (Ssg.fs st).
Proof.
  revert f st. induction ids as [|id ids IH]; intros f st H.
  - exists st. cbn [Ssg.generateProductPages length]. split; [|done].
    by rewrite Nat.add_0_r.
  - cbn [Ssg.generateProductPages]. rewrite gbind_run.
    unfold Ssg.tryCatch at 1. rewrite gbind_run.
    destruct (generateProductPage_no_template id st H) as (e & st1 & -> & Hfs).
    cbn [mret Ssg.G_ret].
    destruct (IH (S f) st1) as (st' & -> & Hfs'); [by rewrite Hfs|].
    exists st'. cbn [length]. split; [f_equal; f_equal; f_equal; lia|].
    by rewrite Hfs'.
Qed.

Lemma generatePlainPage_no_template url fileName st :
  Fs.files (Ssg.fs st) !! Ssg.templatePath E = None →
  ∃ st',
    Ssg.generatePlainPage E url fileName st = (Ok tt, st') ∧
    Ssg.fs st' = Ssg.fs st.
Proof.
  intros H. unfold Ssg.generatePlainPage, Ssg.tryCatch. rewrite gbind_run.
  pose proof (liftSsr_fs (Ssr.render (Ssg.ssr E) url (JObj [])) st) as Hfs.
  destruct (Ssg.liftSsr _ st) as [[rendered|e] st1]; cbn [snd] in Hfs;
    [|by eexists].
  rewrite gbind_lift.
  destruct (Ssg.destructure rendered) as [[html data]|e]; [|by eexists].
  rewrite gbind_run.
  destruct (createHtmlTemplate_no_template html data st1) as [e ->];
    [by rewrite Hfs|].
  by eexists.
Qed.

(** X15: when the page template [dist/vanilla/index.html] is missing,
    [generateStaticSite] still runs to its end: every product id, as
    [getAllProductIds] reads them from the disk the run starts on, is
    counted as failed, none as generated, and no file is written or
    changed. *)
Theorem generateStaticSite_no_template st :
  Fs.existsSync (Ssg.fs st)
    (Path.joinStrings [Ssg.__dirname E; "dist/vanilla-ssr/main-server.js"])
  = true →
  Fs.existsSync (Ssg.fs st) (Ssg.distDir E) = true →
  Fs.files (Ssg.fs st) !! Ssg.templatePath E = None →
  ∃ st' ids,
    Ssg.generateStaticSite E st = (Ok (Ssg.Generated 0 (length ids)), st') ∧
    Ssg.getAllProductIds E st = (Ok ids, st) ∧
    Fs.files (Ssg.fs st') = Fs.files (Ssg.fs st).
Proof.
  intros Hb Hd Ht.
  destruct (Ssg.generateStaticSite E st) as [r st'] eqn:Hrun.
  revert Hrun.
  unfold Ssg.generateStaticSite. rewrite gbind_run. unfold Ssg.existsSync at 1.
  rewrite Hb. cbn [negb].
  rewrite gbind_run. unfold Ssg.existsSync at 1. rewrite Hd. cbn [negb].
  rewrite gbind_run.
  destruct (generatePlainPage_no_template (Ssg.BASE_URL +:+ "/") "index.html"
              st Ht) as (st1 & -> & Hfs1).
  rewrite gbind_run.
  pose proof (getAllProductIds_fs E st1 st Hfs1) as Hids.
  rewrite (getAllProductIds_total E st1) in Hids |- *.
  rewrite (getAllProductIds_total E st) in Hids. cbn [fst] in Hids.
  set (ids := match _ with Ok ids => ids | Throw _ => [] end) in Hids |- *.
  rewrite gbind_run.
  destruct (generateProductPages_no_template ids 0 0 st1)
    as (st2 & -> & Hfs2); [by rewrite Hfs1|].
  rewrite gbind_run.
  destruct (generatePlainPage_no_template (Ssg.BASE_URL +:+ "/not-found-page")
              "404.html" st2) as (st3 & -> & Hfs3);
    [by rewrite Hfs2, Hfs1|].
  intros [= <- <-]. exists st3, ids. split; [done|].
  split; [by rewrite getAllProductIds_total, Hids|].
  by rewrite Hfs3, Hfs2, Hfs1.
Qed.

End TemplateFacts.

Lemma getAllProductIds_first_existing_witness :
  Ssg.getAllProductIds Demo.ssgEnv Demo.ssgState
  = (Ok [JStr "1"], Demo.ssgState).
Proof.
  rewrite (proj2 (proj2 (getAllProductIds_first_existing Demo.ssgEnv
                           Demo.ssgState))
             [] "/repo/packages/vanilla/src/mocks/items.json"
             [ "/repo/packages/src/mocks/items.json";
               "/repo/packages/vanilla/src/mocks/items.json" ]).
  - reflexivity.
  - vm_compute. reflexivity.
  - constructor.
  - vm_compute. reflexivity.
Defined.

Lemma generateStaticSite_missing_build_witness :
  Ssg.generateStaticSite Demo.ssgEnv
    (Ssg.mkState Demo.usedWorld (Fs.mkFs ∅ ∅))
  = (Ok (Ssg.Exit 1), Ssg.mkState Demo.usedWorld (Fs.mkFs ∅ ∅)).
Proof.
  apply (generateStaticSite_missing_build Demo.ssgEnv
           (Ssg.mkState Demo.usedWorld (Fs.mkFs ∅ ∅))).
  left. vm_compute. reflexivity.
Defined.

Lemma fillTemplate_without_markers_witness :
  Ssg.fillTemplate (fun _ => "{}") "<html><body>static</body></html>"
    (JStr "<main>home</main>") JNull
  = "<html><body>static</body></html>" ∧
  Ssg.fillTemplate (fun _ => "{}") "<p>fragment</p>"
    (JStr "<main>home</main>") (JObj [])
  = "<p>fragment</p>".
Proof.
  split.
  - apply (fillTemplate_without_markers (fun _ => "{}")
             "<html><body>static</body></html>" (JStr "<main>home</main>")
             JNull eq_refl eq_refl (or_introl eq_refl)).
  - apply (fillTemplate_without_markers (fun _ => "{}") "<p>fragment</p>"
             (JStr "<main>home</main>") (JObj []) eq_refl eq_refl
             (or_intror eq_refl)).
Defined.

Lemma generateStaticSite_no_template_witness :
  ∃ st' (ids : list JsVal),
    Ssg.generateStaticSite Demo.ssgEnv
      (Ssg.mkState Demo.usedWorld diskWithoutTemplate)
    = (Ok (Ssg.Generated 0 (length ids)), st') ∧
    Ssg.getAllProductIds Demo.ssgEnv
      (Ssg.mkState Demo.usedWorld diskWithoutTemplate)
    = (Ok ids, Ssg.mkState Demo.usedWorld diskWithoutTemplate) ∧
    Fs.files (Ssg.fs st') = Fs.files diskWithoutTemplate.
Proof.
  apply (generateStaticSite_no_template Demo.ssgEnv
           (Ssg.mkState Demo.usedWorld diskWithoutTemplate));
    vm_compute; reflexivity.
Defined.

(** ** The deploy script *)

Section TreeFacts.

Import Deploy.

Implicit Types (es ds : gmap string Node) (n v : Node)
  (p q : list string) (x y : string).

Lemma get_app p q n : get (p ++ q) n = get p n ≫= get q.
Proof.
  revert n. induction p as [|x p IH]; intros n; [done|].
  cbn [app get]. destruct n as [c|es]; [done|].
  destruct (es !! x); [apply IH|done].
Qed.

Lemma diverge_app p q r r' : diverge p q → diverge (p ++ r) (q ++ r').
Proof.
  revert q. induction p as [|a p IH]; intros [|b q]; cbn; try done.
  intros [H|[H1 H2]]; [by left|right]. split; [done|by apply IH].
Qed.

Lemma diverge_sym p q : diverge p q → diverge q p.
Proof.
  revert q. induction p as [|a p IH]; intros [|b q]; cbn; try done.
  intros [H|[H1 H2]]; [by left|right]. split; [done|by apply IH].
Qed.

Lemma diverge_snoc_r p q x : diverge p q → diverge p (q ++ [x]).
Proof.
  intros H. rewrite <- (app_nil_r p). by apply diverge_app.
Qed.

Lemma diverge_nonempty p q : diverge p q → p ≠ [] ∧ q ≠ [].
Proof. by destruct p, q. Qed.

Lemma get_empty_dir p : p ≠ [] → get p (Dir ∅) = None.
Proof. destruct p; [done|]. intros _. cbn [get]. by rewrite lookup_empty. Qed.

Lemma get_snoc p x n es :
  get p n = Some (Dir es) → get (p ++ [x]) n = es !! x.
Proof.
  intros H. rewrite get_app, H. cbn [mbind option_bind get].
  by destruct (es !! x).
Qed.

Lemma get_replaceAt p v n :
  is_Some (get p n) → get p (replaceAt p v n) = Some v.
Proof.
  revert n. induction p as [|x p IH]; intros n; [done|].
  cbn [get replaceAt]. destruct n as [c|es]; [by intros [? ?]|].
  destruct (es !! x) as [child|] eqn:Hx; [|by intros [? ?]].
  intros H. cbn [get]. rewrite lookup_insert_eq. by apply IH.
Qed.

Lemma get_replaceAt_diverge p q v n :
  diverge p q → get q (replaceAt p v n) = get q n.
Proof.
  revert q n. induction p as [|a p IH]; intros [|b q] n; cbn; try done.
  intros Hd. destruct n as [c|es]; [done|].
  destruct (es !! a) as [child|] eqn:Ha; [|done].
  cbn [get]. destruct Hd as [Hne|[<- Hd]].
  - by rewrite lookup_insert_ne.
  - rewrite lookup_insert_eq, Ha. by apply IH.
Qed.

Lemma replaceAt_twice p u v n :
  replaceAt p v (replaceAt p u n) = replaceAt p v n.
Proof.
  revert n. induction p as [|x p IH]; intros n; [done|].
  cbn [replaceAt]. destruct n as [c|es]; [done|].
  destruct (es !! x) as [child|] eqn:Hx; cbn [replaceAt]; [|by rewrite Hx].
  by rewrite lookup_insert_eq, insert_insert_eq, IH.
Qed.

Lemma replaceAt_child p x v es n :
  is_Some (get p n) → is_Some (es !! x) →
  replaceAt (p ++ [x]) v (replaceAt p (Dir es) n)
  = replaceAt p (Dir (<[x := v]> es)) n.
Proof.
  intros Hp [c Hx]. revert n Hp. induction p as [|a p IH]; intros n Hp.
  - cbn [app replaceAt]. by rewrite Hx.
  - cbn [get] in Hp. destruct n as [?|ns]; [by destruct Hp|].
    cbn [app replaceAt].
    destruct (ns !! a) as [child|] eqn:Ha; [|by destruct Hp].
    cbn [replaceAt]. by rewrite lookup_insert_eq, insert_insert_eq, IH.
Qed.

Lemma replaceAt_id p v n : get p n = Some v → replaceAt p v n = n.
Proof.
  revert n. induction p as [|x p IH]; intros n H; [by injection H|].
  cbn [get] in H. destruct n as [?|es]; [done|]. cbn [replaceAt].
  destruct (es !! x) as [child|] eqn:Hx; [|done].
  by rewrite (IH _ H), insert_id.
Qed.

(** An operation at a path changes nothing on the paths that part from
    it. *)
Lemma get_alterAt_diverge create f p q n n' :
  alterAt create f p n = Ok n' → diverge p q → get q n' = get q n.
Proof.
  revert q n n'. induction p as [|a p IH]; intros [|b q] n n' H Hd;
    try done.
  destruct n as [?|es]; [done|]. cbn [alterAt] in H.
  assert (∀ child child',
            alterAt create f p child = Ok child' →
            diverge (a :: p) (b :: q) →
            es !! a = Some child ∨ (es !! a = None ∧ child = Dir ∅) →
            get (b :: q) (Dir (<[a := child']> es)) = get (b :: q) (Dir es))
    as Hstep.
  { intros child child' Hc [Hne|[<- Hd']] Hchild; cbn [get].
    - by rewrite lookup_insert_ne.
    - rewrite lookup_insert_eq, (IH q child child' Hc Hd').
      destruct Hchild as [->|[-> ->]]; [done|].
      apply get_empty_dir. by destruct (diverge_nonempty _ _ Hd'). }
  destruct p as [|c p].
  - destruct Hd as [Hne|[_ []]].
    destruct (f (es !! a)) as [[v|]|]; cbn [rbind] in H; [| |done];
      injection H as <-; cbn [get].
    + by rewrite lookup_insert_ne.
    + by rewrite lookup_delete_ne.
  - destruct (es !! a) as [child|] eqn:Ha.
    + destruct (alterAt create f (c :: p) child) as [child'|] eqn:Hc;
        [|done].
      cbn [rbind] in H. injection H as <-. eapply Hstep; eauto.
    + destruct create; [|done].
      destruct (alterAt true f (c :: p) (Dir ∅)) as [child'|] eqn:Hc;
        [|done].
      cbn [rbind] in H. injection H as <-. eapply Hstep; eauto.
Qed.

(** An operation on an entry of an existing directory. *)
Lemma alterAt_child create f p x n es o :
  get p n = Some (Dir es) → f (es !! x) = Ok o →
  alterAt create f (p ++ [x]) n
  = Ok (replaceAt p
          (Dir match o with
               | Some v => <[x := v]> es
               | None => delete x es
               end) n).
Proof.
  intros Hp Hf. revert n Hp. induction p as [|a p IH]; intros n Hp.
  - injection Hp as ->. cbn [app alterAt replaceAt]. by rewrite Hf.
  - cbn [get] in Hp. destruct n as [?|ns]; [done|].
    destruct (ns !! a) as [child|] eqn:Ha; [|done].
    cbn [app alterAt replaceAt]. rewrite Ha.
    destruct (p ++ [x]) as [|b r] eqn:Hr; [by destruct p|].
    by rewrite (IH _ Hp).
Qed.

End TreeFacts.

Section CopyFacts.

Import Deploy.

Implicit Types (es ds : gmap string Node) (n v : Node)
  (p q src dest dir : list string) (x y k : string)
  (l : list (string * bool)) (order : Listing).

Lemma dbind_run {A B} (m : D A) (f : A → D B) n :
  (m ≫= f) n
  = match m n with
    | (Ok a, n') => f a n'
    | (Throw e, n') => (Throw e, n')
    end.
Proof. reflexivity. Qed.

(** The entries of a listing are those of the directory. *)
Lemma listing_entry order es k b :
  arranges order →
  (k, b) ∈ order ((λ e, (e.1, isDirectory e.2)) <$> map_to_list es)
  ↔ ∃ c, es !! k = Some c ∧ b = isDirectory c.
Proof.
  intros Ho. rewrite (Ho _), list_elem_of_fmap. split.
  - intros [[k' c] [[= -> ->] Hin]]. exists c.
    by apply elem_of_map_to_list in Hin.
  - intros (c & Hk & ->). exists (k, c). split; [done|].
    by apply elem_of_map_to_list.
Qed.

Lemma listing_names order es :
  arranges order →
  (order ((λ e, (e.1, isDirectory e.2)) <$> map_to_list es)).*1
  ≡ₚ (map_to_list es).*1.
Proof.
  intros Ho. rewrite (Ho _).
  induction (map_to_list es) as [|[k c] l' IH]; [done|].
  cbn [fmap list_fmap fst]. by f_equiv.
Qed.

Lemma listing_NoDup order es :
  arranges order →
  NoDup (order ((λ e, (e.1, isDirectory e.2)) <$> map_to_list es)).*1.
Proof.
  intros Ho. rewrite (listing_names _ _ Ho). apply NoDup_fst_map_to_list.
Qed.

Lemma height_child es k c : es !! k = Some c → height c < height (Dir es).
Proof.
  intros Hk. cbn [height]. rewrite map_fold_foldr.
  apply elem_of_map_to_list in Hk. apply Nat.lt_succ_r.
  induction (map_to_list es) as [|[k' c'] l' IH]; [by apply elem_of_nil in Hk|].
  cbn [foldr uncurry]. apply elem_of_cons in Hk as [[= <- <-]|Hk]; [lia|].
  specialize (IH Hk). cbn [uncurry] in IH. lia.
Qed.

Lemma fileCount_Dir es :
  fileCount (Dir es) = sum_list ((λ e, fileCount e.2) <$> map_to_list es).
Proof.
  cbn [fileCount]. rewrite map_fold_foldr.
  induction (map_to_list es) as [|[k c] l' IH]; [done|].
  cbn [foldr uncurry fmap list_fmap sum_list snd]. cbn [uncurry] in IH.
  by rewrite IH.
Qed.

Lemma sum_list_Permutation (l1 l2 : list nat) :
  l1 ≡ₚ l2 → sum_list l1 = sum_list l2.
Proof. induction 1; cbn [sum_list]; lia. Qed.

(** The loop of [copyDirectory]: the entries listed are added to the
    destination, whatever their order. *)
Lemma copyEntries_run recur src dest es l :
  diverge src dest →
  NoDup l.*1 →
  (∀ k b, (k, b) ∈ l → ∃ c, es !! k = Some c ∧ b = isDirectory c) →
  (∀ k sub n1,
     es !! k = Some (Dir sub) →
     get (src ++ [k]) n1 = Some (Dir sub) →
     get (dest ++ [k]) n1 = Some (Dir ∅) →
     recur (src ++ [k]) (dest ++ [k]) n1
     = (Ok tt, replaceAt (dest ++ [k]) (Dir sub) n1)) →
  ∀ ds n,
    get src n = Some (Dir es) →
    get dest n = Some (Dir ds) →
    (∀ k b, (k, b) ∈ l → ds !! k = None) →
    ∃ ds',
      copyEntries recur src dest l n = (Ok tt, replaceAt dest (Dir ds') n) ∧
      ∀ k, ds' !! k = if decide (k ∈ l.*1) then es !! k else ds !! k.
Proof.
  intros Hdiv Hnd Hl Hrec.
  induction l as [|[k0 b0] l IH]; intros ds n Hsrc Hdest Hfresh.
  { exists ds. split; [|done].
    cbn [copyEntries]. by rewrite (replaceAt_id _ _ _ Hdest). }
  cbn [fmap list_fmap fst] in Hnd. apply NoDup_cons in Hnd as [Hk0 Hnd].
  destruct (Hl k0 b0) as (c & Hc & ->); [by left|].
  assert (ds !! k0 = None) as Hd0 by (apply (Hfresh k0 (isDirectory c)); by left).
  set (n1 := replaceAt dest (Dir (<[k0 := c]> ds)) n).
  assert ((if isDirectory c
           then write (mkdirSync (dest ++ [k0])) ;;
                recur (src ++ [k0]) (dest ++ [k0])
           else write (copyFileSync (src ++ [k0]) (dest ++ [k0]))) n
          = (Ok tt, n1)) as Hhead.
  { destruct c as [content|sub]; cbn [isDirectory].
    - unfold write, copyFileSync.
      rewrite (get_snoc _ _ _ _ Hsrc), Hc. unfold writeFileSync.
      rewrite (alterAt_child _ _ _ _ _ ds (Some (File content)) Hdest);
        [done|by rewrite Hd0].
    - rewrite dbind_run. unfold write at 1, mkdirSync.
      rewrite (alterAt_child _ _ _ _ _ ds (Some (Dir ∅)) Hdest);
        [|by rewrite Hd0].
      set (n0 := replaceAt dest (Dir (<[k0 := Dir ∅]> ds)) n).
      assert (is_Some (get dest n)) as Hsome by (by rewrite Hdest).
      rewrite (Hrec k0 sub n0 Hc).
      + unfold n0, n1. rewrite replaceAt_child; [|done|].
        * by rewrite insert_insert_eq.
        * by rewrite lookup_insert_eq.
      + unfold n0. rewrite get_replaceAt_diverge.
        * by rewrite (get_snoc _ _ _ _ Hsrc).
        * by apply diverge_snoc_r, diverge_sym.
      + rewrite (get_snoc _ _ _ (<[k0 := Dir ∅]> ds)).
        * by rewrite lookup_insert_eq.
        * unfold n0. by apply get_replaceAt. }
  cbn [copyEntries]. rewrite dbind_run, Hhead.
  assert (is_Some (get dest n)) as Hsome by (by rewrite Hdest).
  destruct (IH Hnd) with (ds := <[k0 := c]> ds) (n := n1)
    as (ds' & Hrun & Hlook).
  - intros k b Hin. apply Hl. by right.
  - unfold n1. rewrite get_replaceAt_diverge; [done|by apply diverge_sym].
  - unfold n1. by apply get_replaceAt.
  - intros k b Hin. rewrite lookup_insert_ne.
    + apply (Hfresh k b). by right.
    + intros ->. apply Hk0. by apply (list_elem_of_fmap_2 fst _ (k, b)).
  - exists ds'. split.
    + rewrite Hrun. unfold n1. by rewrite replaceAt_twice.
    + intros k. rewrite Hlook. cbn [fmap list_fmap fst].
      destruct (decide (k = k0)) as [->|Hne].
      * rewrite (decide_False (P := k0 ∈ l.*1)) by done.
        rewrite (decide_True (P := k0 ∈ k0 :: l.*1)) by (by left).
        by rewrite lookup_insert_eq.
      * rewrite lookup_insert_ne by done.
        destruct (decide (k ∈ l.*1)) as [Hin|Hnin].
        -- rewrite decide_True; [done|by right].
        -- rewrite decide_False; [done|].
           intros [?|?]%elem_of_cons; done.
Qed.

(** [copyDirectory] into an empty directory elsewhere puts the tree of the
    source there. *)
Lemma copyDirectory_run order depth src dest n es :
  arranges order →
  diverge src dest →
  get src n = Some (Dir es) →
  get dest n = Some (Dir ∅) →
  height (Dir es) ≤ depth →
  copyDirectory order depth src dest n = (Ok tt, replaceAt dest (Dir es) n).
Proof.
  intros Ho. revert src dest n es.
  induction depth as [|depth IH]; intros src dest n es Hdiv Hsrc Hdest Hh.
  { cbn [height] in Hh. lia. }
  cbn [copyDirectory]. rewrite dbind_run. unfold read, readdirSync.
  rewrite Hsrc.
  set (l := order _).
  destruct (copyEntries_run (copyDirectory order depth) src dest es l Hdiv)
    with (ds := (∅ : gmap string Node)) (n := n) as (ds' & -> & Hlook);
    try done.
  - by apply listing_NoDup.
  - intros k b Hin. by apply (listing_entry order es k b Ho).
  - intros k sub n1 Hk Hs Hd. apply IH; [|done|done|].
    + by apply diverge_app.
    + pose proof (height_child _ _ _ Hk). lia.
  - assert (ds' = es) as ->; [|done].
    apply map_eq. intros k. rewrite Hlook.
    destruct (decide _) as [|Hnin]; [done|]. rewrite lookup_empty.
    destruct (es !! k) as [c|] eqn:Hk; [|done].
    exfalso. apply Hnin.
    apply (list_elem_of_fmap_2 fst _ (k, isDirectory c)).
    apply (listing_entry order es k _ Ho). by exists c.
Qed.

(** The loop of [countFiles]. *)
Lemma countEntries_run recur dir es l count n :
  (∀ k b, (k, b) ∈ l → ∃ c, es !! k = Some c ∧ b = isDirectory c) →
  (∀ k sub, es !! k = Some (Dir sub) →
            recur (dir ++ [k]) n = (Ok (fileCount (Dir sub)), n)) →
  countEntries recur dir l count n
  = (Ok (count
         + sum_list ((λ e, match es !! e.1 with
                           | Some c => fileCount c
                           | None => 0
                           end) <$> l)), n).
Proof.
  intros Hl Hrec. revert count.
  induction l as [|[k0 b0] l IH]; intros count.
  { cbn. by rewrite Nat.add_0_r. }
  destruct (Hl k0 b0) as (c & Hc & ->); [by left|].
  cbn [countEntries fmap list_fmap sum_list fst]. rewrite Hc.
  assert (∀ k b, (k, b) ∈ l → ∃ c, es !! k = Some c ∧ b = isDirectory c)
    as Hl' by (intros k b Hin; apply Hl; by right).
  destruct c as [content|sub]; cbn [isDirectory fileCount].
  - rewrite (IH Hl'). f_equal. f_equal. unfold id. lia.
  - rewrite dbind_run, (Hrec k0 sub Hc), (IH Hl'). f_equal. f_equal.
    change (map_fold (λ _ child acc, fileCount child + acc) 0 sub)
      with (fileCount (Dir sub)).
    generalize (fileCount (Dir sub)). intros. unfold id. lia.
Qed.

(** [countFiles] counts the files of the tree and changes nothing. *)
Lemma countFiles_run order depth dir n es :
  arranges order →
  get dir n = Some (Dir es) →
  height (Dir es) ≤ depth →
  countFiles order depth dir n = (Ok (fileCount (Dir es)), n).
Proof.
  intros Ho. revert dir es.
  induction depth as [|depth IH]; intros dir es Hdir Hh.
  { cbn [height] in Hh. lia. }
  cbn [countFiles]. rewrite dbind_run. unfold read, readdirSync.
  rewrite Hdir.
  rewrite (countEntries_run _ dir es).
  - do 2 f_equal. cbn [Nat.add]. rewrite fileCount_Dir.
    rewrite (sum_list_Permutation _ _ (fmap_Permutation _ _ _ (Ho _))).
    rewrite <- list_fmap_compose. f_equal.
    apply Forall_fmap_ext, Forall_forall. intros [k c] Hin.
    apply elem_of_map_to_list in Hin. cbn. by rewrite Hin.
  - intros k b Hin. by apply (listing_entry order es k b Ho).
  - intros k sub Hk. apply IH.
    + by rewrite (get_snoc _ _ _ _ Hdir).
    + pose proof (height_child _ _ _ Hk). lia.
Qed.

End CopyFacts.

Section DeployFacts.

Import Deploy.

Implicit Types (es ds : gmap string Node) (n v : Node)
  (p q src dest dir : list string) (x y k : string)
  (l : list (string * bool)) (order : Listing).

(** Removing what is there: the path is free afterwards, the way to it is
    clear, and nothing has changed on the paths that part from it. *)
Lemma rmSync_run p n :
  p ≠ [] → is_Some (get p n) →
  ∃ n', rmSync p n = Ok n' ∧ get p n' = None ∧ clearWay p n' ∧
        (∀ q, diverge p q → get q n' = get q n).
Proof.
  intros Hne Hg. unfold rmSync, existsSync.
  destruct (get p n) as [old|] eqn:Hold; [clear Hg|by destruct Hg].
  assert (∃ n', alterAt false (λ _, Ok None) p n = Ok n' ∧ get p n' = None ∧
                clearWay p n') as (n' & Hrm & ? & ?).
  { revert n old Hold. induction p as [|x p IH]; intros n old Hg; [done|].
    cbn [get] in Hg. destruct n as [?|es]; [done|].
    destruct (es !! x) as [child|] eqn:Hx; [|done].
    cbn [alterAt]. destruct p as [|y p].
    - cbn [rbind]. eexists. split; [done|].
      cbn [get clearWay]. by rewrite lookup_delete_eq.
    - rewrite Hx.
      destruct (IH ltac:(done) child old Hg) as (child' & -> & Hg' & Hc').
      cbn [rbind]. eexists. split; [done|].
      cbn [get clearWay]. by rewrite lookup_insert_eq. }
  exists n'. repeat split; [done..|].
  intros q Hq. by apply (get_alterAt_diverge _ _ _ _ _ _ Hrm).
Qed.

(** Making a directory where there is none, the way being clear. *)
Lemma mkdirSync_run p n :
  clearWay p n → get p n = None →
  ∃ n', mkdirSync p n = Ok n' ∧ get p n' = Some (Dir ∅).
Proof.
  unfold mkdirSync. revert n. induction p as [|x p IH]; intros n Hc Hg;
    [done|].
  destruct n as [?|es]; [done|]. cbn [clearWay get] in Hc, Hg.
  cbn [alterAt]. destruct p as [|y p].
  - destruct (es !! x) as [child|] eqn:Hx; [by destruct child|].
    cbn [rbind]. eexists. split; [done|].
    cbn [get]. by rewrite lookup_insert_eq.
  - destruct (es !! x) as [child|] eqn:Hx.
    + destruct (IH child Hc Hg) as (child' & -> & Hg').
      cbn [rbind]. eexists. split; [done|].
      cbn [get]. by rewrite lookup_insert_eq.
    + destruct (IH (Dir ∅)) as (child' & -> & Hg').
      * cbn [clearWay]. by rewrite lookup_empty.
      * cbn [get]. by rewrite lookup_empty.
      * cbn [rbind]. eexists. split; [done|].
        cbn [get]. by rewrite lookup_insert_eq.
Qed.

(** What [mkdirSync] has made is a directory. *)
Lemma mkdirSync_is_dir p n n' :
  mkdirSync p n = Ok n' → ∃ ds, get p n' = Some (Dir ds).
Proof.
  unfold mkdirSync. revert n n'.
  induction p as [|x p IH]; intros n n' Hmk.
  { cbn [alterAt] in Hmk. destruct n as [?|es]; [done|].
    cbn [rbind] in Hmk. injection Hmk as <-. by eexists. }
  destruct n as [?|es]; [done|]. cbn [alterAt] in Hmk.
  destruct p as [|y p].
  - destruct (es !! x) as [[?|ds]|]; cbn [rbind] in Hmk;
      [done| |]; injection Hmk as <-; cbn [get];
      rewrite lookup_insert_eq; by eexists.
  - assert (∀ child,
      rbind (alterAt true
               (λ o, match o with
                     | None => Ok (Some (Dir ∅))
                     | Some (Dir es0) => Ok (Some (Dir es0))
                     | Some (File _) =>
                         Throw (mkError "EEXIST: file already exists")
                     end) (y :: p) child)
            (λ child', Ok (Dir (<[x := child']> es))) = Ok n' →
      ∃ ds, get (x :: y :: p) n' = Some (Dir ds)) as Hstep.
    { intros child Hc.
      destruct (alterAt _ _ (y :: p) child) as [child'|] eqn:Hchild; [|done].
      cbn [rbind] in Hc. injection Hc as <-.
      destruct (IH child child' Hchild) as [ds Hds].
      exists ds. cbn [get]. by rewrite lookup_insert_eq. }
    destruct (es !! x) as [child|]; by eapply Hstep.
Qed.

(** The steps of [deploy] before the copy, taken together. *)
Lemma deployBody_steps E n :
  deployBody E n
  = ((present ← read (λ root, Ok (existsSync (deployDir E) root)) ;
      (if (present : bool) then write (rmSync (deployDir E)) else mret tt) ;;
      write (mkdirSync (deployDir E))) ;;
     copyDirectory (listingOrder E) (stackDepth E) (sourceDir E)
                   (deployDir E) ;;
     files ← countFiles (listingOrder E) (stackDepth E) (deployDir E) ;
     write (writeFileSync (deployDir E ++ [".deploy-info.json"])
              (deployInfoJson E files)) ;;
     mret files) n.
Proof.
  unfold deployBody, mbind, D_bind, read.
  destruct (existsSync (deployDir E) n); [|reflexivity].
  by destruct (write (rmSync (deployDir E)) n) as [[[]|?] ?].
Qed.

(** After them the deploy directory is there and empty, and nothing has
    changed outside it. *)
Lemma deploy_prepare E n :
  deployDir E ≠ [] →
  is_Some (get (deployDir E) n) ∨ clearWay (deployDir E) n →
  ∃ n2,
    (present ← read (λ root, Ok (existsSync (deployDir E) root)) ;
     (if (present : bool) then write (rmSync (deployDir E)) else mret tt) ;;
     write (mkdirSync (deployDir E))) n
    = (Ok tt, n2) ∧
    get (deployDir E) n2 = Some (Dir ∅) ∧
    (∀ q, diverge (deployDir E) q → get q n2 = get q n).
Proof.
  intros Hne Hway. rewrite dbind_run. unfold read at 1, existsSync.
  destruct (get (deployDir E) n) as [old|] eqn:Hold.
  - destruct (rmSync_run (deployDir E) n Hne) as (n1 & Hrm & Hg1 & Hc1 & Ho1);
      [by rewrite Hold|].
    rewrite dbind_run. unfold write at 1. rewrite Hrm.
    destruct (mkdirSync_run _ _ Hc1 Hg1) as (n2 & Hmk & Hg2).
    unfold write. rewrite Hmk. exists n2. split; [done|]. split; [done|].
    intros q Hq.
    rewrite (get_alterAt_diverge _ _ _ _ _ _ Hmk Hq).
    by apply Ho1.
  - destruct Hway as [[? ?]|Hc]; [done|].
    rewrite dbind_run. cbn [mret D_ret].
    destruct (mkdirSync_run _ _ Hc Hold) as (n2 & Hmk & Hg2).
    unfold write. rewrite Hmk. exists n2. split; [done|]. split; [done|].
    intros q Hq. by rewrite (get_alterAt_diverge _ _ _ _ _ _ Hmk Hq).
Qed.

(** The loop stops with an error at the latest at an entry whose copy
    cannot succeed. *)
Lemma copyEntries_stuck recur src dest x l n :
  (x, true) ∈ l →
  (∀ n1 ds, get (dest ++ [x]) n1 = Some (Dir ds) →
            ∃ e n', recur (src ++ [x]) (dest ++ [x]) n1 = (Throw e, n')) →
  ∃ e n', copyEntries recur src dest l n = (Throw e, n').
Proof.
  intros Hin Hrec. revert n.
  induction l as [|[name isDir] l IH]; intros n.
  { by apply elem_of_nil in Hin. }
  cbn [copyEntries]. rewrite dbind_run.
  apply elem_of_cons in Hin as [[= <- <-]|Hin].
  - rewrite dbind_run. unfold write.
    destruct (mkdirSync (dest ++ [x]) n) as [n1|e] eqn:Hmk; [|by eexists _, _].
    destruct (mkdirSync_is_dir (dest ++ [x]) n n1) as [ds Hds]; [done|].
    destruct (Hrec n1 ds Hds) as (e & n' & ->). by eexists _, _.
  - match goal with
    | |- context [match ?m with _ => _ end] =>
        destruct m as [[[]|e] n1]; [|by eexists _, _]
    end.
    by apply IH.
Qed.

(** Copying a directory into a directory inside it does not end: whatever
    the call stack allows, the copy stops with an error. *)
Lemma copyDirectory_into_itself order depth src x r n ds :
  arranges order →
  get (src ++ x :: r) n = Some (Dir ds) →
  ∃ e n', copyDirectory order depth src (src ++ x :: r) n = (Throw e, n').
Proof.
  intros Ho. revert src x r n ds.
  induction depth as [|depth IH]; intros src x r n ds Hdest;
    [by eexists _, _|].
  cbn [copyDirectory]. rewrite dbind_run. unfold read, readdirSync.
  rewrite get_app in Hdest.
  destruct (get src n) as [[?|es]|]; [done| |done].
  cbn [mbind option_bind get] in Hdest.
  destruct (es !! x) as [child|] eqn:Hx; [|done].
  assert (isDirectory child = true) as Hdir.
  { destruct child; [by destruct r|done]. }
  apply (copyEntries_stuck _ _ _ x).
  - apply (listing_entry order es x true Ho). by exists child.
  - intros n1 ds1 Hds1.
    destruct r as [|y r]; [exact (IH (src ++ [x]) x [] n1 ds1 Hds1)|].
    assert ((src ++ x :: y :: r) ++ [x] = (src ++ [x]) ++ y :: (r ++ [x]))
      as Heq by (by rewrite <- !app_assoc).
    rewrite Heq in Hds1 |- *. by apply (IH _ _ _ _ ds1).
Qed.

(** X16: [copyDirectory] from a directory into an empty directory that does
    not lie inside it (nor it inside that one) succeeds when the call stack
    allows the depth of the tree, in whatever order the file system lists
    the entries: afterwards the destination holds the same tree as the
    source, name by name, the source is as it was, and so is everything
    outside the destination. *)
Theorem copyDirectory_copies order depth src dest n es :
  arranges order →
  diverge src dest →
  get src n = Some (Dir es) →
  get dest n = Some (Dir ∅) →
  height (Dir es) ≤ depth →
  ∃ n',
    copyDirectory order depth src dest n = (Ok tt, n') ∧
    get dest n' = Some (Dir es) ∧
    get src n' = Some (Dir es) ∧
    (∀ q, diverge dest q → get q n' = get q n).
Proof.
  intros Ho Hdiv Hsrc Hdest Hh.
  rewrite (copyDirectory_run _ _ _ _ _ _ Ho Hdiv Hsrc Hdest Hh).
  eexists. split; [done|]. split; [|split].
  - apply get_replaceAt. by rewrite Hdest.
  - rewrite get_replaceAt_diverge; [done|by apply diverge_sym].
  - intros q Hq. by apply get_replaceAt_diverge.
Qed.

(** X17: [countFiles] returns the number of files below the directory and
    changes nothing; counted after [copyDirectory], the copy has as many
    files as the source. *)
Theorem countFiles_after_copy order depth src dest n es :
  arranges order →
  diverge src dest →
  get src n = Some (Dir es) →
  get dest n = Some (Dir ∅) →
  height (Dir es) ≤ depth →
  ∃ n',
    copyDirectory order depth src dest n = (Ok tt, n') ∧
    countFiles order depth src n = (Ok (fileCount (Dir es)), n) ∧
    countFiles order depth dest n' = (Ok (fileCount (Dir es)), n').
Proof.
  intros Ho Hdiv Hsrc Hdest Hh.
  rewrite (copyDirectory_run _ _ _ _ _ _ Ho Hdiv Hsrc Hdest Hh).
  eexists. split; [done|]. split.
  - by apply countFiles_run.
  - apply countFiles_run; [done| |done].
    apply get_replaceAt. by rewrite Hdest.
Qed.

(** X18: when the source directory exists and holds no directory named
    [.deploy-info.json], the deploy directory lies elsewhere and exists or
    can be made, and the call stack allows the depth of the source tree,
    [deploy] succeeds, in whatever order the file system lists the entries:
    the deploy directory then holds the entries of the source and the file
    [.deploy-info.json] (in the place of a source file of that name), and
    nothing of an earlier deployment; the file count reported and written
    is the number of files of the source, the info file just written not
    counted; and nothing outside the deploy directory has changed. *)
Theorem deploy_result E n es :
  arranges (listingOrder E) →
  diverge (sourceDir E) (deployDir E) →
  get (sourceDir E) n = Some (Dir es) →
  height (Dir es) ≤ stackDepth E →
  is_Some (get (deployDir E) n) ∨ clearWay (deployDir E) n →
  (∀ sub, es !! ".deploy-info.json" ≠ Some (Dir sub)) →
  ∃ n',
    deploy E n = (Deployed (fileCount (Dir es)), n') ∧
    get (deployDir E) n'
    = Some (Dir (<[".deploy-info.json" :=
                     File (deployInfoJson E (fileCount (Dir es)))]> es)) ∧
    (∀ q, diverge (deployDir E) q → get q n' = get q n).
Proof.
  intros Ho Hdiv Hsrc Hh Hway Hinfo.
  destruct (diverge_nonempty _ _ Hdiv) as [_ Hne].
  destruct (deploy_prepare E n Hne Hway) as (n2 & Hprep & Hd2 & Hout2).
  assert (get (sourceDir E) n2 = Some (Dir es)) as Hs2.
  { rewrite Hout2; [done|by apply diverge_sym]. }
  pose proof (copyDirectory_run _ _ _ _ _ _ Ho Hdiv Hs2 Hd2 Hh) as Hcopy.
  set (n3 := replaceAt (deployDir E) (Dir es) n2) in Hcopy.
  assert (get (deployDir E) n3 = Some (Dir es)) as Hd3
    by (apply get_replaceAt; by rewrite Hd2).
  pose proof (countFiles_run _ _ _ _ _ Ho Hd3 Hh) as Hcount.
  set (json := deployInfoJson E (fileCount (Dir es))).
  assert (writeFileSync (deployDir E ++ [".deploy-info.json"]) json n3
          = Ok (replaceAt (deployDir E)
                  (Dir (<[".deploy-info.json" := File json]> es)) n3))
    as Hwrite.
  { unfold writeFileSync.
    rewrite (alterAt_child _ _ _ _ _ es (Some (File json)) Hd3); [done|].
    destruct (es !! ".deploy-info.json") as [[?|sub]|] eqn:Hl;
      [done| |done].
    by destruct (Hinfo sub). }
  unfold deploy, existsSync. rewrite Hsrc. cbn [negb].
  rewrite deployBody_steps.
  rewrite dbind_run, Hprep, dbind_run, Hcopy, dbind_run, Hcount, dbind_run.
  unfold write. fold json. rewrite Hwrite. cbn [mret D_ret].
  eexists. split; [done|]. split.
  - apply get_replaceAt. by rewrite Hd3.
  - intros q Hq. rewrite get_replaceAt_diverge by done.
    unfold n3. rewrite get_replaceAt_diverge by done. by apply Hout2.
Qed.

(** X19: when the source directory lies inside the deploy directory,
    [deploy] removes it with the old deployment before it copies anything:
    the run exits with code 1, the deploy directory is left empty and the
    source is gone. *)
Theorem deploy_removes_source_inside E n x r :
  deployDir E ≠ [] →
  sourceDir E = deployDir E ++ x :: r →
  is_Some (get (sourceDir E) n) →
  ∃ n',
    deploy E n = (Exit 1, n') ∧
    get (deployDir E) n' = Some (Dir ∅) ∧
    get (sourceDir E) n' = None.
Proof.
  intros Hne Hsrc Hsome.
  assert (is_Some (get (deployDir E) n)) as Hold.
  { rewrite Hsrc, get_app in Hsome.
    destruct (get (deployDir E) n); [done|by destruct Hsome]. }
  destruct (deploy_prepare E n Hne (or_introl Hold)) as (n2 & Hprep & Hd2 & _).
  assert (get (sourceDir E) n2 = None) as Hgone.
  { rewrite Hsrc, get_app, Hd2. cbn [mbind option_bind get].
    by rewrite lookup_empty. }
  exists n2. split; [|done].
  unfold deploy, existsSync. destruct Hsome as [? ->]. cbn [negb].
  rewrite deployBody_steps, dbind_run, Hprep, dbind_run.
  destruct (stackDepth E) as [|depth]; [done|].
  cbn [copyDirectory]. rewrite dbind_run. unfold read, readdirSync.
  by rewrite Hgone.
Qed.

(** X20: when the deploy directory lies inside the source directory,
    [deploy] never completes: the copy finds the deploy directory among the
    entries of the source, wherever the listing puts it, and descends into
    its own output, so that the run exits with code 1 whatever depth the
    call stack allows. *)
Theorem deploy_into_source_fails E n x r :
  arranges (listingOrder E) →
  deployDir E = sourceDir E ++ x :: r →
  is_Some (get (sourceDir E) n) →
  ∃ n', deploy E n = (Exit 1, n').
Proof.
  intros Ho Hdest [old Hold]. unfold deploy, existsSync. rewrite Hold.
  cbn [negb]. rewrite deployBody_steps, dbind_run.
  destruct ((_ : D unit) n) as [[[]|e] n2] eqn:Hprep; [|by eexists].
  assert (∃ ds, get (deployDir E) n2 = Some (Dir ds)) as [ds Hds].
  { assert (∀ n1, write (mkdirSync (deployDir E)) n1 = (Ok tt, n2) →
                  ∃ ds, get (deployDir E) n2 = Some (Dir ds)) as Hmade.
    { intros n1. unfold write.
      destruct (mkdirSync (deployDir E) n1) as [n2'|] eqn:Hmk; [|done].
      intros [= <-]. by apply (mkdirSync_is_dir (deployDir E) n1 n2'). }
    rewrite dbind_run in Hprep. unfold read at 1 in Hprep.
    rewrite dbind_run in Hprep.
    destruct (existsSync (deployDir E) n).
    - destruct (write (rmSync (deployDir E)) n) as [[[]|?] n1]; [|done].
      by apply (Hmade n1).
    - by apply (Hmade n). }
  rewrite dbind_run. rewrite Hdest in Hds |- *.
  destruct (copyDirectory_into_itself (listingOrder E) (stackDepth E)
              _ _ _ _ _ Ho Hds) as (e & n' & ->).
  by eexists.
Qed.

(** Without the source directory nothing is touched. *)
Lemma deploy_missing_source E n :
  get (sourceDir E) n = None → deploy E n = (Exit 1, n).
Proof. intros H. unfold deploy, existsSync. by rewrite H. Qed.

End DeployFacts.

Lemma backwards_arranges : arranges backwards.
Proof. intros l. apply reverse_Permutation. Qed.

Lemma copyDirectory_copies_witness :
  ∃ n',
    Deploy.copyDirectory backwards 2 ["src"] ["out"] copyRoot = (Ok tt, n') ∧
    Deploy.get ["out"] n' = Some (Deploy.Dir builtSite) ∧
    Deploy.get ["src"] n' = Some (Deploy.Dir builtSite) ∧
    (∀ q, diverge ["out"] q → Deploy.get q n' = Deploy.get q copyRoot).
Proof.
  apply (copyDirectory_copies backwards 2 ["src"] ["out"] copyRoot builtSite).
  - exact backwards_arranges.
  - by left.
  - reflexivity.
  - reflexivity.
  - vm_compute. lia.
Defined.

Lemma countFiles_after_copy_witness :
  ∃ n',
    Deploy.copyDirectory backwards 2 ["src"] ["out"] copyRoot = (Ok tt, n') ∧
    Deploy.countFiles backwards 2 ["src"] copyRoot = (Ok 4, copyRoot) ∧
    Deploy.countFiles backwards 2 ["out"] n' = (Ok 4, n').
Proof.
  apply (countFiles_after_copy backwards 2 ["src"] ["out"] copyRoot builtSite).
  - exact backwards_arranges.
  - by left.
  - reflexivity.
  - reflexivity.
  - vm_compute. lia.
Defined.

Lemma deploy_result_witness :
  ∃ n',
    Deploy.deploy deployEnv deployRoot = (Deploy.Deployed 4, n') ∧
    Deploy.get ["dist"; "deploy"; "vanilla"] n'
    = Some (Deploy.Dir
              (<[".deploy-info.json" := Deploy.File "{ files: 4 }"]>
                 builtSite)) ∧
    (∀ q, diverge ["dist"; "deploy"; "vanilla"] q →
          Deploy.get q n' = Deploy.get q deployRoot).
Proof.
  apply (deploy_result deployEnv deployRoot builtSite).
  - exact backwards_arranges.
  - right. split; [done|]. by left.
  - reflexivity.
  - vm_compute. lia.
  - left. by eexists.
  - intros sub. discriminate.
Defined.

Lemma deploy_removes_source_inside_witness :
  ∃ n',
    Deploy.deploy
      (Deploy.mkEnv ["dist"; "vanilla"] ["dist"] (λ _, "{}") backwards 64)
      deployRoot
    = (Deploy.Exit 1, n') ∧
    Deploy.get ["dist"] n' = Some (Deploy.Dir ∅) ∧
    Deploy.get ["dist"; "vanilla"] n' = None.
Proof.
  apply (deploy_removes_source_inside
           (Deploy.mkEnv ["dist"; "vanilla"] ["dist"] (λ _, "{}") backwards 64)
           deployRoot "vanilla" []).
  - discriminate.
  - reflexivity.
  - by eexists.
Defined.

Lemma deploy_into_source_fails_witness :
  ∃ n',
    Deploy.deploy
      (Deploy.mkEnv ["dist"; "vanilla"] ["dist"; "vanilla"; "deploy"]
         (λ _, "{}") backwards 64)
      deployRoot
    = (Deploy.Exit 1, n').
Proof.
  apply (deploy_into_source_fails
           (Deploy.mkEnv ["dist"; "vanilla"] ["dist"; "vanilla"; "deploy"]
              (λ _, "{}") backwards 64)
           deployRoot "deploy" []).
  - exact backwards_arranges.
  - reflexivity.
  - by eexists.
Defined.
